(** * A limit-order book with a matching engine: model and properties

    Shallow embedding of [ordertypes.py], [order.py] and [orderbook.py].

    Representation choices, fixed here once:

    - Prices are Python floats used only as dictionary keys and through
      [<], [<=], [>=], [min], [max] and [sorted].  They are modelled by [Z]
      (a price in ticks); NaN, which only a not yet converted market order
      carries, is never compared or used as a key by the code and is not
      represented.
    - Quantities and identifiers are Python integers: [Z].
    - [Order] objects are mutable and shared: the very same object sits in a
      level queue and in the registry [self.orders].  The model keeps every
      resident object exactly once, in [orders], under the key it was
      registered with, and a level queue holds the keys of its objects.  A
      key therefore plays the role of the object reference.  The second
      component of a registry entry, the reference to the containing list, is
      recovered as the queue found under the order's own side and price,
      which is where [add_order] appended it.
    - [threading.Lock] is not reentrant: acquiring it while it is held blocks
      for ever.  The model is sequential; the lock is a boolean and a second
      acquisition is the outcome [Deadlock].
    - The two [while] loops of [_match_orders] are run with fuel, one unit per
      evaluation of a loop condition.
    - The pruning thread touches the book only through [cancel_order], under
      the lock like any caller: its effect is that of further [Cancel] calls
      between two calls of the interface.  Its clock and its shutdown are not
      modelled. *)

From stdpp Require Import gmap list sorting.
From Stdlib Require Import ZArith Lia.

Local Open Scope Z_scope.

(** ** ordertypes.py *)

Inductive OrderType :=
| GOOD_TILL_CANCEL
| FILL_AND_KILL
| FILL_OR_KILL
| GOOD_FOR_DAY
| MARKET.

Inductive Side := BUY | SELL.

#[global] Instance OrderType_eq_dec : EqDecision OrderType.
Proof. solve_decision. Defined.

#[global] Instance Side_eq_dec : EqDecision Side.
Proof. solve_decision. Defined.

(** ** order.py *)

Inductive exn :=
| FillOverflow (order_id : Z)      (* ValueError raised by [Order.fill] *)
| PriceAdjust (order_id : Z)       (* ValueError raised by [Order.to_good_till_cancel] *)
| KeyError                         (* missing dictionary key *)
| EmptySequence                    (* [min]/[max] of an empty sequence, [pop] of an empty list *)
| NotInList                        (* ValueError raised by [list.remove] *)
| Dangling.                        (* a queue holds a key with no object: not a state of the program *)

Module TradeInfo.
Record t := mk { order_id : Z; price : Z; quantity : Z }.
End TradeInfo.

Module Trade.
Record t := mk { bid_trade : TradeInfo.t; ask_trade : TradeInfo.t }.
End Trade.

Module Order.
Record t := mk {
  order_type : OrderType;
  order_id : Z;
  side : Side;
  price : Z;
  initial_quantity : Z;
  remaining_quantity : Z
}.

(** [Order.__init__] *)
Definition new (ty : OrderType) (id : Z) (sd : Side) (p : Z) (q : Z) : t :=
  mk ty id sd p q q.

Definition get_filled_quantity (o : t) : Z :=
  initial_quantity o - remaining_quantity o.

Definition is_filled (o : t) : bool :=
  remaining_quantity o =? 0.

Definition fill (o : t) (q : Z) : exn + t :=
  if q >? remaining_quantity o then inl (FillOverflow (order_id o))
  else inr (mk (order_type o) (order_id o) (side o) (price o)
               (initial_quantity o) (remaining_quantity o - q)).

Definition to_good_till_cancel (o : t) (p : Z) : exn + t :=
  if decide (order_type o = MARKET)
  then inr (mk GOOD_TILL_CANCEL (order_id o) (side o) p
               (initial_quantity o) (remaining_quantity o))
  else inl (PriceAdjust (order_id o)).
End Order.

Module OrderModify.
Record t := mk { order_id : Z; side : Side; price : Z; quantity : Z }.

Definition to_order (m : t) (ty : OrderType) : Order.t :=
  Order.new ty (order_id m) (side m) (price m) (quantity m).
End OrderModify.

#[global] Instance TradeInfo_eq_dec : EqDecision TradeInfo.t.
Proof. solve_decision. Defined.

#[global] Instance Trade_eq_dec : EqDecision Trade.t.
Proof. solve_decision. Defined.

#[global] Instance Order_eq_dec : EqDecision Order.t.
Proof. solve_decision. Defined.

(** ** orderbook.py: the state *)

(** One entry of [self.data]: [{'quantity': _, 'count': _}]. *)
Record LevelData := mkLevel { quantity : Z; count : Z }.

#[global] Instance LevelData_eq_dec : EqDecision LevelData.
Proof. solve_decision. Defined.

Record Orderbook := mkBook {
  data : gmap Z LevelData;       (* price -> aggregate, both sides together *)
  bids : gmap Z (list Z);        (* price -> queue of references, oldest first *)
  asks : gmap Z (list Z);
  orders : gmap Z Order.t;       (* order id -> the resident object *)
  lock : bool                    (* true while [self.lock] is held *)
}.

#[global] Instance Orderbook_eq_dec : EqDecision Orderbook.
Proof. solve_decision. Defined.

(** [Orderbook.__init__] *)
Definition empty_book : Orderbook := mkBook ∅ ∅ ∅ ∅ false.

Definition set_data (d : gmap Z LevelData) (s : Orderbook) : Orderbook :=
  mkBook d (bids s) (asks s) (orders s) (lock s).
Definition set_bids (b : gmap Z (list Z)) (s : Orderbook) : Orderbook :=
  mkBook (data s) b (asks s) (orders s) (lock s).
Definition set_asks (a : gmap Z (list Z)) (s : Orderbook) : Orderbook :=
  mkBook (data s) (bids s) a (orders s) (lock s).
Definition set_orders (o : gmap Z Order.t) (s : Orderbook) : Orderbook :=
  mkBook (data s) (bids s) (asks s) o (lock s).
Definition set_lock (l : bool) (s : Orderbook) : Orderbook :=
  mkBook (data s) (bids s) (asks s) (orders s) l.

(** [self.bids if side == Side.BUY else self.asks] *)
Definition orders_dict (sd : Side) (s : Orderbook) : gmap Z (list Z) :=
  match sd with BUY => bids s | SELL => asks s end.

Definition set_orders_dict (sd : Side) (m : gmap Z (list Z)) (s : Orderbook) : Orderbook :=
  match sd with BUY => set_bids m s | SELL => set_asks m s end.

(** ** Outcomes and the state monad of the methods *)

Inductive outcome (A : Type) :=
| Ok (a : A) (s : Orderbook)
| Raise (e : exn)
| Deadlock
| OutOfFuel.
Arguments Ok {A} a s.
Arguments Raise {A} e.
Arguments Deadlock {A}.
Arguments OutOfFuel {A}.

Definition M (A : Type) : Type := Orderbook -> outcome A.

Definition ret {A} (a : A) : M A := fun s => Ok a s.
Definition raise {A} (e : exn) : M A := fun _ => Raise e.
Definition bind {A B} (c : M A) (k : A -> M B) : M B :=
  fun s => match c s with
           | Ok a s' => k a s'
           | Raise e => Raise e
           | Deadlock => Deadlock
           | OutOfFuel => OutOfFuel
           end.
Definition get : M Orderbook := fun s => Ok s s.
Definition update (f : Orderbook -> Orderbook) : M unit := fun s => Ok tt (f s).
Definition lift {A} (r : exn + A) : M A :=
  match r with inl e => raise e | inr a => ret a end.
Definition from_option {A} (e : exn) (o : option A) : M A :=
  match o with Some a => ret a | None => raise e end.

Notation "x <- c ;; k" := (bind c (fun x => k))
  (at level 100, c at next level, right associativity).
Notation "c ;;; k" := (bind c (fun _ => k))
  (at level 100, right associativity).

(** [with self.lock: body] *)
Definition with_lock {A} (body : M A) : M A :=
  fun s => if lock s then Deadlock
           else match body (set_lock true s) with
                | Ok a s' => Ok a (set_lock false s')
                | Raise e => Raise e
                | Deadlock => Deadlock
                | OutOfFuel => OutOfFuel
                end.

(** ** Python built-ins used by the book *)

Definition keys {V} (m : gmap Z V) : list Z := (map_to_list m).*1.

(** [bool(d)] for a dictionary *)
Definition truthy {V} (m : gmap Z V) : bool :=
  match keys m with [] => false | _ => true end.

Definition py_max (l : list Z) : option Z :=
  match l with [] => None | x :: l' => Some (foldr Z.max x l') end.
Definition py_min (l : list Z) : option Z :=
  match l with [] => None | x :: l' => Some (foldr Z.min x l') end.

(** [sorted(l, reverse=r)] *)
Definition py_sorted (l : list Z) (r : bool) : list Z :=
  if r then reverse (merge_sort Z.le l) else merge_sort Z.le l.

(** [l.remove(x)]: drops the first occurrence *)
Fixpoint list_remove (x : Z) (l : list Z) : option (list Z) :=
  match l with
  | [] => None
  | y :: l' => if decide (x = y) then Some l'
               else (fun r => y :: r) <$> list_remove x l'
  end.

(** ** orderbook.py: the methods *)

(** [self.data[price]] on the [defaultdict] *)
Definition level (d : gmap Z LevelData) (price : Z) : LevelData :=
  default (mkLevel 0 0) (d !! price).

Definition _update_level_data (price qty : Z) (is_add is_match : bool)
    (s : Orderbook) : Orderbook :=
  let d := level (data s) price in
  let d' :=
    if is_add then mkLevel (quantity d + qty) (count d + 1)
    else if is_match then mkLevel (quantity d - qty) (count d)
    else mkLevel (quantity d - qty) (count d - 1) in
  set_data (if count d' =? 0 then delete price (data s)
            else <[price := d']> (data s)) s.

Definition _can_match (sd : Side) (price : Z) (s : Orderbook) : bool :=
  match sd with
  | BUY => truthy (asks s) &&
           match py_min (keys (asks s)) with
           | Some a => price >=? a
           | None => false
           end
  | SELL => truthy (bids s) &&
            match py_max (keys (bids s)) with
            | Some b => price <=? b
            | None => false
            end
  end.

(** The [for] loop of [_can_fully_fill] over [relevant_prices]. *)
Fixpoint fill_walk (d : gmap Z LevelData) (sd : Side) (price : Z)
    (remaining : Z) (relevant_prices : list Z) : bool :=
  match relevant_prices with
  | [] => false
  | level_price :: rest =>
      if match sd with
         | BUY => level_price >? price
         | SELL => level_price <? price
         end
      then fill_walk d sd price remaining rest
      else
        let level_quantity := quantity (level d level_price) in
        if remaining <=? level_quantity then true
        else fill_walk d sd price (remaining - level_quantity) rest
  end.

Definition _can_fully_fill (sd : Side) (price qty : Z) (s : Orderbook) : bool :=
  if negb (_can_match sd price s) then false
  else fill_walk (data s) sd price qty
         (py_sorted (keys (data s)) (bool_decide (sd = BUY))).

Definition cancel_order (order_id : Z) : M unit :=
  with_lock (
    s <- get ;;
    match orders s !! order_id with
    | None => ret tt
    | Some order =>
        update (fun s => set_orders (delete order_id (orders s)) s) ;;;
        let sd := Order.side order in
        let p := Order.price order in
        order_list <- from_option Dangling (orders_dict sd s !! p) ;;
        order_list' <- from_option NotInList (list_remove order_id order_list) ;;
        update (fun s =>
          set_orders_dict sd
            (match order_list' with
             | [] => delete p (orders_dict sd s)
             | _ => <[p := order_list']> (orders_dict sd s)
             end) s) ;;;
        update (_update_level_data p (Order.remaining_quantity order) false false)
    end).

(** Reading the object behind a reference. *)
Definition deref (r : Z) : M Order.t :=
  s <- get ;; from_option Dangling (orders s !! r).

(** [o.fill(q)] on the object behind [r]: the change is seen through every
    reference to it. *)
Definition fill_at (r : Z) (q : Z) : M unit :=
  o <- deref r ;;
  o' <- lift (Order.fill o q) ;;
  update (fun s => set_orders (<[r := o']> (orders s)) s).

(** [orders_dict[p].pop(0)] *)
Definition pop_head (sd : Side) (p : Z) : M unit :=
  s <- get ;;
  l <- from_option KeyError (orders_dict sd s !! p) ;;
  match l with
  | [] => raise EmptySequence
  | _ :: l' => update (fun s => set_orders_dict sd (<[p := l']> (orders_dict sd s)) s)
  end.

(** [del self.orders[id]] *)
Definition del_order (id : Z) : M unit :=
  s <- get ;;
  match orders s !! id with
  | None => raise KeyError
  | Some _ => update (fun s => set_orders (delete id (orders s)) s)
  end.

Definition when (b : bool) (c : M unit) : M unit := if b then c else ret tt.

(** How one pass through the body of the inner [while] ends. *)
Inductive step_exit := Return | Break | Next.

(** The body of the inner loop, entered with [rb] and [ra] the heads of the
    queues at [best_bid_price] and [best_ask_price]. *)
Definition match_step (best_bid_price best_ask_price rb ra : Z)
    (trades : list Trade.t) : M (step_exit * list Trade.t) :=
  bid0 <- deref rb ;;
  ask0 <- deref ra ;;
  let match_quantity :=
    Z.min (Order.remaining_quantity bid0) (Order.remaining_quantity ask0) in
  fill_at rb match_quantity ;;;
  fill_at ra match_quantity ;;;
  bid <- deref rb ;;
  ask <- deref ra ;;
  let trades := trades ++
    [Trade.mk
       (TradeInfo.mk (Order.order_id bid) (Order.price bid) match_quantity)
       (TradeInfo.mk (Order.order_id ask) (Order.price ask) match_quantity)] in
  update (_update_level_data (Order.price bid) match_quantity false true) ;;;
  update (_update_level_data (Order.price ask) match_quantity false true) ;;;
  if bool_decide (Order.order_type bid = FILL_AND_KILL) ||
     bool_decide (Order.order_type ask = FILL_AND_KILL)
  then
    when (negb (Order.is_filled bid)) (cancel_order (Order.order_id bid)) ;;;
    when (negb (Order.is_filled ask)) (cancel_order (Order.order_id ask)) ;;;
    ret (Return, trades)
  else
    when (Order.is_filled bid)
      (pop_head BUY best_bid_price ;;; del_order (Order.order_id bid)) ;;;
    when (Order.is_filled ask)
      (pop_head SELL best_ask_price ;;; del_order (Order.order_id ask)) ;;;
    s <- get ;;
    qb <- from_option KeyError (bids s !! best_bid_price) ;;
    match qb with
    | [] => update (fun s => set_bids (delete best_bid_price (bids s)) s) ;;;
            ret (Break, trades)
    | _ =>
        qa <- from_option KeyError (asks s !! best_ask_price) ;;
        match qa with
        | [] => update (fun s => set_asks (delete best_ask_price (asks s)) s) ;;;
                ret (Break, trades)
        | _ => ret (Next, trades)
        end
    end.

(** Where control stands in [_match_orders]: about to test the condition of
    the outer loop, or of the inner loop at the two best prices. *)
Inductive loop_pos :=
| AtOuter
| AtInner (best_bid_price best_ask_price : Z).

Fixpoint match_loop (fuel : nat) (pos : loop_pos) (trades : list Trade.t)
    : M (list Trade.t) :=
  match fuel with
  | O => fun _ => OutOfFuel
  | S fuel' =>
      match pos with
      | AtOuter =>
          s <- get ;;
          if truthy (bids s) && truthy (asks s) then
            best_bid_price <- from_option EmptySequence (py_max (keys (bids s))) ;;
            best_ask_price <- from_option EmptySequence (py_min (keys (asks s))) ;;
            if best_bid_price <? best_ask_price then ret trades
            else match_loop fuel' (AtInner best_bid_price best_ask_price) trades
          else ret trades
      | AtInner best_bid_price best_ask_price =>
          s <- get ;;
          qb <- from_option KeyError (bids s !! best_bid_price) ;;
          match qb with
          | [] => match_loop fuel' AtOuter trades
          | rb :: _ =>
              qa <- from_option KeyError (asks s !! best_ask_price) ;;
              match qa with
              | [] => match_loop fuel' AtOuter trades
              | ra :: _ =>
                  r <- match_step best_bid_price best_ask_price rb ra trades ;;
                  match r with
                  | (Return, trades') => ret trades'
                  | (Break, trades') => match_loop fuel' AtOuter trades'
                  | (Next, trades') =>
                      match_loop fuel' (AtInner best_bid_price best_ask_price) trades'
                  end
              end
          end
      end
  end.

Definition _match_orders (fuel : nat) : M (list Trade.t) :=
  match_loop fuel AtOuter [].

(** The market conversion of [add_order]: [None] stands for the early
    [return []]. *)
Definition convert_market (order : Order.t) : M (option Order.t) :=
  s <- get ;;
  if bool_decide (Order.order_type order = MARKET) then
    if bool_decide (Order.side order = BUY) && truthy (asks s) then
      worst_ask <- from_option EmptySequence (py_max (keys (asks s))) ;;
      o <- lift (Order.to_good_till_cancel order worst_ask) ;;
      ret (Some o)
    else if bool_decide (Order.side order = SELL) && truthy (bids s) then
      worst_bid <- from_option EmptySequence (py_min (keys (bids s))) ;;
      o <- lift (Order.to_good_till_cancel order worst_bid) ;;
      ret (Some o)
    else ret None
  else ret (Some order).

(** The insertion of [add_order]: queue, registry, ledger. *)
Definition insert_order (order : Order.t) (s : Orderbook) : Orderbook :=
  let sd := Order.side order in
  let p := Order.price order in
  let d := orders_dict sd s in
  let queue := default [] (d !! p) in
  let s1 := set_orders_dict sd (<[p := queue ++ [Order.order_id order]]> d) s in
  let s2 := set_orders (<[Order.order_id order := order]> (orders s1)) s1 in
  _update_level_data p (Order.initial_quantity order) true false s2.

Definition add_order (fuel : nat) (order : Order.t) : M (list Trade.t) :=
  with_lock (
    s <- get ;;
    match orders s !! Order.order_id order with
    | Some _ => ret []
    | None =>
        converted <- convert_market order ;;
        match converted with
        | None => ret []
        | Some order =>
            if bool_decide (Order.order_type order = FILL_AND_KILL) &&
               negb (_can_match (Order.side order) (Order.price order) s)
            then ret []
            else if bool_decide (Order.order_type order = FILL_OR_KILL) &&
                    negb (_can_fully_fill (Order.side order) (Order.price order)
                            (Order.initial_quantity order) s)
            then ret []
            else
              update (insert_order order) ;;;
              _match_orders fuel
        end
    end).

Definition modify_order (fuel : nat) (modify : OrderModify.t) : M (list Trade.t) :=
  with_lock (
    s <- get ;;
    match orders s !! OrderModify.order_id modify with
    | None => ret []
    | Some original_order =>
        let order_type := Order.order_type original_order in
        cancel_order (OrderModify.order_id modify) ;;;
        add_order fuel (OrderModify.to_order modify order_type)
    end).

Definition size : M Z :=
  with_lock (s <- get ;; ret (Z.of_nat (base.size (orders s)))).


(** ** Runs of the public interface *)

Inductive call :=
| Add (order : Order.t)
| Cancel (order_id : Z)
| Modify (modify : OrderModify.t).

Definition exec (fuel : nat) (c : call) : M (list Trade.t) :=
  match c with
  | Add order => add_order fuel order
  | Cancel order_id => cancel_order order_id ;;; ret []
  | Modify modify => modify_order fuel modify
  end.

(** The states a book can be in between two calls, starting from
    [Orderbook()]. *)
Inductive reachable : Orderbook -> Prop :=
| reach_new : reachable empty_book
| reach_call s c fuel trades s' :
    reachable s -> exec fuel c s = Ok trades s' -> reachable s'.

(** ** Vocabulary of the statements *)

Definition opposite (sd : Side) : Side :=
  match sd with BUY => SELL | SELL => BUY end.

(** [w] is the worst key of the side map of [sd], the highest ask key or the
    lowest bid key, whatever the queues under the keys hold: what [max] and
    [min] of [keys()] give. *)
Definition worst_key (sd : Side) (s : Orderbook) (w : Z) : Prop :=
  is_Some (orders_dict sd s !! w) /\
  forall p, is_Some (orders_dict sd s !! p) ->
            match sd with SELL => p <= w | BUY => w <= p end.

(** An order is resident on side [sd] at price [p]: the queue under [p] holds
    an entry. *)
Definition resident_at (sd : Side) (s : Orderbook) (p : Z) : Prop :=
  exists q r, orders_dict sd s !! p = Some q /\ r ∈ q.

(** No order is resident on side [sd]. *)
Definition side_empty (sd : Side) (s : Orderbook) : Prop :=
  forall p, ~ resident_at sd s p.

(** [w] is the worst resident price of side [sd]: the highest price at which
    an ask is resident, the lowest at which a bid is. *)
Definition worst_resident_price (sd : Side) (s : Orderbook) (w : Z) : Prop :=
  resident_at sd s w /\
  forall p, resident_at sd s p ->
            match sd with SELL => p <= w | BUY => w <= p end.

(** What [to_good_till_cancel] leaves of a market order. *)
Definition as_good_till_cancel (o : Order.t) (p : Z) : Order.t :=
  Order.mk GOOD_TILL_CANCEL (Order.order_id o) (Order.side o) p
           (Order.initial_quantity o) (Order.remaining_quantity o).

(** Two records describe the same order: they differ at most in the
    remaining quantity. *)
Definition same_identity (o o' : Order.t) : Prop :=
  Order.order_type o = Order.order_type o' /\
  Order.order_id o = Order.order_id o' /\
  Order.side o = Order.side o' /\
  Order.price o = Order.price o' /\
  Order.initial_quantity o = Order.initial_quantity o'.

(** [s] comes from [s0] by filling and removing residents only: every object
    of [s] is an object of [s0], and every queue entry of [s] is an entry of
    the same queue in [s0]. *)
Definition descends (s0 s : Orderbook) : Prop :=
  (forall r o, orders s !! r = Some o ->
     exists o0, orders s0 !! r = Some o0 /\ same_identity o0 o) /\
  (forall sd p q r, orders_dict sd s !! p = Some q -> r ∈ q ->
     exists q0, orders_dict sd s0 !! p = Some q0 /\ r ∈ q0).

(** [r] is queued on side [sd]. *)
Definition queued (sd : Side) (s : Orderbook) (r : Z) : Prop :=
  exists p q, orders_dict sd s !! p = Some q /\ r ∈ q.

(** A trade in which each side reports the identifier and the limit price of
    its own order, a bid and an ask resident in [s], and both report the same
    quantity. *)
Definition own_price_trade (s : Orderbook) (t : Trade.t) : Prop :=
  exists rb ra bid ask q,
    queued BUY s rb /\ queued SELL s ra /\
    orders s !! rb = Some bid /\ orders s !! ra = Some ask /\
    t = Trade.mk
          (TradeInfo.mk (Order.order_id bid) (Order.price bid) q)
          (TradeInfo.mk (Order.order_id ask) (Order.price ask) q).

(** The book after the resident [order], registered under [order_id], has
    been taken out of its queue, of which [rest] remains. *)
Definition remove_resident (order_id : Z) (order : Order.t) (rest : list Z)
    (s : Orderbook) : Orderbook :=
  let sd := Order.side order in
  let p := Order.price order in
  _update_level_data p (Order.remaining_quantity order) false false
    (set_orders_dict sd
       (match rest with
        | [] => delete p (orders_dict sd s)
        | _ => <[p := rest]> (orders_dict sd s)
        end)
       (set_orders (delete order_id (orders s)) s)).

(** The registry and the queues agree: an identifier is registered exactly
    when its object occupies one place in the queue of its own side and
    price. *)
Record book_ok (s : Orderbook) : Prop := mk_book_ok {
  ok_key : forall r o, orders s !! r = Some o -> Order.order_id o = r;
  ok_registered : forall r o, orders s !! r = Some o ->
    exists q, orders_dict (Order.side o) s !! Order.price o = Some q /\ r ∈ q;
  ok_queued : forall sd p q r, orders_dict sd s !! p = Some q -> r ∈ q ->
    exists o, orders s !! r = Some o /\ Order.side o = sd /\ Order.price o = p;
  ok_nodup : forall sd p q, orders_dict sd s !! p = Some q -> NoDup q
}.

(** No object is queued on both sides. *)
Definition sides_disjoint (s : Orderbook) : Prop :=
  forall r, queued BUY s r -> queued SELL s r -> False.

(** A command that only fills and removes. *)
Definition steps_down {A} (c : M A) : Prop :=
  forall s a s', c s = Ok a s' -> descends s s'.

(** A command that hands back the trade list [tr]. *)
Definition yields (tr : list Trade.t) (c : M (step_exit * list Trade.t)) : Prop :=
  forall s r s', c s = Ok r s' -> r.2 = tr.

(** A command that never raises the error of [Order.fill]. *)
Definition no_overflow {A} (c : M A) : Prop :=
  forall s id, c s <> Raise (FillOverflow id).

(** "If the bid map and the ask map are both non-empty then the maximum bid
    price is strictly less than the minimum ask price." *)
Definition uncrossed (s : Orderbook) : Prop :=
  forall b a,
    py_max (keys (bids s)) = Some b -> py_min (keys (asks s)) = Some a -> b < a.

(** The total quantity of a list of trades. *)
Definition traded (trades : list Trade.t) : Z :=
  foldr (fun t acc => TradeInfo.quantity (Trade.bid_trade t) + acc) 0 trades.

(** The order resting on the book when [aggressor] is matched in trade [t]:
    the ask side for a Buy, the bid side for a Sell. *)
Definition resting_side (aggressor : Order.t) (t : Trade.t) : TradeInfo.t :=
  match Order.side aggressor with
  | BUY => Trade.ask_trade t
  | SELL => Trade.bid_trade t
  end.

(** The aggressor's limit is strictly better than the resting order's. *)
Definition crosses (aggressor resting : Order.t) : Prop :=
  match Order.side aggressor with
  | BUY => Order.price resting < Order.price aggressor
  | SELL => Order.price aggressor < Order.price resting
  end.

(** The price policy of the data model's trade report: when the aggressor
    crosses the resting order, both halves of the trade carry the resting
    order's price. *)
Definition reports_resting_price (s : Orderbook) (aggressor : Order.t)
    (t : Trade.t) : Prop :=
  forall resting,
    orders s !! TradeInfo.order_id (resting_side aggressor t) = Some resting ->
    crosses aggressor resting ->
    TradeInfo.price (Trade.bid_trade t) = Order.price resting /\
    TradeInfo.price (Trade.ask_trade t) = Order.price resting.

Definition trade (bid_id bid_price ask_id ask_price qty : Z) : Trade.t :=
  Trade.mk (TradeInfo.mk bid_id bid_price qty) (TradeInfo.mk ask_id ask_price qty).

Definition filled_to (o : Order.t) (remaining : Z) : Order.t :=
  Order.mk (Order.order_type o) (Order.order_id o) (Order.side o)
           (Order.price o) (Order.initial_quantity o) remaining.

(** ** Concrete runs *)

(** Two asks at 100 and 101, then an ImmediateOrCancel bid for more than the
    first level holds. *)
Module Scenario5.
Definition sell1 := Order.new GOOD_TILL_CANCEL 1 SELL 100 5.
Definition sell2 := Order.new GOOD_TILL_CANCEL 2 SELL 101 5.
Definition buy3 := Order.new FILL_AND_KILL 3 BUY 101 7.

Definition book1 : Orderbook :=
  mkBook {[100 := mkLevel 5 1]} ∅ {[100 := [1]]} {[1 := sell1]} false.
Definition book2 : Orderbook :=
  mkBook {[100 := mkLevel 5 1; 101 := mkLevel 5 1]} ∅
         {[100 := [1]; 101 := [2]]} {[1 := sell1; 2 := sell2]} false.

(** Where the matching loop gets to on [book2] with [buy3] inserted when it is
    run with the lock free, so that its call of [cancel_order] goes through. *)
Definition book3 : Orderbook :=
  mkBook {[100 := mkLevel 0 1; 101 := mkLevel 5 1]} ∅
         {[100 := [1]; 101 := [2]]}
         {[1 := filled_to sell1 0; 2 := sell2]} false.
End Scenario5.

(** An ImmediateOrCancel bid that fills exactly against the resting ask. *)
Module ExactFill.
Definition sell1 := Order.new GOOD_TILL_CANCEL 1 SELL 100 5.
Definition buy2 := Order.new FILL_AND_KILL 2 BUY 100 5.

Definition book1 : Orderbook :=
  mkBook {[100 := mkLevel 5 1]} ∅ {[100 := [1]]} {[1 := sell1]} false.
Definition book2 : Orderbook :=
  mkBook {[100 := mkLevel 0 2]} {[100 := [2]]} {[100 := [1]]}
         {[1 := filled_to sell1 0; 2 := filled_to buy2 0]} false.
End ExactFill.

(** An AllOrNone bid for 10 against 5 on offer, with a large bid resting
    below. *)
Module PartialAllOrNone.
Definition buy1 := Order.new GOOD_TILL_CANCEL 1 BUY 99 100.
Definition sell2 := Order.new GOOD_TILL_CANCEL 2 SELL 100 5.
Definition buy3 := Order.new FILL_OR_KILL 3 BUY 100 10.

Definition book1 : Orderbook :=
  mkBook {[99 := mkLevel 100 1]} {[99 := [1]]} ∅ {[1 := buy1]} false.
Definition book2 : Orderbook :=
  mkBook {[99 := mkLevel 100 1; 100 := mkLevel 5 1]}
         {[99 := [1]]} {[100 := [2]]} {[1 := buy1; 2 := sell2]} false.
Definition book3 : Orderbook :=
  mkBook {[99 := mkLevel 100 1; 100 := mkLevel 5 2]}
         {[99 := [1]; 100 := [3]]} ∅
         {[1 := buy1; 3 := filled_to buy3 5]} false.
End PartialAllOrNone.

(** A bid at 101 lifting an ask resting at 100. *)
Module Crossing.
Definition sell1 := Order.new GOOD_TILL_CANCEL 1 SELL 100 5.
Definition buy2 := Order.new GOOD_TILL_CANCEL 2 BUY 101 5.

Definition book1 : Orderbook :=
  mkBook {[100 := mkLevel 5 1]} ∅ {[100 := [1]]} {[1 := sell1]} false.
Definition book2 : Orderbook :=
  mkBook {[100 := mkLevel 0 1; 101 := mkLevel 0 1]} ∅ {[100 := []]} ∅ false.
End Crossing.

(** A bid and an ask of the same size at the same price, then an ask added
    at that price and cancelled. *)
Module StaleLevel.
Definition sell1 := Order.new GOOD_TILL_CANCEL 1 SELL 100 5.
Definition buy2 := Order.new GOOD_TILL_CANCEL 2 BUY 100 5.
Definition sell3 := Order.new GOOD_TILL_CANCEL 3 SELL 100 7.

Definition book1 : Orderbook :=
  mkBook {[100 := mkLevel 5 1]} ∅ {[100 := [1]]} {[1 := sell1]} false.
Definition book2 : Orderbook :=
  mkBook {[100 := mkLevel 0 2]} ∅ {[100 := []]} ∅ false.
Definition book3 : Orderbook :=
  mkBook {[100 := mkLevel 7 3]} ∅ {[100 := [3]]} {[3 := sell3]} false.
Definition book4 : Orderbook :=
  mkBook {[100 := mkLevel 0 2]} ∅ ∅ ∅ false.

(** A bid at the price of the emptied ask level, and [book2] with this bid
    inserted and the lock held. *)
Definition buy5 := Order.new GOOD_TILL_CANCEL 5 BUY 100 5.
Definition stuck : Orderbook :=
  mkBook {[100 := mkLevel 5 3]} {[100 := [5]]} {[100 := []]} {[5 := buy5]} true.
End StaleLevel.

(** A market bid meeting the emptied ask level of [StaleLevel.book2], alone
    and with an ask resting below it. *)
Module MarketOnStale.
Definition sell3 := Order.new GOOD_TILL_CANCEL 3 SELL 99 5.
Definition market4 := Order.new MARKET 4 BUY 0 5.

Definition book3 : Orderbook :=
  mkBook {[99 := mkLevel 5 1; 100 := mkLevel 0 2]} ∅
         {[99 := [3]; 100 := []]} {[3 := sell3]} false.
Definition book4 : Orderbook :=
  mkBook {[99 := mkLevel 0 1; 100 := mkLevel 0 3]} ∅
         {[99 := []; 100 := []]} ∅ false.
End MarketOnStale.

(** One resting bid, modified to a new price and quantity. *)
Module Scenario6.
Definition buy1 := Order.new GOOD_TILL_CANCEL 1 BUY 100 10.
Definition change := OrderModify.mk 1 BUY 101 15.

Definition book1 : Orderbook :=
  mkBook {[100 := mkLevel 10 1]} {[100 := [1]]} ∅ {[1 := buy1]} false.
Definition book2 : Orderbook :=
  mkBook {[101 := mkLevel 15 1]} {[101 := [1]]} ∅
         {[1 := OrderModify.to_order change GOOD_TILL_CANCEL]} false.
End Scenario6.


(** [o] would trade on arrival: a market order when the opposite side map is
    non-empty, any other order when [_can_match] says so. *)
Definition marketable (o : Order.t) (s : Orderbook) : bool :=
  match Order.order_type o with
  | MARKET => truthy (orders_dict (opposite (Order.side o)) s)
  | _ => _can_match (Order.side o) (Order.price o) s
  end.

(** "For every side-map entry (P -> Q), Q is non-empty." *)
Definition queues_nonempty (s : Orderbook) : Prop :=
  forall sd p q, orders_dict sd s !! p = Some q -> q <> [].

(** Every ledger entry counts at least one order. *)
Definition counts_positive (s : Orderbook) : Prop :=
  forall p d, data s !! p = Some d -> 0 < count d.

(** ** The pruning pass *)

(** The identifiers [_prune_good_for_day_orders] collects under the lock.
    Python yields them in the insertion order of [self.orders], which the
    map does not record: statements about the pass are made for every
    order of this list. *)
Definition good_for_day_ids (s : Orderbook) : list Z :=
  (map_to_list (filter (fun kv => Order.order_type kv.2 = GOOD_FOR_DAY) (orders s))).*1.

(** The two halves of one pass of [_prune_good_for_day_orders] once the wait
    has timed out: the snapshot taken under the lock, then the cancellations,
    each taking the lock for itself. *)
Definition snapshot_good_for_day : M (list Z) :=
  with_lock (s <- get ;; ret (good_for_day_ids s)).

(** [for order_id in order_ids: self.cancel_order(order_id)] *)
Fixpoint cancel_each (order_ids : list Z) : M unit :=
  match order_ids with
  | [] => ret tt
  | order_id :: rest => cancel_order order_id ;;; cancel_each rest
  end.

(** ** More vocabulary *)

(** The sum of [f] over a list. *)
Definition total {A} (f : A -> Z) (l : list A) : Z :=
  foldr (fun x acc => f x + acc) 0 l.

(** The sum of [f] over the registered orders. *)
Definition tally (f : Order.t -> Z) (m : gmap Z Order.t) : Z :=
  total (fun kv => f kv.2) (map_to_list m).

(** The contribution of one order to the depth and to the head count at
    price [p]. *)
Definition remaining_at (p : Z) (o : Order.t) : Z :=
  if decide (Order.price o = p) then Order.remaining_quantity o else 0.
Definition one_at (p : Z) (o : Order.t) : Z :=
  if decide (Order.price o = p) then 1 else 0.

(** A price on the marketable side of the limit [price] of an order of side
    [sd]: what the [continue] of [_can_fully_fill] lets through. *)
Definition within_limit (sd : Side) (price level_price : Z) : bool :=
  negb match sd with
       | BUY => level_price >? price
       | SELL => level_price <? price
       end.

(** The ledger quantity within the limit, all entries of [self.data]
    together. *)
Definition ledger_depth (sd : Side) (price : Z) (s : Orderbook) : Z :=
  total (fun k => quantity (level (data s) k))
        (filter (fun k => within_limit sd price k = true) (keys (data s))).

(** An order as [Order.__init__] makes it, for a quantity that is not
    negative. *)
Definition well_made (o : Order.t) : Prop :=
  Order.remaining_quantity o = Order.initial_quantity o /\
  0 <= Order.initial_quantity o.

(** The books reached from [Orderbook()] when every order handed to
    [add_order] is well made. *)
Inductive reachable_well_made : Orderbook -> Prop :=
| rw_new : reachable_well_made empty_book
| rw_add s fuel order trades s' :
    reachable_well_made s -> well_made order ->
    add_order fuel order s = Ok trades s' -> reachable_well_made s'
| rw_cancel s order_id s' :
    reachable_well_made s ->
    cancel_order order_id s = Ok tt s' -> reachable_well_made s'
| rw_modify s fuel modify trades s' :
    reachable_well_made s ->
    modify_order fuel modify s = Ok trades s' -> reachable_well_made s'.

(** Every registered order has between nothing and its initial quantity
    left. *)
Definition remaining_in_range (s : Orderbook) : Prop :=
  forall r o, orders s !! r = Some o ->
    0 <= Order.remaining_quantity o <= Order.initial_quantity o.

(** The ledger against the registry: at every price the quantity is the sum
    of what the registered orders at that price have left, and the count is
    at least their number. *)
Definition ledger_tracks (s : Orderbook) : Prop :=
  forall p,
    quantity (level (data s) p) = tally (remaining_at p) (orders s) /\
    tally (one_at p) (orders s) <= count (level (data s) p).

(** All queue entries of the book, bids then asks. *)
Definition resident_refs (s : Orderbook) : list Z :=
  concat (map_to_list (bids s)).*2 ++ concat (map_to_list (asks s)).*2.

(** ** The depth report *)

Module LevelInfo.
Record t := mk { price : Z; quantity : Z }.
End LevelInfo.

(** [sum(order.remaining_quantity for order in orders)] over a queue of
    references. *)
Fixpoint sum_remaining (refs : list Z) : M Z :=
  match refs with
  | [] => ret 0
  | r :: rest =>
      order <- deref r ;;
      quantity <- sum_remaining rest ;;
      ret (Order.remaining_quantity order + quantity)
  end.

(** The loop over [d.items()]: one [LevelInfo] per price key. *)
Fixpoint level_infos (items : list (Z * list Z)) : M (list LevelInfo.t) :=
  match items with
  | [] => ret []
  | (price, refs) :: rest =>
      quantity <- sum_remaining refs ;;
      infos <- level_infos rest ;;
      ret (LevelInfo.mk price quantity :: infos)
  end.

(** [items()] yields the levels in the insertion order of the dictionary,
    which the map does not record: the lists are right up to their order. *)
Definition get_order_infos : M (list LevelInfo.t * list LevelInfo.t) :=
  with_lock (
    s <- get ;;
    bid_infos <- level_infos (map_to_list (bids s)) ;;
    ask_infos <- level_infos (map_to_list (asks s)) ;;
    ret (bid_infos, ask_infos)).

(** The quantity a list of level reports gives for the price [p]. *)
Definition reported (infos : list LevelInfo.t) (p : Z) : Z :=
  total LevelInfo.quantity
        (filter (fun i => LevelInfo.price i = p) infos).

(** What the object behind [r] has left; nothing for a reference that is not
    registered. *)
Definition remaining_of (s : Orderbook) (r : Z) : Z :=
  match orders s !! r with
  | Some o => Order.remaining_quantity o
  | None => 0
  end.

(** The contribution of one order to the depth of side [sd] at price [p]. *)
Definition remaining_on (sd : Side) (p : Z) (o : Order.t) : Z :=
  if decide (Order.side o = sd) then remaining_at p o else 0.

(** The report [get_order_infos] makes of one level. *)
Definition info_of (s : Orderbook) (item : Z * list Z) : LevelInfo.t :=
  LevelInfo.mk item.1 (total (remaining_of s) item.2).

(** ** A book with a day order *)

(** A GoodForDay ask and a GoodTillCancel bid below it. *)
Module DayOrders.
Definition sell1 := Order.new GOOD_FOR_DAY 1 SELL 100 5.
Definition buy2 := Order.new GOOD_TILL_CANCEL 2 BUY 99 5.

Definition book1 : Orderbook :=
  mkBook {[100 := mkLevel 5 1]} ∅ {[100 := [1]]} {[1 := sell1]} false.
Definition book2 : Orderbook :=
  mkBook {[99 := mkLevel 5 1; 100 := mkLevel 5 1]} {[99 := [2]]}
         {[100 := [1]]} {[1 := sell1; 2 := buy2]} false.
End DayOrders.

(** A trade whose bid pays at least what its ask wants, for a quantity that
    is not negative. *)
Definition bid_covers_ask (t : Trade.t) : Prop :=
  TradeInfo.price (Trade.ask_trade t) <= TradeInfo.price (Trade.bid_trade t) /\
  0 <= TradeInfo.quantity (Trade.bid_trade t).

(** The two prices of an inner-loop position are in matching order. *)
Definition pos_crossed (pos : loop_pos) : Prop :=
  match pos with
  | AtOuter => True
  | AtInner best_bid_price best_ask_price => best_ask_price <= best_bid_price
  end.
(** * Properties *)

(** ** Fuel *)

Lemma match_loop_more_fuel fuel :
  forall pos trades s r,
    match_loop fuel pos trades s = r -> r <> OutOfFuel ->
    forall k, match_loop (fuel + k) pos trades s = r.
Proof.
  induction fuel as [|fuel IH]; intros pos trades s r Hr Hne k.
  - simpl in Hr. congruence.
  - simpl in *. destruct pos; unfold bind, get in *; simpl in *.
    + repeat case_match; subst; try congruence; eauto.
    + repeat case_match; subst; try congruence; eauto.
Qed.

Lemma add_order_more_fuel fuel order s r :
  add_order fuel order s = r -> r <> OutOfFuel ->
  forall k, add_order (fuel + k) order s = r.
Proof.
  intros Hr Hne k. unfold add_order, with_lock in *.
  destruct (lock s); [exact Hr|].
  unfold bind, get, _match_orders in *.
  destruct (orders (set_lock true s) !! Order.order_id order); [exact Hr|].
  destruct (convert_market order (set_lock true s)) as [[o'|] s1| | |]; try exact Hr.
  destruct (_ && negb (_can_match _ _ _)); [exact Hr|].
  destruct (_ && negb (_can_fully_fill _ _ _ _)); [exact Hr|].
  unfold update in *.
  destruct (match_loop fuel AtOuter [] _) as [a s2| | |] eqn:E.
  all: rewrite (match_loop_more_fuel fuel _ _ _ _ E) by congruence;
    exact Hr || congruence.
Qed.

Lemma modify_order_more_fuel fuel m s r :
  modify_order fuel m s = r -> r <> OutOfFuel ->
  forall k, modify_order (fuel + k) m s = r.
Proof.
  intros Hr Hne k. unfold modify_order, with_lock in *.
  destruct (lock s); [exact Hr|].
  unfold bind, get in *.
  destruct (orders (set_lock true s) !! OrderModify.order_id m); [|exact Hr].
  destruct (cancel_order _ _) as [[] s1| | |]; try exact Hr.
  destruct (add_order fuel _ s1) as [a s2| | |] eqn:E.
  all: rewrite (add_order_more_fuel fuel _ s1 _ E) by congruence; exact Hr || congruence.
Qed.

(** ** Python built-ins *)

Lemma elem_of_keys {V} (m : gmap Z V) k : k ∈ keys m <-> is_Some (m !! k).
Proof.
  unfold keys. rewrite list_elem_of_fmap. split.
  - intros [[k' v] [-> H]]. apply elem_of_map_to_list in H. eauto.
  - intros [v H]. exists (k, v). split; [done|]. by apply elem_of_map_to_list.
Qed.

Lemma keys_nil {V} (m : gmap Z V) : keys m = [] <-> m = ∅.
Proof.
  unfold keys. split.
  - intros H. apply fmap_nil_inv in H. by apply map_to_list_empty_iff.
  - intros ->. by rewrite map_to_list_empty.
Qed.

Lemma truthy_true {V} (m : gmap Z V) : truthy m = true <-> m <> ∅.
Proof.
  unfold truthy. rewrite <- keys_nil. destruct (keys m); split; congruence.
Qed.

Lemma truthy_false {V} (m : gmap Z V) : truthy m = false <-> m = ∅.
Proof.
  unfold truthy. rewrite <- keys_nil. destruct (keys m); split; congruence.
Qed.

Lemma foldr_max_spec x l :
  foldr Z.max x l ∈ x :: l /\ forall y, y ∈ x :: l -> y <= foldr Z.max x l.
Proof.
  induction l as [|a l [IH1 IH2]]; simpl.
  - split; [left|]. intros y Hy. apply list_elem_of_singleton in Hy. lia.
  - split.
    + destruct (Z.max_spec a (foldr Z.max x l)) as [[_ ->]|[_ ->]].
      * apply elem_of_cons in IH1 as [->|H]; [left|do 2 right; done].
      * right; left.
    + intros y Hy. apply elem_of_cons in Hy as [->|Hy].
      * specialize (IH2 x (list_elem_of_here _ _)). lia.
      * apply elem_of_cons in Hy as [->|Hy]; [lia|].
        specialize (IH2 y (list_elem_of_further _ _ _ Hy)). lia.
Qed.

Lemma foldr_min_spec x l :
  foldr Z.min x l ∈ x :: l /\ forall y, y ∈ x :: l -> foldr Z.min x l <= y.
Proof.
  induction l as [|a l [IH1 IH2]]; simpl.
  - split; [left|]. intros y Hy. apply list_elem_of_singleton in Hy. lia.
  - split.
    + destruct (Z.min_spec a (foldr Z.min x l)) as [[_ ->]|[_ ->]].
      * right; left.
      * apply elem_of_cons in IH1 as [->|H]; [left|do 2 right; done].
    + intros y Hy. apply elem_of_cons in Hy as [->|Hy].
      * specialize (IH2 x (list_elem_of_here _ _)). lia.
      * apply elem_of_cons in Hy as [->|Hy]; [lia|].
        specialize (IH2 y (list_elem_of_further _ _ _ Hy)). lia.
Qed.

Lemma py_max_Some l w :
  py_max l = Some w -> w ∈ l /\ forall y, y ∈ l -> y <= w.
Proof.
  destruct l as [|x l]; simpl; [discriminate|].
  intros [= <-]. apply foldr_max_spec.
Qed.

Lemma py_min_Some l w :
  py_min l = Some w -> w ∈ l /\ forall y, y ∈ l -> w <= y.
Proof.
  destruct l as [|x l]; simpl; [discriminate|].
  intros [= <-]. apply foldr_min_spec.
Qed.

Lemma py_max_keys {V} (m : gmap Z V) :
  m <> ∅ -> exists w, py_max (keys m) = Some w.
Proof.
  rewrite <- keys_nil. destruct (keys m); [done|]. simpl. eauto.
Qed.

Lemma py_min_keys {V} (m : gmap Z V) :
  m <> ∅ -> exists w, py_min (keys m) = Some w.
Proof.
  rewrite <- keys_nil. destruct (keys m); [done|]. simpl. eauto.
Qed.

Lemma release_acquire s : lock s = false -> set_lock false (set_lock true s) = s.
Proof. destruct s; simpl; by intros ->. Qed.

(** ** Market orders *)

(** What the code does with a Market order, in terms of the keys of the
    opposite side map: with no key there, [add_order] returns the empty trade
    list and leaves the book as it was; otherwise (the identifier being new)
    the order is rewritten to GoodTillCancel at the worst key, and it is this
    rewritten order that is inserted and matched. *)
Lemma market_order_conversion_by_keys (fuel : nat) (s : Orderbook) (o : Order.t) :
  lock s = false ->
  Order.order_type o = MARKET ->
  (orders_dict (opposite (Order.side o)) s = ∅ ->
     add_order fuel o s = Ok [] s) /\
  (orders_dict (opposite (Order.side o)) s <> ∅ ->
   orders s !! Order.order_id o = None ->
     exists w,
       worst_key (opposite (Order.side o)) s w /\
       add_order fuel o s =
         with_lock (update (insert_order (as_good_till_cancel o w)) ;;;
                    _match_orders fuel) s).
Proof.
  intros Hlock Hty. split.
  - intros Hempty. unfold add_order, with_lock. rewrite Hlock.
    unfold bind, get, convert_market. simpl.
    destruct (orders s !! Order.order_id o);
      [simpl; by rewrite release_acquire|].
    unfold bind, get. simpl. rewrite Hty. simpl.
    apply truthy_false in Hempty.
    destruct (Order.side o); simpl in *; rewrite Hempty; simpl;
      by rewrite release_acquire.
  - intros Hne Hnew.
    assert (exists w, worst_key (opposite (Order.side o)) s w /\
              convert_market o (set_lock true s) =
                Ok (Some (as_good_till_cancel o w)) (set_lock true s))
      as (w & Hw & Hconv).
    { unfold convert_market, bind, get. rewrite Hty. simpl.
      destruct (Order.side o) eqn:Hsd; simpl in *.
      - apply truthy_true in Hne as Ht. rewrite Ht. simpl.
        destruct (py_max_keys _ Hne) as [w Hw]. rewrite Hw. simpl.
        exists w. split.
        + apply py_max_Some in Hw as [H1 H2]. split.
          * by apply elem_of_keys.
          * intros p Hp. apply H2. by apply elem_of_keys.
        + unfold Order.to_good_till_cancel. rewrite Hty. simpl.
          unfold as_good_till_cancel. by rewrite Hsd.
      - apply truthy_true in Hne as Ht. rewrite Ht. simpl.
        destruct (py_min_keys _ Hne) as [w Hw]. rewrite Hw. simpl.
        exists w. split.
        + apply py_min_Some in Hw as [H1 H2]. split.
          * by apply elem_of_keys.
          * intros p Hp. apply H2. by apply elem_of_keys.
        + unfold Order.to_good_till_cancel. rewrite Hty. simpl.
          unfold as_good_till_cancel. by rewrite Hsd. }
    exists w. split; [exact Hw|].
    unfold add_order, with_lock. rewrite Hlock.
    unfold bind at 1. unfold get at 1.
    change (orders (set_lock true s)) with (orders s). rewrite Hnew.
    unfold bind at 1. rewrite Hconv. reflexivity.
Qed.

(** ** Reading a run backwards *)

Lemma bind_inv {A B} (c : M A) (k : A -> M B) s b s2 :
  bind c k s = Ok b s2 -> exists a s1, c s = Ok a s1 /\ k a s1 = Ok b s2.
Proof. unfold bind. destruct (c s); try discriminate. eauto. Qed.

Lemma ret_inv {A} (a b : A) s s' : ret a s = Ok b s' -> b = a /\ s' = s.
Proof. unfold ret. by intros [= -> ->]. Qed.

Lemma get_inv s a s' : get s = Ok a s' -> a = s /\ s' = s.
Proof. unfold get. by intros [= -> ->]. Qed.

Lemma update_inv f s a s' : update f s = Ok a s' -> s' = f s.
Proof. unfold update. by intros [= _ ->]. Qed.

Lemma from_option_inv {A} e (o : option A) s a s' :
  from_option e o s = Ok a s' -> o = Some a /\ s' = s.
Proof. destruct o; simpl; [|discriminate]. unfold ret. by intros [= -> ->]. Qed.

Lemma lift_inv {A} (r : exn + A) s a s' :
  lift r s = Ok a s' -> r = inr a /\ s' = s.
Proof. destruct r; simpl; [discriminate|]. unfold ret. by intros [= -> ->]. Qed.

Lemma with_lock_inv {A} (c : M A) s a s' :
  with_lock c s = Ok a s' ->
  lock s = false /\ exists s1, c (set_lock true s) = Ok a s1 /\ s' = set_lock false s1.
Proof.
  unfold with_lock. destruct (lock s); [discriminate|].
  destruct (c _); try discriminate. intros [= -> <-]. eauto.
Qed.

Lemma with_lock_held {A} (c : M A) s : lock s = true -> with_lock c s = Deadlock.
Proof. unfold with_lock. by intros ->. Qed.

Lemma fill_inv o q o' :
  Order.fill o q = inr o' ->
  q <= Order.remaining_quantity o /\
  o' = Order.mk (Order.order_type o) (Order.order_id o) (Order.side o)
         (Order.price o) (Order.initial_quantity o)
         (Order.remaining_quantity o - q).
Proof.
  unfold Order.fill. destruct (Z.gtb_spec q (Order.remaining_quantity o));
    [discriminate|]. intros [= <-]. split; [lia|done].
Qed.

Lemma fill_same_identity o q o' : Order.fill o q = inr o' -> same_identity o o'.
Proof. intros [_ ->]%fill_inv. by repeat split. Qed.

Lemma same_identity_refl o : same_identity o o.
Proof. by repeat split. Qed.

Lemma same_identity_trans o1 o2 o3 :
  same_identity o1 o2 -> same_identity o2 o3 -> same_identity o1 o3.
Proof. unfold same_identity. intuition congruence. Qed.

Lemma deref_inv r s o s' :
  deref r s = Ok o s' -> s' = s /\ orders s !! r = Some o.
Proof.
  unfold deref, bind, get, from_option, ret, raise.
  destruct (orders s !! r); [|discriminate]. by intros [= -> ->].
Qed.

Lemma fill_at_inv r q s u s' :
  fill_at r q s = Ok u s' ->
  exists o o', orders s !! r = Some o /\ Order.fill o q = inr o' /\
               s' = set_orders (<[r := o']> (orders s)) s.
Proof.
  unfold fill_at, deref, bind, get, from_option, lift, ret, raise, update.
  destruct (orders s !! r) as [o|]; [|discriminate].
  destruct (Order.fill o q) as [|o'] eqn:E; [discriminate|].
  intros [= _ <-]. eauto.
Qed.

Lemma pop_head_inv sd p s u s' :
  pop_head sd p s = Ok u s' ->
  exists r l, orders_dict sd s !! p = Some (r :: l) /\
              s' = set_orders_dict sd (<[p := l]> (orders_dict sd s)) s.
Proof.
  unfold pop_head, bind, get, from_option, ret, raise, update.
  destruct (orders_dict sd s !! p) as [[|r l]|]; try discriminate.
  intros [= _ <-]. eauto.
Qed.

Lemma del_order_inv id s u s' :
  del_order id s = Ok u s' ->
  is_Some (orders s !! id) /\ s' = set_orders (delete id (orders s)) s.
Proof.
  unfold del_order, bind, get, ret, raise, update.
  destruct (orders s !! id) eqn:E; [|discriminate].
  intros [= _ <-]. eauto.
Qed.

Lemma list_remove_Some x l l' :
  list_remove x l = Some l' ->
  exists l1 l2, l = l1 ++ x :: l2 /\ (x ∉ l1) /\ l' = l1 ++ l2.
Proof.
  revert l'. induction l as [|y l IH]; intros l'; simpl; [discriminate|].
  destruct (decide (x = y)) as [->|Hne].
  - intros [= <-]. exists [], l. split; [done|]. split; [|done].
    apply not_elem_of_nil.
  - destruct (list_remove x l) as [r|]; [|discriminate]. simpl.
    intros [= <-]. destruct (IH r eq_refl) as (l1 & l2 & -> & Hn & ->).
    exists (y :: l1), l2. split; [done|]. split; [|done].
    rewrite not_elem_of_cons. done.
Qed.

Lemma list_remove_elem x l :
  x ∈ l -> exists l', list_remove x l = Some l'.
Proof.
  induction l as [|y l IH]; [by intros ?%elem_of_nil|].
  simpl. destruct (decide (x = y)); [eauto|].
  intros [?|H]%elem_of_cons; [done|].
  destruct (IH H) as [l' ->]. simpl. eauto.
Qed.

Lemma cancel_order_inv id s u s' :
  cancel_order id s = Ok u s' ->
  lock s = false /\
  ((orders s !! id = None /\ s' = s) \/
   exists o q rest,
     orders s !! id = Some o /\
     orders_dict (Order.side o) s !! Order.price o = Some q /\
     list_remove id q = Some rest /\
     s' = remove_resident id o rest s).
Proof.
  intros H. apply with_lock_inv in H as (Hl & s1 & H & ->).
  split; [done|].
  unfold bind, get in H.
  change (orders (set_lock true s)) with (orders s) in H.
  destruct (orders s !! id) as [o|] eqn:Ho.
  - right. unfold update, from_option in H. simpl in H.
    replace (orders_dict (Order.side o) (set_lock true s))
      with (orders_dict (Order.side o) s) in H by (by destruct (Order.side o)).
    destruct (orders_dict (Order.side o) s !! Order.price o) as [q|] eqn:Hq;
      [|discriminate].
    simpl in H. destruct (list_remove id q) as [rest|] eqn:Hr; [|discriminate].
    simpl in H. injection H as <-.
    exists o, q, rest. repeat split; try done. unfold remove_resident.
    destruct s, (Order.side o); simpl in *; subst; reflexivity.
  - left. apply ret_inv in H as [_ ->]. split; [done|].
    by apply release_acquire.
Qed.

Lemma cancel_order_Ok id s o q rest :
  lock s = false ->
  orders s !! id = Some o ->
  orders_dict (Order.side o) s !! Order.price o = Some q ->
  list_remove id q = Some rest ->
  cancel_order id s = Ok tt (remove_resident id o rest s).
Proof.
  intros Hl Ho Hq Hr. unfold cancel_order, with_lock. rewrite Hl.
  unfold bind, get. change (orders (set_lock true s)) with (orders s).
  rewrite Ho. unfold update, from_option. simpl.
  replace (orders_dict (Order.side o) (set_lock true s))
    with (orders_dict (Order.side o) s) by (by destruct (Order.side o)).
  rewrite Hq. simpl. rewrite Hr. simpl. f_equal. unfold remove_resident.
  destruct s, (Order.side o); simpl in *; subst; reflexivity.
Qed.

Lemma cancel_order_absent id s :
  lock s = false -> orders s !! id = None -> cancel_order id s = Ok tt s.
Proof.
  intros Hl Ho. unfold cancel_order, with_lock. rewrite Hl.
  unfold bind, get. change (orders (set_lock true s)) with (orders s).
  rewrite Ho. simpl. by rewrite release_acquire.
Qed.

(** ** Filling and removing only *)

Lemma descends_refl s : descends s s.
Proof.
  split.
  - intros r o H. exists o. split; [done|apply same_identity_refl].
  - intros sd p q r H Hr. eauto.
Qed.

Lemma descends_trans s1 s2 s3 :
  descends s1 s2 -> descends s2 s3 -> descends s1 s3.
Proof.
  intros [A1 B1] [A2 B2]. split.
  - intros r o H. destruct (A2 _ _ H) as (o2 & H2 & I2).
    destruct (A1 _ _ H2) as (o1 & H1 & I1).
    exists o1. split; [done|]. by eapply same_identity_trans.
  - intros sd p q r H Hr. destruct (B2 _ _ _ _ H Hr) as (q2 & H2 & Hr2).
    eauto.
Qed.

Lemma orders_dict_set_lock sd b s : orders_dict sd (set_lock b s) = orders_dict sd s.
Proof. by destruct sd. Qed.

Lemma orders_dict_set_orders sd o s : orders_dict sd (set_orders o s) = orders_dict sd s.
Proof. by destruct sd. Qed.

Lemma orders_dict_set_same sd m s : orders_dict sd (set_orders_dict sd m s) = m.
Proof. by destruct sd. Qed.

Lemma orders_dict_set_other sd sd' m s :
  sd <> sd' -> orders_dict sd' (set_orders_dict sd m s) = orders_dict sd' s.
Proof. by destruct sd, sd'. Qed.

Lemma orders_set_orders_dict sd m s : orders (set_orders_dict sd m s) = orders s.
Proof. by destruct sd. Qed.

Lemma orders_dict_update_level sd p q a m s :
  orders_dict sd (_update_level_data p q a m s) = orders_dict sd s.
Proof. by destruct sd. Qed.

Lemma descends_same_book s s' :
  orders s' = orders s -> bids s' = bids s -> asks s' = asks s -> descends s s'.
Proof.
  intros Ho Hb Ha. split.
  - intros r o. rewrite Ho. intros H. exists o.
    split; [done|apply same_identity_refl].
  - intros [] p q r; simpl; rewrite ?Hb, ?Ha; eauto.
Qed.

Lemma descends_update_level p q a m s : descends s (_update_level_data p q a m s).
Proof. by apply descends_same_book. Qed.

Lemma descends_fill r o o' s :
  orders s !! r = Some o -> same_identity o o' ->
  descends s (set_orders (<[r := o']> (orders s)) s).
Proof.
  intros Ho Hi. split.
  - intros r' o1. simpl. destruct (decide (r = r')) as [<-|Hne].
    + rewrite lookup_insert_eq. intros [= <-]. eauto.
    + rewrite lookup_insert_ne by done. intros H. exists o1.
      split; [done|apply same_identity_refl].
  - intros sd p q r'. rewrite orders_dict_set_orders. eauto.
Qed.

Lemma descends_delete_order id s :
  descends s (set_orders (delete id (orders s)) s).
Proof.
  split.
  - intros r o. simpl. intros H. apply lookup_delete_Some in H as [_ H].
    exists o. split; [done|apply same_identity_refl].
  - intros sd p q r. rewrite orders_dict_set_orders. eauto.
Qed.

Lemma descends_shrink_queue sd p q l s :
  orders_dict sd s !! p = Some q -> l ⊆ q ->
  descends s (set_orders_dict sd (<[p := l]> (orders_dict sd s)) s).
Proof.
  intros Hq Hl. split.
  - intros r o. rewrite orders_set_orders_dict. intros H. exists o.
    split; [done|apply same_identity_refl].
  - intros sd' p' q' r. destruct (decide (sd = sd')) as [<-|Hne].
    + rewrite orders_dict_set_same. destruct (decide (p = p')) as [<-|Hp].
      * rewrite lookup_insert_eq. intros [= <-] Hr. eauto.
      * rewrite lookup_insert_ne by done. eauto.
    + rewrite orders_dict_set_other by done. eauto.
Qed.

Lemma descends_delete_level sd p s :
  descends s (set_orders_dict sd (delete p (orders_dict sd s)) s).
Proof.
  split.
  - intros r o. rewrite orders_set_orders_dict. intros H. exists o.
    split; [done|apply same_identity_refl].
  - intros sd' p' q' r. destruct (decide (sd = sd')) as [<-|Hne].
    + rewrite orders_dict_set_same. intros [_ H]%lookup_delete_Some. eauto.
    + rewrite orders_dict_set_other by done. eauto.
Qed.

Lemma descends_remove_resident id o q rest s :
  orders_dict (Order.side o) s !! Order.price o = Some q ->
  list_remove id q = Some rest ->
  descends s (remove_resident id o rest s).
Proof.
  intros Hq Hr. unfold remove_resident.
  eapply descends_trans; [|apply descends_update_level].
  eapply descends_trans; [apply (descends_delete_order id)|].
  set (s1 := set_orders (delete id (orders s)) s).
  replace (orders_dict (Order.side o) s)
    with (orders_dict (Order.side o) s1) in * by apply orders_dict_set_orders.
  destruct rest as [|x rest].
  - apply descends_delete_level.
  - eapply descends_shrink_queue; [exact Hq|].
    apply list_remove_Some in Hr as (l1 & l2 & -> & _ & ->).
    intros y. rewrite !elem_of_app, elem_of_cons. tauto.
Qed.

Lemma steps_down_bind {A B} (c : M A) (k : A -> M B) :
  steps_down c -> (forall a, steps_down (k a)) -> steps_down (bind c k).
Proof.
  intros Hc Hk s b s2 H. apply bind_inv in H as (a & s1 & H1 & H2).
  eapply descends_trans; [by eapply Hc|by eapply Hk].
Qed.

Lemma steps_down_ret {A} (a : A) : steps_down (ret a).
Proof. intros s b s' [_ ->]%ret_inv. apply descends_refl. Qed.

Lemma steps_down_raise {A} e : steps_down (@raise A e).
Proof. intros s b s' H. discriminate. Qed.

Lemma steps_down_get : steps_down get.
Proof. intros s b s' [_ ->]%get_inv. apply descends_refl. Qed.

Lemma steps_down_from_option {A} e (o : option A) : steps_down (from_option e o).
Proof. intros s b s' [_ ->]%from_option_inv. apply descends_refl. Qed.

Lemma steps_down_lift {A} (r : exn + A) : steps_down (lift r).
Proof. intros s b s' [_ ->]%lift_inv. apply descends_refl. Qed.

Lemma steps_down_update f : (forall s, descends s (f s)) -> steps_down (update f).
Proof. intros Hf s b s' ->%update_inv. apply Hf. Qed.

Lemma steps_down_when b c : steps_down c -> steps_down (when b c).
Proof. destruct b; simpl; [done|]. intros _. apply steps_down_ret. Qed.

Lemma steps_down_deref r : steps_down (deref r).
Proof. intros s b s' [-> _]%deref_inv. apply descends_refl. Qed.

Lemma steps_down_fill_at r q : steps_down (fill_at r q).
Proof.
  intros s b s' (o & o' & Ho & Hf & ->)%fill_at_inv.
  eapply descends_fill; [done|by eapply fill_same_identity].
Qed.

Lemma steps_down_pop_head sd p : steps_down (pop_head sd p).
Proof.
  intros s b s' (r & l & Hq & ->)%pop_head_inv.
  eapply descends_shrink_queue; [done|].
  intros y Hy. by right.
Qed.

Lemma steps_down_del_order id : steps_down (del_order id).
Proof. intros s b s' [_ ->]%del_order_inv. apply descends_delete_order. Qed.

Lemma steps_down_cancel_order id : steps_down (cancel_order id).
Proof.
  intros s b s' [_ [[_ ->]|(o & q & rest & _ & Hq & Hr & ->)]]%cancel_order_inv.
  - apply descends_refl.
  - by eapply descends_remove_resident.
Qed.

Create HintDb steps.

#[local] Hint Resolve steps_down_ret steps_down_raise steps_down_get
  steps_down_from_option steps_down_lift steps_down_when steps_down_deref
  steps_down_fill_at steps_down_pop_head steps_down_del_order
  steps_down_cancel_order descends_update_level descends_delete_level
  : steps.

Ltac steps_down_tac :=
  repeat first
    [ solve [eauto with steps]
    | match goal with
      | |- steps_down (bind _ _) => apply steps_down_bind; [|intros ?]
      | |- steps_down (when _ _) => apply steps_down_when
      | |- steps_down (update _) => apply steps_down_update; intros ?
      | |- steps_down (if ?b then _ else _) => destruct b
      | |- steps_down (match ?x with _ => _ end) => destruct x
      end ].

Lemma steps_down_match_step bb ba rb ra trades :
  steps_down (match_step bb ba rb ra trades).
Proof.
  unfold match_step. steps_down_tac.
  - apply (descends_delete_level BUY).
  - apply (descends_delete_level SELL).
Qed.

(** ** The trades of the matching loop *)

Lemma yields_bind {A} tr (c : M A) k :
  (forall a, yields tr (k a)) -> yields tr (bind c k).
Proof.
  intros Hk s r s2 H. apply bind_inv in H as (a & s1 & _ & H2). by eapply Hk.
Qed.

Lemma yields_ret tr e : yields tr (ret (e, tr)).
Proof. by intros s r s' [-> _]%ret_inv. Qed.

Ltac yields_tac :=
  repeat first
    [ apply yields_ret
    | match goal with
      | |- yields _ (bind _ _) => apply yields_bind; intros ?
      | |- yields _ (if ?b then _ else _) => destruct b
      | |- yields _ (match ?x with _ => _ end) => destruct x
      end ].

Lemma match_step_trade bb ba rb ra trades s ex trades' s' :
  match_step bb ba rb ra trades s = Ok (ex, trades') s' ->
  exists bid0 ask0 bid ask q,
    orders s !! rb = Some bid0 /\ same_identity bid0 bid /\
    orders s !! ra = Some ask0 /\ same_identity ask0 ask /\
    trades' = trades ++
      [Trade.mk (TradeInfo.mk (Order.order_id bid) (Order.price bid) q)
                (TradeInfo.mk (Order.order_id ask) (Order.price ask) q)].
Proof.
  unfold match_step. intros H.
  apply bind_inv in H as (bid0 & s1 & H1 & H).
  apply deref_inv in H1 as [-> Hb0].
  apply bind_inv in H as (ask0 & s1 & H1 & H).
  apply deref_inv in H1 as [-> Ha0].
  apply bind_inv in H as ([] & s1 & H1 & H).
  apply steps_down_fill_at in H1 as D1.
  apply bind_inv in H as ([] & s2 & H2 & H).
  apply steps_down_fill_at in H2 as D2.
  pose proof (descends_trans _ _ _ D1 D2) as [D _].
  apply bind_inv in H as (bid & s3 & H3 & H).
  apply deref_inv in H3 as [-> Hb].
  apply bind_inv in H as (ask & s3 & H3 & H).
  apply deref_inv in H3 as [-> Ha].
  destruct (D _ _ Hb) as (bid0' & Hb0' & Ib).
  destruct (D _ _ Ha) as (ask0' & Ha0' & Ia).
  exists bid0', ask0', bid, ask.
  eexists. split; [done|]. split; [done|]. split; [done|]. split; [done|].
  revert H. match goal with |- ?c s2 = _ -> _ => assert (Y : yields
    (trades ++
      [Trade.mk
         (TradeInfo.mk (Order.order_id bid) (Order.price bid)
            (Z.min (Order.remaining_quantity bid0) (Order.remaining_quantity ask0)))
         (TradeInfo.mk (Order.order_id ask) (Order.price ask)
            (Z.min (Order.remaining_quantity bid0) (Order.remaining_quantity ask0)))]) c)
    by yields_tac end.
  intros H. apply Y in H. simpl in H. exact H.
Qed.

Lemma own_price_trade_descends s0 s t :
  descends s0 s -> own_price_trade s t -> own_price_trade s0 t.
Proof.
  intros [D1 D2] (rb & ra & bid & ask & q & Qb & Qa & Hb & Ha & ->).
  destruct Qb as (pb & qb & Hqb & Hrb). destruct Qa as (pa & qa & Hqa & Hra).
  destruct (D2 _ _ _ _ Hqb Hrb) as (qb0 & Hqb0 & Hrb0).
  destruct (D2 _ _ _ _ Hqa Hra) as (qa0 & Hqa0 & Hra0).
  destruct (D1 _ _ Hb) as (bid0 & Hb0 & _ & Ib & _ & Pb & _).
  destruct (D1 _ _ Ha) as (ask0 & Ha0 & _ & Ia & _ & Pa & _).
  exists rb, ra, bid0, ask0, q.
  split; [by exists pb, qb0|]. split; [by exists pa, qa0|].
  split; [done|]. split; [done|]. by rewrite Ib, Pb, Ia, Pa.
Qed.

Lemma match_loop_trades fuel :
  forall pos trades0 s trades s',
    match_loop fuel pos trades0 s = Ok trades s' ->
    descends s s' /\
    exists new, trades = trades0 ++ new /\ Forall (own_price_trade s) new.
Proof.
  induction fuel as [|fuel IH]; intros pos trades0 s trades s' H;
    [discriminate|].
  simpl in H. destruct pos as [|bb ba].
  - apply bind_inv in H as (s1 & s2 & [-> ->]%get_inv & H).
    destruct (truthy (bids s) && truthy (asks s)).
    + apply bind_inv in H as (bb & s2 & [_ ->]%from_option_inv & H).
      apply bind_inv in H as (ba & s2 & [_ ->]%from_option_inv & H).
      destruct (bb <? ba).
      * apply ret_inv in H as [-> ->]. split; [apply descends_refl|].
        exists []. by rewrite app_nil_r.
      * by apply IH in H.
    + apply ret_inv in H as [-> ->]. split; [apply descends_refl|].
      exists []. by rewrite app_nil_r.
  - apply bind_inv in H as (s1 & s2 & [-> ->]%get_inv & H).
    apply bind_inv in H as (qb & s2 & [Hqb ->]%from_option_inv & H).
    destruct qb as [|rb lb]; [by apply IH in H|].
    apply bind_inv in H as (qa & s2 & [Hqa ->]%from_option_inv & H).
    destruct qa as [|ra la]; [by apply IH in H|].
    apply bind_inv in H as ([ex trades1] & s2 & Hstep & H).
    pose proof (steps_down_match_step _ _ _ _ _ _ _ _ Hstep) as D.
    apply match_step_trade in Hstep
      as (bid0 & ask0 & bid & ask & q & Hb & Ib & Ha & Ia & ->).
    assert (own_price_trade s
      (Trade.mk (TradeInfo.mk (Order.order_id bid) (Order.price bid) q)
                (TradeInfo.mk (Order.order_id ask) (Order.price ask) q))) as Hown.
    { exists rb, ra, bid0, ask0, q.
      split; [exists bb, (rb :: lb); split; [done|left]|].
      split; [exists ba, (ra :: la); split; [done|left]|].
      split; [done|]. split; [done|].
      destruct Ib as (_ & -> & _ & -> & _). by destruct Ia as (_ & -> & _ & -> & _). }
    assert (forall s3, descends s2 s3 ->
      (exists new, trades = (trades0 ++ [Trade.mk
         (TradeInfo.mk (Order.order_id bid) (Order.price bid) q)
         (TradeInfo.mk (Order.order_id ask) (Order.price ask) q)]) ++ new /\
         Forall (own_price_trade s2) new) ->
      descends s s3 /\
      exists new, trades = trades0 ++ new /\ Forall (own_price_trade s) new)
      as Hfin.
    { intros s3 D3 (new & -> & Hnew). split; [by eapply descends_trans|].
      eexists. rewrite <- app_assoc. split; [done|]. simpl.
      constructor; [done|]. eapply Forall_impl; [exact Hnew|].
      intros t. by apply own_price_trade_descends. }
    destruct ex.
    + apply ret_inv in H as [-> ->]. apply Hfin; [apply descends_refl|].
      exists []. by rewrite app_nil_r.
    + apply IH in H as [D3 Hn]. by apply (Hfin s').
    + apply IH in H as [D3 Hn]. by apply (Hfin s').
Qed.

(** ** The registry and the queues agree *)

Lemma book_ok_same_book s s' :
  orders s' = orders s -> bids s' = bids s -> asks s' = asks s ->
  book_ok s -> book_ok s'.
Proof.
  intros Ho Hb Ha [K R Q N].
  assert (forall sd, orders_dict sd s' = orders_dict sd s) as Hd
    by (intros []; simpl; congruence).
  split.
  - intros r o. rewrite Ho. apply K.
  - intros r o. rewrite Ho, Hd. apply R.
  - intros sd p q r. rewrite Ho, Hd. apply Q.
  - intros sd p q. rewrite Hd. apply N.
Qed.

Lemma book_ok_set_lock b s : book_ok s -> book_ok (set_lock b s).
Proof. by apply book_ok_same_book. Qed.

Lemma book_ok_update_level p q a m s :
  book_ok s -> book_ok (_update_level_data p q a m s).
Proof. by apply book_ok_same_book. Qed.

Lemma book_ok_empty : book_ok empty_book.
Proof.
  split.
  - intros r o H. simpl in H. by rewrite lookup_empty in H.
  - intros r o H. simpl in H. by rewrite lookup_empty in H.
  - intros [] p q r H; simpl in H; by rewrite lookup_empty in H.
  - intros [] p q H; simpl in H; by rewrite lookup_empty in H.
Qed.

Lemma book_ok_fill r o o' s :
  book_ok s -> orders s !! r = Some o -> same_identity o o' ->
  book_ok (set_orders (<[r := o']> (orders s)) s).
Proof.
  intros [K R Q N] Ho (_ & Hid & Hsd & Hp & _). split.
  - intros r' o1. simpl. destruct (decide (r = r')) as [<-|Hne].
    + rewrite lookup_insert_eq. intros [= <-]. rewrite <- Hid. by apply K.
    + rewrite lookup_insert_ne by done. apply K.
  - intros r' o1. simpl. rewrite orders_dict_set_orders.
    destruct (decide (r = r')) as [<-|Hne].
    + rewrite lookup_insert_eq. intros [= <-]. rewrite <- Hsd, <- Hp. by apply R.
    + rewrite lookup_insert_ne by done. apply R.
  - intros sd p q r'. rewrite orders_dict_set_orders. intros Hq Hr.
    destruct (Q _ _ _ _ Hq Hr) as (o1 & Ho1 & S1 & P1). simpl.
    destruct (decide (r = r')) as [<-|Hne].
    + rewrite lookup_insert_eq. exists o'. split; [done|].
      assert (o1 = o) as -> by congruence. split; congruence.
    + rewrite lookup_insert_ne by done. eauto.
  - intros sd p q. rewrite orders_dict_set_orders. apply N.
Qed.

(** Taking the object [r] out of its queue and out of the registry. *)
Lemma book_ok_take_out sd p l1 l2 r m' s :
  book_ok s ->
  orders_dict sd s !! p = Some (l1 ++ r :: l2) ->
  (forall p', p' <> p -> m' !! p' = orders_dict sd s !! p') ->
  (m' !! p = Some (l1 ++ l2) \/ (m' !! p = None /\ l1 ++ l2 = [])) ->
  book_ok (set_orders (delete r (orders s)) (set_orders_dict sd m' s)).
Proof.
  intros [K R Q N] Hq Hother Hp.
  pose proof (N _ _ _ Hq) as Hnd.
  apply NoDup_app in Hnd as (Hnd1 & Hnd12 & Hnd2).
  apply NoDup_cons in Hnd2 as [Hr2 Hnd2].
  assert (r ∉ l1) as Hr1.
  { intros Hin. apply (Hnd12 _ Hin). left. }
  assert (forall x, x ∈ l1 ++ l2 -> x ∈ l1 ++ r :: l2 /\ x <> r) as Hsub.
  { intros x Hx. apply elem_of_app in Hx as [Hx|Hx].
    - split; [apply elem_of_app; by left|]. by intros ->.
    - split; [apply elem_of_app; right; by right|]. by intros ->. }
  assert (forall sd' p' q', orders_dict sd' (set_orders_dict sd m' s) !! p' = Some q' ->
            exists q0, orders_dict sd' s !! p' = Some q0 /\
                       (forall x, x ∈ q' -> x ∈ q0 /\
                          (sd' = sd -> p' = p -> x <> r)) /\
                       (NoDup q0 -> NoDup q') /\
                       (forall x, x ∈ q0 -> x <> r -> x ∈ q')) as Hloc.
  { intros sd' p' q'. destruct (decide (sd = sd')) as [<-|Hsd].
    - rewrite orders_dict_set_same. destruct (decide (p' = p)) as [->|Hpp].
      + destruct Hp as [Hp|[Hp _]]; rewrite Hp; [|discriminate].
        intros [= <-]. exists (l1 ++ r :: l2). split; [done|]. split.
        * intros x Hx. destruct (Hsub x Hx). done.
        * split.
          -- intros _. apply NoDup_app. split; [done|]. split; [|done].
             intros x Hx1 Hx2. apply (Hnd12 x Hx1). by right.
          -- intros x Hx Hxr. rewrite elem_of_app in *.
             rewrite elem_of_cons in Hx. tauto.
      + rewrite Hother by done. intros Hq'. exists q'. split; [done|].
        split; [|done]. intros x Hx. split; [done|]. intros _ ?. done.
    - rewrite orders_dict_set_other by done. intros Hq'. exists q'.
      split; [done|]. split; [|done]. intros x Hx. split; [done|].
      intros ?. done. }
  split.
  - intros r' o. simpl. rewrite ?orders_set_orders_dict.
    intros [_ H]%lookup_delete_Some. by apply K.
  - intros r' o. rewrite orders_dict_set_orders. simpl.
    rewrite ?orders_set_orders_dict. intros [Hne H]%lookup_delete_Some.
    destruct (R _ _ H) as (q0 & Hq0 & Hin).
    destruct (decide (Order.side o = sd)) as [Hsd|Hsd].
    + rewrite Hsd in *. rewrite orders_dict_set_same.
      destruct (decide (Order.price o = p)) as [Hpp|Hpp].
      * rewrite Hpp in *. assert (q0 = l1 ++ r :: l2) as -> by congruence.
        assert (r' ∈ l1 ++ l2) as Hin'.
        { rewrite elem_of_app in *. rewrite elem_of_cons in Hin.
          destruct Hin as [?|[?|?]]; [by left|congruence|by right]. }
        destruct Hp as [Hp|[_ Hnil]]; [eauto|].
        rewrite Hnil in Hin'. by apply elem_of_nil in Hin'.
      * rewrite Hother by done. eauto.
    + rewrite orders_dict_set_other by done. eauto.
  - intros sd' p' q' r'. rewrite orders_dict_set_orders. intros Hq' Hr'.
    destruct (Hloc _ _ _ Hq') as (q0 & Hq0 & Hin & _).
    destruct (Hin _ Hr') as [Hr0 Hne].
    destruct (Q _ _ _ _ Hq0 Hr0) as (o & Ho & S1 & P1).
    exists o. split; [|done]. simpl. rewrite ?orders_set_orders_dict.
    apply lookup_delete_Some. split; [|done].
    intros <-. destruct (Q _ _ _ _ Hq (proj2 (elem_of_app l1 (r :: l2) r)
      (or_intror (list_elem_of_here r l2)))) as (o2 & Ho2 & S2 & P2).
    assert (o2 = o) as -> by congruence. by apply Hne; congruence.
  - intros sd' p' q'. rewrite orders_dict_set_orders. intros Hq'.
    destruct (Hloc _ _ _ Hq') as (q0 & Hq0 & _ & Hnd' & _).
    apply Hnd'. by eapply N.
Qed.

Lemma set_orders_dict_set_orders sd m o s :
  set_orders_dict sd m (set_orders o s) = set_orders o (set_orders_dict sd m s).
Proof. by destruct sd. Qed.

Lemma book_ok_remove_resident id o q rest s :
  book_ok s ->
  orders s !! id = Some o ->
  orders_dict (Order.side o) s !! Order.price o = Some q ->
  list_remove id q = Some rest ->
  book_ok (remove_resident id o rest s).
Proof.
  intros Hok Ho Hq Hr. unfold remove_resident.
  apply book_ok_update_level.
  rewrite set_orders_dict_set_orders.
  apply list_remove_Some in Hr as (l1 & l2 & -> & _ & ->).
  eapply book_ok_take_out; [done|exact Hq| |].
  - intros p' Hp'. destruct (l1 ++ l2).
    + by rewrite lookup_delete_ne.
    + by rewrite lookup_insert_ne.
  - destruct (l1 ++ l2) eqn:E.
    + right. by rewrite lookup_delete_eq.
    + left. by rewrite lookup_insert_eq.
Qed.

Lemma book_ok_pop sd p r l s :
  book_ok s ->
  orders_dict sd s !! p = Some (r :: l) ->
  book_ok (set_orders (delete r (orders s))
             (set_orders_dict sd (<[p := l]> (orders_dict sd s)) s)).
Proof.
  intros Hok Hq. eapply (book_ok_take_out sd p [] l r); [done|exact Hq| |].
  - intros p' Hp'. by rewrite lookup_insert_ne.
  - left. by rewrite lookup_insert_eq.
Qed.

Lemma book_ok_delete_level sd p s :
  book_ok s ->
  orders_dict sd s !! p = Some [] ->
  book_ok (set_orders_dict sd (delete p (orders_dict sd s)) s).
Proof.
  intros [K R Q N] Hq.
  assert (forall sd' p' q', orders_dict sd'
            (set_orders_dict sd (delete p (orders_dict sd s)) s) !! p' = Some q' ->
          orders_dict sd' s !! p' = Some q') as Hloc.
  { intros sd' p' q'. destruct (decide (sd = sd')) as [<-|Hsd].
    - rewrite orders_dict_set_same. by intros [_ ?]%lookup_delete_Some.
    - by rewrite orders_dict_set_other. }
  split.
  - intros r o. rewrite orders_set_orders_dict. apply K.
  - intros r o. rewrite orders_set_orders_dict. intros Ho.
    destruct (R _ _ Ho) as (q0 & Hq0 & Hin). exists q0. split; [|done].
    destruct (decide (sd = Order.side o)) as [->|Hsd].
    + rewrite orders_dict_set_same. apply lookup_delete_Some. split; [|done].
      intros Hp. rewrite Hp, Hq0 in Hq. injection Hq as ->.
      by apply elem_of_nil in Hin.
    + by rewrite orders_dict_set_other.
  - intros sd' p' q' r Hq' Hr. rewrite orders_set_orders_dict.
    eapply Q; [by apply Hloc|done].
  - intros sd' p' q' Hq'. eapply N. by apply Hloc.
Qed.

Lemma book_ok_insert_order o s :
  book_ok s -> orders s !! Order.order_id o = None ->
  book_ok (insert_order o s).
Proof.
  intros [K R Q N] Hnew. unfold insert_order.
  apply book_ok_update_level.
  set (sd := Order.side o). set (p := Order.price o). set (id := Order.order_id o).
  set (queue := default [] (orders_dict sd s !! p)).
  rewrite orders_set_orders_dict.
  assert (forall r, r ∈ queue -> r <> id /\ exists q, orders_dict sd s !! p = Some q /\ r ∈ q)
    as Hqueue.
  { intros r Hr. unfold queue in Hr.
    destruct (orders_dict sd s !! p) as [q|] eqn:Hq; simpl in Hr;
      [|by apply elem_of_nil in Hr].
    split; [|eauto]. intros ->.
    destruct (Q _ _ _ _ Hq Hr) as (o' & Ho' & _). unfold id in Ho'. congruence. }
  assert (forall sd' p' q',
            orders_dict sd' (set_orders (<[id := o]> (orders s))
              (set_orders_dict sd (<[p := queue ++ [id]]> (orders_dict sd s)) s))
              !! p' = Some q' ->
            (sd' = sd /\ p' = p /\ q' = queue ++ [id]) \/
            ((sd' <> sd \/ p' <> p) /\ orders_dict sd' s !! p' = Some q')) as Hloc.
  { intros sd' p' q'. rewrite orders_dict_set_orders.
    destruct (decide (sd = sd')) as [<-|Hsd].
    - rewrite orders_dict_set_same. destruct (decide (p = p')) as [<-|Hp].
      + rewrite lookup_insert_eq. intros [= <-]. by left.
      + rewrite lookup_insert_ne by done. intros ?. right. split; [|done].
        right. congruence.
    - rewrite orders_dict_set_other by done. intros ?. right. split; [|done].
      left. congruence. }
  split.
  - intros r o'. simpl. destruct (decide (id = r)) as [<-|Hne].
    + rewrite lookup_insert_eq. by intros [= <-].
    + rewrite lookup_insert_ne by done. apply K.
  - intros r o'. rewrite orders_dict_set_orders. simpl.
    destruct (decide (id = r)) as [<-|Hne].
    + rewrite lookup_insert_eq. intros [= <-]. fold sd p.
      rewrite orders_dict_set_same, lookup_insert_eq.
      eexists. split; [done|]. apply elem_of_app. right. left.
    + rewrite lookup_insert_ne by done. intros Ho'.
      destruct (R _ _ Ho') as (q0 & Hq0 & Hin).
      destruct (decide (sd = Order.side o')) as [Hsd|Hsd].
      * rewrite <- Hsd in *. rewrite orders_dict_set_same.
        destruct (decide (p = Order.price o')) as [Hp|Hp].
        -- rewrite <- Hp in *. rewrite lookup_insert_eq. eexists. split; [done|].
           apply elem_of_app. left. unfold queue. by rewrite Hq0.
        -- rewrite lookup_insert_ne by done. eauto.
      * rewrite orders_dict_set_other by done. eauto.
  - intros sd' p' q' r Hq' Hr.
    destruct (Hloc _ _ _ Hq') as [(-> & -> & ->)|[_ Hq0]].
    + apply elem_of_app in Hr as [Hr|Hr].
      * destruct (Hqueue _ Hr) as (Hne & q0 & Hq0 & Hin).
        destruct (Q _ _ _ _ Hq0 Hin) as (o' & Ho' & ? & ?).
        exists o'. simpl. by rewrite lookup_insert_ne.
      * apply list_elem_of_singleton in Hr as ->. exists o. simpl.
        by rewrite lookup_insert_eq.
    + destruct (Q _ _ _ _ Hq0 Hr) as (o' & Ho' & ? & ?).
      exists o'. simpl. rewrite lookup_insert_ne; [done|].
      intros <-. unfold id in Ho'. congruence.
  - intros sd' p' q' Hq'.
    destruct (Hloc _ _ _ Hq') as [(-> & -> & ->)|[_ Hq0]]; [|by eapply N].
    apply NoDup_app. split.
    + unfold queue. destruct (orders_dict sd s !! p) eqn:Hq; simpl.
      * by eapply N.
      * constructor.
    + split; [|apply NoDup_singleton].
      intros x Hx ->%list_elem_of_singleton. by destruct (Hqueue _ Hx).
Qed.

Lemma book_ok_sides_disjoint s : book_ok s -> sides_disjoint s.
Proof.
  intros [K R Q N] r (pb & qb & Hqb & Hb) (pa & qa & Hqa & Ha).
  destruct (Q _ _ _ _ Hqb Hb) as (o1 & Ho1 & S1 & _).
  destruct (Q _ _ _ _ Hqa Ha) as (o2 & Ho2 & S2 & _).
  assert (o1 = o2) as -> by congruence. congruence.
Qed.

Lemma cancel_order_book_ok id s u s' :
  book_ok s -> cancel_order id s = Ok u s' -> book_ok s'.
Proof.
  intros Hok [_ [[_ ->]|(o & q & rest & Ho & Hq & Hr & ->)]]%cancel_order_inv;
    [done|]. by eapply book_ok_remove_resident.
Qed.

Lemma when_cancel_book_ok b id s u s' :
  book_ok s -> when b (cancel_order id) s = Ok u s' -> book_ok s'.
Proof.
  destruct b; simpl.
  - apply cancel_order_book_ok.
  - by intros Hok [_ ->]%ret_inv.
Qed.

Lemma pop_del_book_ok b sd p r l s u s' :
  book_ok s ->
  orders_dict sd s !! p = Some (r :: l) ->
  when b (pop_head sd p ;;; del_order r) s = Ok u s' ->
  book_ok s' /\ orders_dict (opposite sd) s' = orders_dict (opposite sd) s.
Proof.
  intros Hok Hq. destruct b; simpl.
  - intros H. apply bind_inv in H as ([] & s1 & H1 & H2).
    apply pop_head_inv in H1 as (r' & l' & Hq' & ->).
    apply del_order_inv in H2 as [_ ->].
    rewrite Hq in Hq'. injection Hq' as <- <-.
    rewrite orders_set_orders_dict. split.
    + by apply book_ok_pop.
    + by destruct sd.
  - by intros [_ ->]%ret_inv.
Qed.

Lemma match_step_book_ok bb ba rb lb ra la trades s r s' :
  book_ok s ->
  bids s !! bb = Some (rb :: lb) ->
  asks s !! ba = Some (ra :: la) ->
  match_step bb ba rb ra trades s = Ok r s' ->
  book_ok s'.
Proof.
  intros Hok Hqb Hqa H. unfold match_step in H.
  apply bind_inv in H as (bid0 & s0 & [-> _]%deref_inv & H).
  apply bind_inv in H as (ask0 & s0 & [-> _]%deref_inv & H).
  apply bind_inv in H as ([] & s1 & H1 & H).
  apply fill_at_inv in H1 as (o1 & o1' & Ho1 & Hf1 & ->).
  pose proof (book_ok_fill _ _ _ _ Hok Ho1 (fill_same_identity _ _ _ Hf1)) as Hok1.
  apply bind_inv in H as ([] & s2 & H2 & H).
  apply fill_at_inv in H2 as (o2 & o2' & Ho2 & Hf2 & ->).
  pose proof (book_ok_fill _ _ _ _ Hok1 Ho2 (fill_same_identity _ _ _ Hf2)) as Hok2.
  match type of Hok2 with book_ok ?x => set (s2 := x) in * end.
  assert (bids s2 = bids s) as Hb2 by reflexivity.
  assert (asks s2 = asks s) as Ha2 by reflexivity.
  clearbody s2. clear Ho1 Ho2 Hf1 Hf2 Hok1 Hok o1 o1' o2 o2'.
  apply bind_inv in H as (bid & s3 & [-> Hbid]%deref_inv & H).
  apply bind_inv in H as (ask & s3 & [-> Hask]%deref_inv & H).
  pose proof (ok_key _ Hok2 _ _ Hbid) as Kb.
  pose proof (ok_key _ Hok2 _ _ Hask) as Ka.
  apply bind_inv in H as ([] & s3 & ->%update_inv & H).
  apply bind_inv in H as ([] & s4 & ->%update_inv & H).
  match type of H with _ ?x = _ => set (s4 := x) in * end.
  assert (book_ok s4) as Hok4 by (by do 2 apply book_ok_update_level).
  assert (bids s4 = bids s) as Hb4 by (by rewrite <- Hb2).
  assert (asks s4 = asks s) as Ha4 by (by rewrite <- Ha2).
  clearbody s4. clear Hok2 Hb2 Ha2 Hbid Hask.
  rewrite Kb, Ka in H.
  destruct (_ || _).
  - apply bind_inv in H as ([] & s5 & H5 & H).
    apply when_cancel_book_ok in H5; [|done].
    apply bind_inv in H as ([] & s6 & H6 & H).
    apply when_cancel_book_ok in H6; [|done].
    by apply ret_inv in H as [_ ->].
  - apply bind_inv in H as ([] & s5 & H5 & H).
    apply (pop_del_book_ok _ BUY _ rb lb) in H5 as [Hok5 Ha5];
      [|done|by rewrite <- Hqb, <- Hb4].
    apply bind_inv in H as ([] & s6 & H6 & H).
    apply (pop_del_book_ok _ SELL _ ra la) in H6 as [Hok6 _];
      [|done|simpl in *; by rewrite Ha5, Ha4].
    apply bind_inv in H as (s7 & s8 & [-> ->]%get_inv & H).
    apply bind_inv in H as (qb & s8 & [Hq ->]%from_option_inv & H).
    destruct qb as [|x qb].
    + apply bind_inv in H as ([] & s8 & ->%update_inv & H).
      apply ret_inv in H as [_ ->]. by apply (book_ok_delete_level BUY).
    + apply bind_inv in H as (qa & s8 & [Hq' ->]%from_option_inv & H).
      destruct qa as [|y qa].
      * apply bind_inv in H as ([] & s8 & ->%update_inv & H).
        apply ret_inv in H as [_ ->]. by apply (book_ok_delete_level SELL).
      * by apply ret_inv in H as [_ ->].
Qed.

Lemma match_loop_book_ok fuel :
  forall pos trades s r s',
    book_ok s -> match_loop fuel pos trades s = Ok r s' -> book_ok s'.
Proof.
  induction fuel as [|fuel IH]; intros pos trades s r s' Hok H; [discriminate|].
  simpl in H. destruct pos as [|bb ba].
  - apply bind_inv in H as (s1 & s2 & [-> ->]%get_inv & H).
    destruct (truthy (bids s) && truthy (asks s)).
    + apply bind_inv in H as (bb & s2 & [_ ->]%from_option_inv & H).
      apply bind_inv in H as (ba & s2 & [_ ->]%from_option_inv & H).
      destruct (bb <? ba).
      * by apply ret_inv in H as [_ ->].
      * by eapply IH.
    + by apply ret_inv in H as [_ ->].
  - apply bind_inv in H as (s1 & s2 & [-> ->]%get_inv & H).
    apply bind_inv in H as (qb & s2 & [Hqb ->]%from_option_inv & H).
    destruct qb as [|rb lb]; [by eapply IH|].
    apply bind_inv in H as (qa & s2 & [Hqa ->]%from_option_inv & H).
    destruct qa as [|ra la]; [by eapply IH|].
    apply bind_inv in H as ([ex trades1] & s2 & Hstep & H).
    eapply match_step_book_ok in Hstep; [|done..].
    destruct ex.
    + by apply ret_inv in H as [_ ->].
    + by eapply IH.
    + by eapply IH.
Qed.

Lemma convert_market_inv o s c s' :
  convert_market o s = Ok c s' ->
  s' = s /\ forall o', c = Some o' -> Order.order_id o' = Order.order_id o.
Proof.
  unfold convert_market. intros H.
  apply bind_inv in H as (s1 & s2 & [-> ->]%get_inv & H).
  assert (forall w c s', (o0 <- lift (Order.to_good_till_cancel o w) ;; ret (Some o0)) s = Ok c s' ->
            s' = s /\ forall o', c = Some o' -> Order.order_id o' = Order.order_id o) as Hconv.
  { intros w c0 s0 H0. apply bind_inv in H0 as (o1 & s1 & [H1 ->]%lift_inv & H0).
    apply ret_inv in H0 as [-> ->]. split; [done|]. intros o' [= <-].
    unfold Order.to_good_till_cancel in H1. destruct (decide _); [|discriminate].
    by injection H1 as <-. }
  destruct (bool_decide (Order.order_type o = MARKET)).
  - destruct (_ && truthy (asks s)).
    + apply bind_inv in H as (w & s2 & [_ ->]%from_option_inv & H). by eapply Hconv.
    + destruct (_ && truthy (bids s)).
      * apply bind_inv in H as (w & s2 & [_ ->]%from_option_inv & H). by eapply Hconv.
      * apply ret_inv in H as [-> ->]. split; [done|]. discriminate.
  - apply ret_inv in H as [-> ->]. split; [done|]. by intros o' [= <-].
Qed.

Lemma add_order_book_ok fuel o s r s' :
  book_ok s -> add_order fuel o s = Ok r s' -> book_ok s' /\ lock s' = false.
Proof.
  intros Hok H. apply with_lock_inv in H as (Hl & s1 & H & ->).
  split; [|done]. apply book_ok_set_lock.
  apply (book_ok_set_lock true) in Hok.
  apply bind_inv in H as (s2 & s3 & [-> ->]%get_inv & H).
  change (orders (set_lock true s)) with (orders s) in H.
  destruct (orders s !! Order.order_id o) eqn:Hnew.
  { by apply ret_inv in H as [_ ->]. }
  apply bind_inv in H as (c & s3 & Hc & H).
  apply convert_market_inv in Hc as [-> Hid].
  destruct c as [o'|]; [|by apply ret_inv in H as [_ ->]].
  destruct (_ && negb (_can_match _ _ _)); [by apply ret_inv in H as [_ ->]|].
  destruct (_ && negb (_can_fully_fill _ _ _ _)); [by apply ret_inv in H as [_ ->]|].
  apply bind_inv in H as ([] & s3 & ->%update_inv & H).
  eapply match_loop_book_ok; [|exact H].
  apply book_ok_insert_order; [done|]. simpl. by rewrite (Hid o' eq_refl).
Qed.

Lemma modify_order_inv fuel m s r s' :
  modify_order fuel m s = Ok r s' ->
  orders s !! OrderModify.order_id m = None /\ r = [] /\ s' = s.
Proof.
  intros H. apply with_lock_inv in H as (Hl & s1 & H & ->).
  apply bind_inv in H as (s2 & s3 & [-> ->]%get_inv & H).
  change (orders (set_lock true s)) with (orders s) in H.
  destruct (orders s !! OrderModify.order_id m).
  - apply bind_inv in H as ([] & s3 & H1 & _).
    by apply cancel_order_inv in H1 as [? _].
  - apply ret_inv in H as [-> ->]. by rewrite release_acquire.
Qed.

Lemma cancel_order_lock id s u s' :
  cancel_order id s = Ok u s' -> lock s' = false.
Proof.
  intros [Hl [[_ ->]|(o & q & rest & _ & _ & _ & ->)]]%cancel_order_inv; [done|].
  unfold remove_resident. by destruct (Order.side o).
Qed.

Lemma exec_book_ok fuel c s r s' :
  book_ok s -> exec fuel c s = Ok r s' -> book_ok s' /\ lock s' = false.
Proof.
  intros Hok H. destruct c as [o|id|m]; simpl in H.
  - by eapply add_order_book_ok.
  - apply bind_inv in H as ([] & s1 & H1 & [_ ->]%ret_inv). split.
    + by eapply cancel_order_book_ok.
    + by eapply cancel_order_lock.
  - apply modify_order_inv in H as H'. destruct H' as (_ & _ & ->).
    split; [done|]. unfold modify_order in H. by apply with_lock_inv in H as [? _].
Qed.

Lemma reachable_book_ok s : reachable s -> book_ok s /\ lock s = false.
Proof.
  induction 1 as [|s c fuel trades s' _ [IH _] H].
  - split; [apply book_ok_empty|done].
  - by eapply exec_book_ok.
Qed.

(** ** Filling never overflows *)

Lemma bind_raise_inv {A B} (c : M A) (k : A -> M B) s e :
  bind c k s = Raise e ->
  c s = Raise e \/ exists a s1, c s = Ok a s1 /\ k a s1 = Raise e.
Proof.
  unfold bind. destruct (c s) eqn:E; try discriminate.
  - intros H. right. eauto.
  - intros [= ->]. by left.
Qed.

Lemma no_overflow_bind {A B} (c : M A) (k : A -> M B) :
  no_overflow c -> (forall a, no_overflow (k a)) -> no_overflow (bind c k).
Proof.
  intros Hc Hk s id H. apply bind_raise_inv in H as [H|(a & s1 & _ & H)].
  - by eapply Hc.
  - by eapply Hk.
Qed.

Lemma no_overflow_ret {A} (a : A) : no_overflow (ret a).
Proof. intros s id H. discriminate. Qed.

Lemma no_overflow_get : no_overflow get.
Proof. intros s id H. discriminate. Qed.

Lemma no_overflow_update f : no_overflow (update f).
Proof. intros s id H. discriminate. Qed.

Lemma no_overflow_raise {A} e :
  (forall id, e <> FillOverflow id) -> no_overflow (@raise A e).
Proof. intros He s id [= H]. by eapply He. Qed.

Lemma no_overflow_from_option {A} e (o : option A) :
  (forall id, e <> FillOverflow id) -> no_overflow (from_option e o).
Proof.
  intros He. destruct o; simpl; [apply no_overflow_ret|by apply no_overflow_raise].
Qed.

Lemma no_overflow_when b c : no_overflow c -> no_overflow (when b c).
Proof. destruct b; simpl; [done|]. intros _. apply no_overflow_ret. Qed.

Lemma no_overflow_with_lock {A} (c : M A) : no_overflow c -> no_overflow (with_lock c).
Proof.
  intros Hc s id. unfold with_lock. destruct (lock s); [discriminate|].
  destruct (c (set_lock true s)) eqn:E; try discriminate.
  intros [= ->]. by eapply Hc.
Qed.

Lemma no_overflow_to_good_till_cancel o p :
  no_overflow (lift (Order.to_good_till_cancel o p)).
Proof.
  unfold Order.to_good_till_cancel. destruct (decide _); simpl.
  - apply no_overflow_ret.
  - by apply no_overflow_raise.
Qed.

Create HintDb overflow.

#[local] Hint Resolve no_overflow_ret no_overflow_get no_overflow_update
  no_overflow_to_good_till_cancel : overflow.

Ltac no_overflow_tac :=
  repeat first
    [ solve [eauto with overflow]
    | match goal with
      | |- no_overflow (bind _ _) => apply no_overflow_bind; [|intros ?]
      | |- no_overflow (when _ _) => apply no_overflow_when
      | |- no_overflow (with_lock _) => apply no_overflow_with_lock
      | |- no_overflow (from_option _ _) => apply no_overflow_from_option; discriminate
      | |- no_overflow (raise _) => apply no_overflow_raise; discriminate
      | |- no_overflow (if ?b then _ else _) => destruct b
      | |- no_overflow (match ?x with _ => _ end) => destruct x
      end ].

Lemma no_overflow_deref r : no_overflow (deref r).
Proof. unfold deref. no_overflow_tac. Qed.

Lemma no_overflow_pop_head sd p : no_overflow (pop_head sd p).
Proof. unfold pop_head. no_overflow_tac. Qed.

Lemma no_overflow_del_order id : no_overflow (del_order id).
Proof. unfold del_order. no_overflow_tac. Qed.

Lemma no_overflow_cancel_order id : no_overflow (cancel_order id).
Proof. unfold cancel_order. no_overflow_tac. Qed.

Lemma no_overflow_convert_market o : no_overflow (convert_market o).
Proof. unfold convert_market. no_overflow_tac. Qed.

#[local] Hint Resolve no_overflow_deref no_overflow_pop_head
  no_overflow_del_order no_overflow_cancel_order no_overflow_convert_market
  : overflow.

(** [fill] with a quantity within the remaining quantity succeeds. *)
Lemma fill_at_within r q o s :
  orders s !! r = Some o -> q <= Order.remaining_quantity o ->
  exists o', Order.fill o q = inr o' /\
    fill_at r q s = Ok tt (set_orders (<[r := o']> (orders s)) s).
Proof.
  intros Ho Hq. unfold fill_at, deref, bind, get, from_option, lift, ret, update.
  rewrite Ho. unfold Order.fill.
  destruct (Z.gtb_spec q (Order.remaining_quantity o)); [lia|]. eauto.
Qed.

Lemma match_step_no_overflow bb ba rb ra trades s id :
  rb <> ra -> match_step bb ba rb ra trades s <> Raise (FillOverflow id).
Proof.
  intros Hne H. unfold match_step in H.
  apply bind_raise_inv in H as [H|(bid0 & s0 & [-> Hb]%deref_inv & H)];
    [by eapply no_overflow_deref|].
  apply bind_raise_inv in H as [H|(ask0 & s0 & [-> Ha]%deref_inv & H)];
    [by eapply no_overflow_deref|].
  set (q := Z.min _ _) in H.
  destruct (fill_at_within rb q bid0 s Hb ltac:(lia)) as (bid1 & _ & E1).
  unfold bind at 1 in H. rewrite E1 in H.
  match type of H with bind _ _ ?x = _ => set (s1 := x) in * end.
  assert (orders s1 !! ra = Some ask0) as Ha1
    by (simpl; by rewrite lookup_insert_ne).
  destruct (fill_at_within ra q ask0 s1 Ha1 ltac:(lia)) as (ask1 & _ & E2).
  unfold bind at 1 in H. rewrite E2 in H.
  revert H. generalize (set_orders (<[ra:=ask1]> (orders s1)) s1). intros s2.
  match goal with |- ?c s2 = _ -> _ => assert (no_overflow c) as Hc end.
  { no_overflow_tac. }
  apply Hc.
Qed.

Lemma sides_disjoint_descends s s' :
  descends s s' -> sides_disjoint s -> sides_disjoint s'.
Proof.
  intros [_ D] Hs r (pb & qb & Hqb & Hb) (pa & qa & Hqa & Ha).
  destruct (D _ _ _ _ Hqb Hb) as (qb0 & ? & ?).
  destruct (D _ _ _ _ Hqa Ha) as (qa0 & ? & ?).
  apply (Hs r); [by exists pb, qb0|by exists pa, qa0].
Qed.

Lemma match_loop_no_overflow fuel :
  forall pos trades s id,
    sides_disjoint s -> match_loop fuel pos trades s <> Raise (FillOverflow id).
Proof.
  induction fuel as [|fuel IH]; intros pos trades s id Hs H; [discriminate|].
  simpl in H. destruct pos as [|bb ba].
  - unfold bind at 1, get at 1 in H.
    destruct (truthy (bids s) && truthy (asks s)); [|discriminate].
    apply bind_raise_inv in H as [H|(bb & s2 & [_ ->]%from_option_inv & H)].
    { revert H. by apply no_overflow_from_option. }
    apply bind_raise_inv in H as [H|(ba & s2 & [_ ->]%from_option_inv & H)].
    { revert H. by apply no_overflow_from_option. }
    destruct (bb <? ba); [discriminate|]. by eapply IH.
  - unfold bind at 1, get at 1 in H.
    apply bind_raise_inv in H as [H|(qb & s2 & [Hqb ->]%from_option_inv & H)].
    { revert H. by apply no_overflow_from_option. }
    destruct qb as [|rb lb]; [by eapply IH|].
    apply bind_raise_inv in H as [H|(qa & s2 & [Hqa ->]%from_option_inv & H)].
    { revert H. by apply no_overflow_from_option. }
    destruct qa as [|ra la]; [by eapply IH|].
    assert (rb <> ra) as Hne.
    { intros <-. apply (Hs rb).
      - exists bb, (rb :: lb). split; [done|left].
      - exists ba, (rb :: la). split; [done|left]. }
    apply bind_raise_inv in H as [H|([ex trades1] & s2 & Hstep & H)].
    { by eapply match_step_no_overflow. }
    apply steps_down_match_step in Hstep.
    pose proof (sides_disjoint_descends _ _ Hstep Hs).
    destruct ex; [discriminate|by eapply IH..].
Qed.

Lemma with_lock_raise_inv {A} (c : M A) s e :
  with_lock c s = Raise e -> c (set_lock true s) = Raise e.
Proof.
  unfold with_lock. destruct (lock s); [discriminate|].
  destruct (c (set_lock true s)); try discriminate. by intros [= ->].
Qed.

Lemma add_order_no_overflow fuel o s id :
  book_ok s -> add_order fuel o s <> Raise (FillOverflow id).
Proof.
  intros Hok H. apply with_lock_raise_inv in H.
  unfold bind at 1, get at 1 in H.
  change (orders (set_lock true s)) with (orders s) in H.
  destruct (orders s !! Order.order_id o) eqn:Hnew; [discriminate|].
  apply bind_raise_inv in H as [H|(c & s1 & Hc & H)].
  { by eapply no_overflow_convert_market. }
  apply convert_market_inv in Hc as [-> Hid].
  destruct c as [o'|]; [|discriminate].
  destruct (_ && negb (_can_match _ _ _)); [discriminate|].
  destruct (_ && negb (_can_fully_fill _ _ _ _)); [discriminate|].
  unfold bind at 1, update at 1 in H. revert H.
  apply match_loop_no_overflow, book_ok_sides_disjoint, book_ok_insert_order.
  - by apply book_ok_set_lock.
  - simpl. by rewrite (Hid o' eq_refl).
Qed.

Lemma cancel_order_held id s : lock s = true -> cancel_order id s = Deadlock.
Proof. apply with_lock_held. Qed.

Lemma add_order_held fuel o s : lock s = true -> add_order fuel o s = Deadlock.
Proof. apply with_lock_held. Qed.

Lemma modify_order_registered fuel m s o :
  lock s = false -> orders s !! OrderModify.order_id m = Some o ->
  modify_order fuel m s = Deadlock.
Proof.
  intros Hl Ho. unfold modify_order, with_lock. rewrite Hl.
  unfold bind at 1, get at 1.
  change (orders (set_lock true s)) with (orders s). rewrite Ho.
  unfold bind. by rewrite cancel_order_held.
Qed.

(** ** Concrete runs *)

Ltac run_add := apply add_order_more_fuel; [vm_compute; reflexivity | discriminate].

Lemma scenario5_step1 k :
  add_order (1 + k) Scenario5.sell1 empty_book = Ok [] Scenario5.book1.
Proof. run_add. Qed.

Lemma scenario5_step2 k :
  add_order (1 + k) Scenario5.sell2 Scenario5.book1 = Ok [] Scenario5.book2.
Proof. run_add. Qed.

Lemma scenario5_reachable : reachable Scenario5.book2.
Proof.
  eapply (reach_call _ (Add _)); [|apply (scenario5_step2 0)].
  eapply (reach_call _ (Add _)); [|apply (scenario5_step1 0)].
  constructor.
Qed.

Lemma exact_fill_step1 k :
  add_order (1 + k) ExactFill.sell1 empty_book = Ok [] ExactFill.book1.
Proof. run_add. Qed.

Lemma exact_fill_step2 k :
  add_order (2 + k) ExactFill.buy2 ExactFill.book1 =
    Ok [trade 2 100 1 100 5] ExactFill.book2.
Proof. run_add. Qed.

Lemma exact_fill_reachable : reachable ExactFill.book2.
Proof.
  eapply (reach_call _ (Add _)); [|apply (exact_fill_step2 0)].
  eapply (reach_call _ (Add _)); [|apply (exact_fill_step1 0)].
  constructor.
Qed.

Lemma partial_step1 k :
  add_order (1 + k) PartialAllOrNone.buy1 empty_book = Ok [] PartialAllOrNone.book1.
Proof. run_add. Qed.

Lemma partial_step2 k :
  add_order (1 + k) PartialAllOrNone.sell2 PartialAllOrNone.book1 =
    Ok [] PartialAllOrNone.book2.
Proof. run_add. Qed.

Lemma partial_step3 k :
  add_order (3 + k) PartialAllOrNone.buy3 PartialAllOrNone.book2 =
    Ok [trade 3 100 2 100 5] PartialAllOrNone.book3.
Proof. run_add. Qed.

Lemma partial_reachable : reachable PartialAllOrNone.book2.
Proof.
  eapply (reach_call _ (Add _)); [|apply (partial_step2 0)].
  eapply (reach_call _ (Add _)); [|apply (partial_step1 0)].
  constructor.
Qed.

Lemma crossing_step1 k :
  add_order (1 + k) Crossing.sell1 empty_book = Ok [] Crossing.book1.
Proof. run_add. Qed.

Lemma crossing_step2 k :
  add_order (3 + k) Crossing.buy2 Crossing.book1 =
    Ok [trade 2 101 1 100 5] Crossing.book2.
Proof. run_add. Qed.

Lemma crossing_reachable : reachable Crossing.book1.
Proof.
  eapply (reach_call _ (Add _)); [|apply (crossing_step1 0)]. constructor.
Qed.

Lemma stale_step1 k :
  add_order (1 + k) StaleLevel.sell1 empty_book = Ok [] StaleLevel.book1.
Proof. run_add. Qed.

Lemma stale_step2 k :
  add_order (3 + k) StaleLevel.buy2 StaleLevel.book1 =
    Ok [trade 2 100 1 100 5] StaleLevel.book2.
Proof. run_add. Qed.

Lemma stale_reachable : reachable StaleLevel.book2.
Proof.
  eapply (reach_call _ (Add _)); [|apply (stale_step2 0)].
  eapply (reach_call _ (Add _)); [|apply (stale_step1 0)].
  constructor.
Qed.

Lemma stale_step3 k :
  add_order (1 + k) StaleLevel.sell3 StaleLevel.book2 = Ok [] StaleLevel.book3.
Proof. run_add. Qed.

Lemma stale_step4 : cancel_order 3 StaleLevel.book3 = Ok tt StaleLevel.book4.
Proof. vm_compute. reflexivity. Qed.

Lemma scenario6_step1 k :
  add_order (1 + k) Scenario6.buy1 empty_book = Ok [] Scenario6.book1.
Proof. run_add. Qed.

Lemma scenario6_reachable : reachable Scenario6.book1.
Proof.
  eapply (reach_call _ (Add _)); [|apply (scenario6_step1 0)]. constructor.
Qed.

Lemma scenario6_cancel_add k :
  (cancel_order 1 ;;;
   add_order (1 + k) (OrderModify.to_order Scenario6.change GOOD_TILL_CANCEL))
    Scenario6.book1 = Ok [] Scenario6.book2.
Proof.
  unfold bind.
  replace (cancel_order 1 Scenario6.book1) with (@Ok unit tt empty_book)
    by (vm_compute; reflexivity).
  run_add.
Qed.

Lemma scenario5_loop_lock_free k :
  _match_orders (2 + k) (insert_order Scenario5.buy3 Scenario5.book2) =
    Ok [trade 3 101 1 100 5] Scenario5.book3.
Proof.
  apply match_loop_more_fuel; [vm_compute; reflexivity | discriminate].
Qed.

Lemma stale_stuck :
  insert_order StaleLevel.buy5 (set_lock true StaleLevel.book2) = StaleLevel.stuck.
Proof. vm_compute. reflexivity. Qed.

(** On [stuck] the two loops pass control to each other for ever. *)
Lemma stale_spins fuel trades :
  match_loop fuel AtOuter trades StaleLevel.stuck = OutOfFuel /\
  match_loop fuel (AtInner 100 100) trades StaleLevel.stuck = OutOfFuel.
Proof.
  induction fuel as [|fuel [IH1 IH2]]; [done|]. split.
  - simpl. unfold bind, get.
    replace (truthy (bids StaleLevel.stuck) && truthy (asks StaleLevel.stuck))
      with true by (by vm_compute).
    replace (py_max (keys (bids StaleLevel.stuck))) with (Some 100)
      by (by vm_compute).
    replace (py_min (keys (asks StaleLevel.stuck))) with (Some 100)
      by (by vm_compute).
    simpl. exact IH2.
  - simpl. unfold bind, get.
    replace (bids StaleLevel.stuck !! 100) with (Some [5]) by (by vm_compute).
    replace (asks StaleLevel.stuck !! 100) with (Some (@nil Z)) by (by vm_compute).
    simpl. exact IH1.
Qed.

(** ** What a cancellation changes *)

Lemma remove_resident_orders id o rest s :
  orders (remove_resident id o rest s) = delete id (orders s).
Proof. unfold remove_resident. by destruct (Order.side o). Qed.

Lemma remove_resident_lock id o rest s :
  lock (remove_resident id o rest s) = lock s.
Proof. unfold remove_resident. by destruct (Order.side o). Qed.

Lemma remove_resident_other_side id o rest s :
  orders_dict (opposite (Order.side o)) (remove_resident id o rest s) =
  orders_dict (opposite (Order.side o)) s.
Proof. unfold remove_resident. by destruct (Order.side o). Qed.

Lemma remove_resident_own_side id o rest s :
  orders_dict (Order.side o) (remove_resident id o rest s) =
  match rest with
  | [] => delete (Order.price o) (orders_dict (Order.side o) s)
  | _ => <[Order.price o := rest]> (orders_dict (Order.side o) s)
  end.
Proof. unfold remove_resident. by destruct (Order.side o). Qed.

Lemma remove_resident_data id o rest s :
  data (remove_resident id o rest s) =
  let d := level (data s) (Order.price o) in
  if count d - 1 =? 0 then delete (Order.price o) (data s)
  else <[Order.price o :=
          mkLevel (quantity d - Order.remaining_quantity o) (count d - 1)]> (data s).
Proof. unfold remove_resident. by destruct (Order.side o). Qed.



(** ** The error of [Order.fill] *)

Lemma modify_order_absent fuel m s :
  lock s = false -> orders s !! OrderModify.order_id m = None ->
  modify_order fuel m s = Ok [] s.
Proof.
  intros Hl Ho. unfold modify_order, with_lock. rewrite Hl.
  unfold bind, get. change (orders (set_lock true s)) with (orders s).
  rewrite Ho. simpl. by rewrite release_acquire.
Qed.

(** C8. In every book the program can be in, no call of the public
    interface, hence no execution of the matching loop, raises the
    overflow error of [Order.fill]: the loop fills both heads with the
    minimum of their remaining quantities. *)
Theorem C8_fill_never_overflows (s : Orderbook) (fuel : nat) (c : call) (id : Z) :
  reachable s -> exec fuel c s <> Raise (FillOverflow id).
Proof.
  intros [Hok Hl]%reachable_book_ok. destruct c as [o|oid|m]; simpl.
  - by apply add_order_no_overflow.
  - intros H. apply bind_raise_inv in H as [H|(a & s1 & _ & H)]; [|discriminate].
    by eapply no_overflow_cancel_order.
  - destruct (orders s !! OrderModify.order_id m) eqn:E.
    + by erewrite modify_order_registered.
    + by rewrite modify_order_absent.
Qed.

Lemma C8_fill_never_overflows_witness :
  reachable Crossing.book1 /\
  exec 3 (Add Crossing.buy2) Crossing.book1 <> Raise (FillOverflow 2).
Proof.
  split; [exact crossing_reachable|].
  apply (C8_fill_never_overflows Crossing.book1 3 (Add Crossing.buy2) 2).
  exact crossing_reachable.
Defined.

(** ** The trade report *)

(** C4 (as amended). Every trade emitted by the matching loop pairs a
    resident bid with a resident ask; its two halves carry the same
    quantity, and each half reports the identifier and the limit price of
    its own order.  When the aggressor crosses, the resting half reports the
    resting price and the aggressor's half its own limit. *)
Theorem C4_trades_report_own_prices (fuel : nat) (s : Orderbook)
    (trades : list Trade.t) (s' : Orderbook) (t : Trade.t) :
  _match_orders fuel s = Ok trades s' ->
  t ∈ trades ->
  own_price_trade s t /\
  TradeInfo.quantity (Trade.bid_trade t) = TradeInfo.quantity (Trade.ask_trade t).
Proof.
  intros H Ht. unfold _match_orders in H.
  apply match_loop_trades in H as (_ & new & -> & Hall).
  simpl in Ht. rewrite Forall_forall in Hall. specialize (Hall _ Ht).
  split; [done|].
  by destruct Hall as (rb & ra & bid & ask & q & _ & _ & _ & _ & ->).
Qed.

Lemma C4_trades_report_own_prices_witness :
  _match_orders 3 (insert_order Crossing.buy2 Crossing.book1) =
    Ok [trade 2 101 1 100 5] Crossing.book2 /\
  trade 2 101 1 100 5 ∈ [trade 2 101 1 100 5] /\
  own_price_trade (insert_order Crossing.buy2 Crossing.book1) (trade 2 101 1 100 5) /\
  TradeInfo.quantity (Trade.bid_trade (trade 2 101 1 100 5)) =
    TradeInfo.quantity (Trade.ask_trade (trade 2 101 1 100 5)).
Proof.
  assert (_match_orders 3 (insert_order Crossing.buy2 Crossing.book1) =
            Ok [trade 2 101 1 100 5] Crossing.book2) as H
    by (vm_compute; reflexivity).
  assert (trade 2 101 1 100 5 ∈ [trade 2 101 1 100 5]) as Ht by left.
  split; [exact H|]. split; [exact Ht|].
  exact (C4_trades_report_own_prices 3 _ _ _ _ H Ht).
Defined.

(** C4 (as stated) fails: a bid at 101 lifts the ask resting at 100, and the
    bid half of the trade reports 101, not the resting price. *)
Lemma C4_counterexample :
  exists fuel s aggressor trades s' t,
    reachable s /\
    add_order fuel aggressor s = Ok trades s' /\
    t ∈ trades /\
    ~ reports_resting_price s aggressor t.
Proof.
  exists 3%nat, Crossing.book1, Crossing.buy2, [trade 2 101 1 100 5],
    Crossing.book2, (trade 2 101 1 100 5).
  split; [exact crossing_reachable|].
  split; [exact (crossing_step2 0)|].
  split; [left|].
  intros H. specialize (H Crossing.sell1 eq_refl).
  destruct H as [H _]; [unfold crosses; simpl; lia|]. discriminate H.
Qed.

(** ** Runs on which a statement and the code part *)

(** C1. Scenario 5: with asks of 5 at 100 and 5 at 101 resting, the admission
    of the ImmediateOrCancel bid for 7 at 101 does not return.  After the
    single fill the loop calls [cancel_order] for the residual while
    [add_order] still holds the lock.  Run with the lock free, the same loop
    emits the one trade and cancels the residual bid, but leaves the filled
    ask 1 in its queue and in the registry: two orders are counted. *)
Theorem C1_scenario5_does_not_return :
  reachable Scenario5.book2 /\
  (forall k, add_order (2 + k) Scenario5.buy3 Scenario5.book2 = Deadlock) /\
  (forall fuel trades s',
     add_order fuel Scenario5.buy3 Scenario5.book2 <> Ok trades s') /\
  (forall k,
     _match_orders (2 + k) (insert_order Scenario5.buy3 Scenario5.book2) =
       Ok [trade 3 101 1 100 5] Scenario5.book3) /\
  asks Scenario5.book3 !! 100 = Some [1] /\
  orders Scenario5.book3 !! 1 = Some (filled_to Scenario5.sell1 0) /\
  size Scenario5.book3 = Ok 2 Scenario5.book3.
Proof.
  assert (forall k, add_order (2 + k) Scenario5.buy3 Scenario5.book2 = Deadlock)
    as H by (intros k; run_add).
  split; [exact scenario5_reachable|]. split; [exact H|]. split.
  { intros fuel trades s' E.
    apply add_order_more_fuel with (k := 2%nat) in E; [|discriminate].
    rewrite Nat.add_comm in E. rewrite H in E. discriminate. }
  split; [exact scenario5_loop_lock_free|]. by vm_compute.
Qed.

(** C2. After the ask of 5 at 100 and an ImmediateOrCancel bid of 5 at 100,
    both calls having returned, the two filled orders are still in their
    queues and in the registry: both maps are non-empty and the best bid
    equals the best ask. *)
Theorem C2_crossed_at_rest :
  (forall k, add_order (2 + k) ExactFill.buy2 ExactFill.book1 =
               Ok [trade 2 100 1 100 5] ExactFill.book2) /\
  reachable ExactFill.book2 /\
  bids ExactFill.book2 <> ∅ /\
  asks ExactFill.book2 <> ∅ /\
  py_max (keys (bids ExactFill.book2)) = Some 100 /\
  py_min (keys (asks ExactFill.book2)) = Some 100 /\
  ~ uncrossed ExactFill.book2 /\
  size ExactFill.book2 = Ok 2 ExactFill.book2.
Proof.
  split; [exact exact_fill_step2|]. split; [exact exact_fill_reachable|].
  split; [by apply truthy_true|]. split; [by apply truthy_true|].
  split; [reflexivity|]. split; [reflexivity|]. split; [|by vm_compute].
  intros H. specialize (H 100 100 eq_refl eq_refl). lia.
Qed.

(** C3. With a bid of 100 resting at 99 and 5 on offer at 100, the AllOrNone
    bid for 10 at 100 passes the feasibility test, which counts the ledger
    entry of the bid resting at 99, trades 5 and rests with 5 remaining. *)
Theorem C3_all_or_none_partly_filled :
  reachable PartialAllOrNone.book2 /\
  _can_fully_fill BUY 100 10 PartialAllOrNone.book2 = true /\
  (forall k, add_order (3 + k) PartialAllOrNone.buy3 PartialAllOrNone.book2 =
               Ok [trade 3 100 2 100 5] PartialAllOrNone.book3) /\
  traded [trade 3 100 2 100 5] = 5 /\
  Order.initial_quantity PartialAllOrNone.buy3 = 10 /\
  orders PartialAllOrNone.book3 !! 3 =
    Some (filled_to PartialAllOrNone.buy3 5) /\
  bids PartialAllOrNone.book3 !! 100 = Some [3].
Proof.
  split; [exact partial_reachable|]. split; [by vm_compute|].
  split; [exact partial_step3|]. by vm_compute.
Qed.

(** C6. After a bid and an ask of the same size have matched at 100, the ask
    map keeps the key 100 with an empty queue.  Adding a non-marketable ask
    at 100 under a new identifier and cancelling it removes that key: the
    book is not the one before the add. *)
Theorem C6_add_cancel_changes_book :
  reachable StaleLevel.book2 /\
  orders StaleLevel.book2 !! 3 = None /\
  _can_match SELL 100 StaleLevel.book2 = false /\
  (forall k, (add_order (1 + k) StaleLevel.sell3 ;;; cancel_order 3)
               StaleLevel.book2 = Ok tt StaleLevel.book4) /\
  asks StaleLevel.book2 !! 100 = Some [] /\
  asks StaleLevel.book4 !! 100 = None /\
  StaleLevel.book4 <> StaleLevel.book2.
Proof.
  split; [exact stale_reachable|]. split; [reflexivity|].
  split; [by vm_compute|]. split.
  { intros k. unfold bind. rewrite stale_step3. exact stale_step4. }
  split; [reflexivity|]. split; [reflexivity|].
  intros H. apply (f_equal (fun s => asks s !! 100)) in H. discriminate H.
Qed.

(** C7. Scenario 6: with the bid 1 resting, [modify_order] does not return,
    while [cancel_order] followed by [add_order] of the rebuilt order does,
    leaving the bid at 101 for 15. *)
Theorem C7_modify_is_not_cancel_then_add :
  reachable Scenario6.book1 /\
  orders Scenario6.book1 !! 1 = Some Scenario6.buy1 /\
  (forall fuel, modify_order fuel Scenario6.change Scenario6.book1 = Deadlock) /\
  (forall k,
     (cancel_order 1 ;;;
      add_order (1 + k) (OrderModify.to_order Scenario6.change GOOD_TILL_CANCEL))
       Scenario6.book1 = Ok [] Scenario6.book2).
Proof.
  split; [exact scenario6_reachable|]. split; [reflexivity|]. split.
  - intros fuel. by eapply modify_order_registered.
  - exact scenario6_cancel_add.
Qed.

(** C9. The lock is acquired again while held: [modify_order] on a
    registered identifier calls [cancel_order] under its own lock, and so
    does the ImmediateOrCancel branch of the matching loop under the lock of
    [add_order]; the second acquisition never succeeds. *)
Theorem C9_lock_acquired_while_held :
  (forall id s, lock s = true -> cancel_order id s = Deadlock) /\
  (forall fuel o s, lock s = true -> add_order fuel o s = Deadlock) /\
  reachable Scenario6.book1 /\
  lock Scenario6.book1 = false /\
  (forall fuel, modify_order fuel Scenario6.change Scenario6.book1 = Deadlock) /\
  reachable Scenario5.book2 /\
  lock Scenario5.book2 = false /\
  (forall k, add_order (2 + k) Scenario5.buy3 Scenario5.book2 = Deadlock).
Proof.
  split; [exact cancel_order_held|]. split; [exact add_order_held|].
  split; [exact scenario6_reachable|]. split; [reflexivity|]. split.
  { intros fuel. by eapply modify_order_registered. }
  split; [exact scenario5_reachable|]. split; [reflexivity|].
  intros k. run_add.
Qed.

(** ** Adding and cancelling on a tidy book *)

Lemma insert_order_set_lock b o s :
  insert_order o (set_lock b s) = set_lock b (insert_order o s).
Proof. unfold insert_order. destruct s, (Order.side o); reflexivity. Qed.

Lemma insert_order_lock o s : lock (insert_order o s) = lock s.
Proof. unfold insert_order. by destruct (Order.side o). Qed.

Lemma match_loop_quiet n s :
  (truthy (bids s) && truthy (asks s) = true -> uncrossed s) ->
  match_loop (S n) AtOuter [] s = Ok [] s.
Proof.
  intros H. simpl. unfold bind, get.
  destruct (truthy (bids s) && truthy (asks s)) eqn:E; [|done].
  apply andb_prop in E as [Eb Ea].
  destruct (py_max_keys _ (proj1 (truthy_true _) Eb)) as [b Hb].
  destruct (py_min_keys _ (proj1 (truthy_true _) Ea)) as [a Ha].
  rewrite Hb, Ha. simpl.
  specialize (H eq_refl b a Hb Ha).
  destruct (Z.ltb_spec b a); [done|lia].
Qed.

Lemma keys_insert_inv {V} (m : gmap Z V) p v k :
  k ∈ keys (<[p := v]> m) -> k = p \/ k ∈ keys m.
Proof.
  rewrite !elem_of_keys. destruct (decide (p = k)) as [->|Hne]; [by left|].
  rewrite lookup_insert_ne by done. by right.
Qed.

(** Inserting an order that is not marketable leaves an uncrossed book
    uncrossed. *)
Lemma insert_order_uncrossed o s :
  uncrossed s ->
  _can_match (Order.side o) (Order.price o) s = false ->
  truthy (bids (insert_order o s)) && truthy (asks (insert_order o s)) = true ->
  uncrossed (insert_order o s).
Proof.
  intros Hu Hm Ht b a Hb Ha.
  apply py_max_Some in Hb as [Hb Hbmax]. apply py_min_Some in Ha as [Ha Hamin].
  unfold insert_order in *. destruct (Order.side o) eqn:Hsd; simpl in *.
  - (* a bid: the ask map is as before *)
    apply andb_prop in Ht as [_ Hasks]. rewrite Hasks in Hm. simpl in Hm.
    destruct (py_min_keys _ (proj1 (truthy_true _) Hasks)) as [a0 Ha0].
    rewrite Ha0 in Hm.
    pose proof (py_min_Some _ _ Ha0) as [Ha0in Ha0min].
    assert (a0 <= a) by (by apply Ha0min).
    apply keys_insert_inv in Hb as [->|Hb].
    + destruct (Z.geb_spec (Order.price o) a0); [discriminate|lia].
    + assert (bids s <> ∅) as Hne.
      { intros E. rewrite E in Hb. apply elem_of_keys in Hb as [? Hb].
        by rewrite lookup_empty in Hb. }
      destruct (py_max_keys _ Hne) as [b0 Hb0].
      pose proof (py_max_Some _ _ Hb0) as [_ Hb0max].
      specialize (Hu b0 a0 Hb0 Ha0). specialize (Hb0max b Hb). lia.
  - (* an ask: the bid map is as before *)
    apply andb_prop in Ht as [Hbids _]. rewrite Hbids in Hm. simpl in Hm.
    destruct (py_max_keys _ (proj1 (truthy_true _) Hbids)) as [b0 Hb0].
    rewrite Hb0 in Hm.
    pose proof (py_max_Some _ _ Hb0) as [Hb0in Hb0max].
    assert (b <= b0) by (by apply Hb0max).
    apply keys_insert_inv in Ha as [->|Ha].
    + destruct (Z.leb_spec (Order.price o) b0); [discriminate|lia].
    + assert (asks s <> ∅) as Hne.
      { intros E. rewrite E in Ha. apply elem_of_keys in Ha as [? Ha].
        by rewrite lookup_empty in Ha. }
      destruct (py_min_keys _ Hne) as [a0 Ha0].
      pose proof (py_min_Some _ _ Ha0) as [_ Ha0min].
      specialize (Hu b0 a0 Hb0 Ha0). specialize (Ha0min a Ha). lia.
Qed.

Lemma list_remove_last x l : x ∉ l -> list_remove x (l ++ [x]) = Some l.
Proof.
  induction l as [|y l IH]; simpl; intros Hx.
  - by destruct (decide (x = x)).
  - apply not_elem_of_cons in Hx as [Hne Hx].
    destruct (decide (x = y)); [done|]. by rewrite IH.
Qed.

(** Taking out again the order that [insert_order] has just put in. *)
Lemma remove_resident_insert_order o s :
  book_ok s -> queues_nonempty s -> counts_positive s ->
  orders s !! Order.order_id o = None ->
  Order.remaining_quantity o = Order.initial_quantity o ->
  remove_resident (Order.order_id o) o
    (default [] (orders_dict (Order.side o) s !! Order.price o))
    (insert_order o s) = s.
Proof.
  intros Hok Hq Hc Hnew Hrem.
  assert (data (remove_resident (Order.order_id o) o
            (default [] (orders_dict (Order.side o) s !! Order.price o))
            (insert_order o s)) = data s) as Hdata.
  { rewrite remove_resident_data. unfold insert_order.
    set (p := Order.price o).
    match goal with
    | |- context [_update_level_data _ _ _ _ ?x] => set (s1 := x)
    end.
    assert (data s1 = data s) as Hs1
      by (unfold s1; destruct (Order.side o); reflexivity).
    clearbody s1. unfold _update_level_data. cbn [data set_data]. rewrite Hs1.
    unfold level. destruct (data s !! p) as [d|] eqn:Hd; simpl.
    - specialize (Hc _ _ Hd).
      destruct (Z.eqb_spec (count d + 1) 0); [lia|].
      rewrite lookup_insert_eq. simpl.
      destruct (Z.eqb_spec (count d + 1 - 1) 0); [lia|].
      rewrite insert_insert_eq. apply insert_id. rewrite Hd. f_equal.
      destruct d as [qd cd]. simpl. f_equal; lia.
    - rewrite lookup_insert_eq. simpl. rewrite delete_insert_eq.
      by apply delete_id. }
  assert (orders (remove_resident (Order.order_id o) o
            (default [] (orders_dict (Order.side o) s !! Order.price o))
            (insert_order o s)) = orders s) as Horders.
  { rewrite remove_resident_orders. unfold insert_order.
    assert (forall p q a m s', orders (_update_level_data p q a m s') = orders s')
      as -> by reflexivity.
    simpl. rewrite delete_insert_eq. rewrite orders_set_orders_dict.
    by apply delete_id. }
  assert (forall sd, orders_dict sd (remove_resident (Order.order_id o) o
            (default [] (orders_dict (Order.side o) s !! Order.price o))
            (insert_order o s)) = orders_dict sd s) as Hdict.
  { intros sd. destruct (decide (sd = Order.side o)) as [->|Hsd].
    - rewrite remove_resident_own_side. unfold insert_order.
      rewrite orders_dict_update_level, orders_dict_set_orders, orders_dict_set_same.
      destruct (orders_dict (Order.side o) s !! Order.price o) as [q|] eqn:E; simpl.
      + destruct q as [|x q]; [by destruct (Hq _ _ _ E)|].
        rewrite insert_insert_eq. by apply insert_id.
      + rewrite delete_insert_eq. by apply delete_id.
    - replace sd with (opposite (Order.side o))
        by (destruct sd, (Order.side o); done).
      rewrite remove_resident_other_side. unfold insert_order.
      rewrite orders_dict_update_level, orders_dict_set_orders.
      apply orders_dict_set_other. by destruct (Order.side o). }
  assert (lock (remove_resident (Order.order_id o) o
            (default [] (orders_dict (Order.side o) s !! Order.price o))
            (insert_order o s)) = lock s) as Hlock.
  { rewrite remove_resident_lock. unfold insert_order.
    by destruct (Order.side o). }
  pose proof (Hdict BUY) as Hb. pose proof (Hdict SELL) as Ha.
  cbn [orders_dict] in Hb, Ha. clear Hdict.
  revert Hdata Horders Hlock Hb Ha.
  generalize (remove_resident (Order.order_id o) o
            (default [] (orders_dict (Order.side o) s !! Order.price o))
            (insert_order o s)).
  intros [d2 b2 a2 o2 l2]. destruct s as [d1 b1 a1 o1 l1]. simpl.
  by intros -> -> -> -> ->.
Qed.

Lemma convert_market_other o s :
  Order.order_type o <> MARKET -> convert_market o s = Ok (Some o) s.
Proof.
  intros H. unfold convert_market, bind, get.
  by rewrite bool_decide_eq_false_2.
Qed.

Lemma convert_market_none o s :
  Order.order_type o = MARKET ->
  truthy (orders_dict (opposite (Order.side o)) s) = false ->
  convert_market o s = Ok None s.
Proof.
  intros Hty Ht. unfold convert_market, bind, get. rewrite Hty. simpl.
  destruct (Order.side o); simpl in *; by rewrite Ht.
Qed.

(** What [add_order] does with a new order that is not marketable: a market
    order, an ImmediateOrCancel order and an AllOrNone order are turned away,
    any other order rests without a trade. *)
Lemma add_order_not_marketable fuel o s :
  lock s = false -> uncrossed s ->
  orders s !! Order.order_id o = None ->
  marketable o s = false ->
  add_order (S fuel) o s =
    Ok [] (match Order.order_type o with
           | GOOD_TILL_CANCEL | GOOD_FOR_DAY => insert_order o s
           | _ => s
           end).
Proof.
  intros Hl Hu Hnew Hm. unfold add_order, with_lock. rewrite Hl.
  unfold bind at 1, get at 1.
  change (orders (set_lock true s)) with (orders s). rewrite Hnew.
  unfold bind at 1. unfold marketable in Hm.
  assert (forall sd p, _can_match sd p (set_lock true s) = _can_match sd p s)
    as Hcm by (by intros []).
  assert (forall n, match_loop (S n) AtOuter [] (insert_order o (set_lock true s)) =
            Ok [] (insert_order o (set_lock true s)) ->
          (update (insert_order o) ;;; _match_orders (S n)) (set_lock true s) =
            Ok [] (insert_order o (set_lock true s))) as Hrun.
  { intros n E. unfold bind, update, _match_orders. by rewrite E. }
  assert (Order.order_type o <> MARKET ->
          _can_match (Order.side o) (Order.price o) s = false ->
          match_loop (S fuel) AtOuter [] (insert_order o (set_lock true s)) =
            Ok [] (insert_order o (set_lock true s))) as Hquiet.
  { intros _ Hc. apply match_loop_quiet. intros Ht.
    apply insert_order_uncrossed; [exact Hu|by rewrite Hcm|done]. }
  destruct (Order.order_type o) eqn:Hty.
  - rewrite convert_market_other by congruence. rewrite Hty. simpl.
    rewrite (Hrun fuel (Hquiet ltac:(discriminate) Hm)).
    rewrite insert_order_set_lock, release_acquire; [done|].
    by rewrite insert_order_lock.
  - rewrite convert_market_other by congruence. rewrite Hty, Hcm, Hm. simpl.
    by rewrite release_acquire.
  - rewrite convert_market_other by congruence. rewrite Hty. simpl.
    unfold _can_fully_fill. rewrite Hcm, Hm. simpl.
    by rewrite release_acquire.
  - rewrite convert_market_other by congruence. rewrite Hty. simpl.
    rewrite (Hrun fuel (Hquiet ltac:(discriminate) Hm)).
    rewrite insert_order_set_lock, release_acquire; [done|].
    by rewrite insert_order_lock.
  - rewrite (convert_market_none o (set_lock true s) Hty)
      by (by rewrite orders_dict_set_lock).
    simpl. by rewrite release_acquire.
Qed.

(** X1. On a book that satisfies the invariants of the specification (the
    registry and the queues agree, no queue is empty, ledger counts are
    positive, the book is uncrossed), adding a new order that is not
    marketable, as [Order.__init__] makes it, and cancelling it gives back
    exactly the book before the add. *)
Theorem add_then_cancel_restores (fuel : nat) (s : Orderbook) (o : Order.t) :
  lock s = false ->
  book_ok s -> queues_nonempty s -> counts_positive s -> uncrossed s ->
  orders s !! Order.order_id o = None ->
  Order.remaining_quantity o = Order.initial_quantity o ->
  marketable o s = false ->
  (add_order (S fuel) o ;;; cancel_order (Order.order_id o)) s = Ok tt s.
Proof.
  intros Hl Hok Hq Hc Hu Hnew Hrem Hm. unfold bind.
  rewrite add_order_not_marketable by done.
  assert (cancel_order (Order.order_id o) (insert_order o s) = Ok tt s) as Hrest.
  { pose proof (remove_resident_insert_order o s Hok Hq Hc Hnew Hrem) as E.
    rewrite <- E at 2. apply cancel_order_Ok with
      (q := default [] (orders_dict (Order.side o) s !! Order.price o)
              ++ [Order.order_id o]).
    - unfold insert_order. by destruct (Order.side o).
    - unfold insert_order. simpl. rewrite orders_set_orders_dict.
      by rewrite lookup_insert_eq.
    - unfold insert_order.
      rewrite orders_dict_update_level, orders_dict_set_orders,
        orders_dict_set_same. by rewrite lookup_insert_eq.
    - apply list_remove_last.
      destruct (orders_dict (Order.side o) s !! Order.price o) as [q|] eqn:E';
        simpl; [|apply not_elem_of_nil].
      intros Hin. destruct (ok_queued _ Hok _ _ _ _ E' Hin) as (o' & Ho' & _).
      congruence. }
  destruct (Order.order_type o); try exact Hrest; by apply cancel_order_absent.
Qed.

Lemma add_then_cancel_restores_witness :
  lock Scenario5.book2 = false /\
  Order.remaining_quantity (Order.new GOOD_TILL_CANCEL 7 BUY 99 4) =
    Order.initial_quantity (Order.new GOOD_TILL_CANCEL 7 BUY 99 4) /\
  marketable (Order.new GOOD_TILL_CANCEL 7 BUY 99 4) Scenario5.book2 = false /\
  (add_order 1 (Order.new GOOD_TILL_CANCEL 7 BUY 99 4) ;;; cancel_order 7)
    Scenario5.book2 = Ok tt Scenario5.book2.
Proof.
  split; [reflexivity|]. split; [reflexivity|]. split; [by vm_compute|].
  apply (add_then_cancel_restores 0 Scenario5.book2
           (Order.new GOOD_TILL_CANCEL 7 BUY 99 4)).
  - reflexivity.
  - apply reachable_book_ok, scenario5_reachable.
  - intros [] p q; simpl.
    + by rewrite lookup_empty.
    + intros H. apply lookup_insert_Some in H as [[_ <-]|[_ H]]; [done|].
      by apply lookup_singleton_Some in H as [_ <-].
  - intros p d; simpl. intros H.
    apply lookup_insert_Some in H as [[_ <-]|[_ H]]; [done|].
    by apply lookup_singleton_Some in H as [_ <-].
  - intros b a Hb. discriminate Hb.
  - reflexivity.
  - reflexivity.
  - by vm_compute.
Defined.

(** ** What every reachable book satisfies *)

(** X2. In every book the program can be in between two calls, the lock is
    free and the registry and the queues agree: a registered identifier is
    the key of its own record and sits in the queue of its side and price,
    every queue entry is registered with that side and price, and no queue
    holds an entry twice. *)
Theorem reachable_registry_agrees (s : Orderbook) :
  reachable s -> lock s = false /\ book_ok s.
Proof. intros H. by apply reachable_book_ok in H as [? ?]. Qed.

Lemma reachable_registry_agrees_witness :
  reachable ExactFill.book2 /\ lock ExactFill.book2 = false /\ book_ok ExactFill.book2.
Proof.
  split; [exact exact_fill_reachable|].
  exact (reachable_registry_agrees ExactFill.book2 exact_fill_reachable).
Defined.

(** X3. [modify_order] returns only for an identifier that is not
    registered, and then with no trade and the book as it was; for a
    registered identifier, called with the lock free, it never returns. *)
Theorem modify_order_returns_only_unknown (fuel : nat) (m : OrderModify.t)
    (s : Orderbook) :
  (forall trades s', modify_order fuel m s = Ok trades s' ->
     orders s !! OrderModify.order_id m = None /\ trades = [] /\ s' = s) /\
  (lock s = false -> is_Some (orders s !! OrderModify.order_id m) ->
     modify_order fuel m s = Deadlock).
Proof.
  split.
  - intros trades s'. apply modify_order_inv.
  - intros Hl [o Ho]. by eapply modify_order_registered.
Qed.

Lemma add_order_resting fuel o s :
  orders s !! Order.order_id o = None ->
  Order.order_type o = GOOD_TILL_CANCEL \/ Order.order_type o = GOOD_FOR_DAY ->
  add_order fuel o s =
    with_lock (update (insert_order o) ;;; _match_orders fuel) s.
Proof.
  intros Hnew Hty. unfold add_order, with_lock.
  destruct (lock s); [done|].
  unfold bind at 1, get at 1.
  change (orders (set_lock true s)) with (orders s). rewrite Hnew.
  unfold bind at 1.
  rewrite convert_market_other by (destruct Hty as [-> | ->]; discriminate).
  by destruct Hty as [-> | ->].
Qed.

(** X4. After a bid and an ask of the same size have matched at 100, the ask
    map still holds the key 100 with an empty queue; a further bid at 100
    then makes [add_order] loop for ever: no amount of fuel gives a
    result. *)
Theorem add_order_spins_on_emptied_level :
  reachable StaleLevel.book2 /\
  asks StaleLevel.book2 !! 100 = Some [] /\
  forall fuel, add_order fuel StaleLevel.buy5 StaleLevel.book2 = OutOfFuel.
Proof.
  split; [exact stale_reachable|]. split; [reflexivity|].
  intros fuel. rewrite add_order_resting; [|reflexivity|by left].
  unfold with_lock. simpl lock. cbv iota.
  unfold bind, update, _match_orders. rewrite stale_stuck.
  by rewrite (proj1 (stale_spins fuel [])).
Qed.

(** ** When the matching loop does not end *)

Lemma match_loop_spins_on s bb ba :
  py_max (keys (bids s)) = Some bb ->
  py_min (keys (asks s)) = Some ba ->
  ba <= bb ->
  bids s !! bb = Some [] \/
    (is_Some (bids s !! bb) /\ asks s !! ba = Some []) ->
  forall fuel trades,
    match_loop fuel AtOuter trades s = OutOfFuel /\
    match_loop fuel (AtInner bb ba) trades s = OutOfFuel.
Proof.
  intros Hb Ha Hle Hq fuel trades.
  assert (truthy (bids s) && truthy (asks s) = true) as Ht.
  { unfold truthy. destruct (keys (bids s)); [discriminate|].
    by destruct (keys (asks s)). }
  induction fuel as [|fuel [IH1 IH2]]; [done|]. split.
  - simpl. unfold bind, get. rewrite Ht, Hb, Ha. simpl.
    destruct (Z.ltb_spec bb ba); [lia|]. exact IH2.
  - simpl. unfold bind, get.
    destruct Hq as [Hq|[[qb Hqb] Hqa]].
    + rewrite Hq. simpl. exact IH1.
    + rewrite Hqb. simpl. destruct qb; [exact IH1|].
      rewrite Hqa. simpl. exact IH1.
Qed.

(** X5. Whenever the best bid price is at or above the best ask price and
    the queue under one of these two prices is empty, [_match_orders] never
    returns: the outer loop finds the book crossed, the inner loop does not
    run, and nothing changes. *)
Theorem match_orders_never_returns (s : Orderbook) (bb ba : Z) (fuel : nat) :
  py_max (keys (bids s)) = Some bb ->
  py_min (keys (asks s)) = Some ba ->
  ba <= bb ->
  bids s !! bb = Some [] \/
    (is_Some (bids s !! bb) /\ asks s !! ba = Some []) ->
  _match_orders fuel s = OutOfFuel.
Proof.
  intros Hb Ha Hle Hq.
  apply (match_loop_spins_on s bb ba Hb Ha Hle Hq fuel []).
Qed.

Lemma match_orders_never_returns_witness :
  py_max (keys (bids StaleLevel.stuck)) = Some 100 /\
  py_min (keys (asks StaleLevel.stuck)) = Some 100 /\
  100 <= 100 /\
  (bids StaleLevel.stuck !! 100 = Some [] \/
     (is_Some (bids StaleLevel.stuck !! 100) /\
      asks StaleLevel.stuck !! 100 = Some [])) /\
  _match_orders 7 StaleLevel.stuck = OutOfFuel.
Proof.
  assert (bids StaleLevel.stuck !! 100 = Some [] \/
     (is_Some (bids StaleLevel.stuck !! 100) /\
      asks StaleLevel.stuck !! 100 = Some [])) as H.
  { right. split; [by exists [5]|reflexivity]. }
  split; [reflexivity|]. split; [reflexivity|]. split; [lia|]. split; [exact H|].
  apply (match_orders_never_returns StaleLevel.stuck 100 100 7);
    [reflexivity|reflexivity|lia|exact H].
Defined.

(** ** The admission tests *)

(** X6. [_can_match] holds exactly when the opposite side map has a price
    key at or better than the limit: at or below it for a Buy, at or above
    it for a Sell.  Only the keys count, not what the queues under them
    hold. *)
Theorem can_match_iff_key_within_limit (sd : Side) (price : Z) (s : Orderbook) :
  _can_match sd price s = true <->
  exists k, is_Some (orders_dict (opposite sd) s !! k) /\
            match sd with BUY => k <= price | SELL => price <= k end.
Proof.
  unfold _can_match. destruct sd; simpl.
  - split.
    + intros [Ht H]%andb_prop.
      destruct (py_min (keys (asks s))) as [a|] eqn:Ha; [|discriminate].
      apply py_min_Some in Ha as [Hin _]. exists a. split.
      * by apply elem_of_keys.
      * destruct (Z.geb_spec price a); [lia|discriminate].
    + intros (k & Hk & Hle).
      assert (asks s <> ∅) as Hne.
      { intros E. rewrite E in Hk. destruct Hk as [? Hk].
        by rewrite lookup_empty in Hk. }
      rewrite (proj2 (truthy_true _) Hne). simpl.
      destruct (py_min_keys _ Hne) as [a Ha]. rewrite Ha.
      apply py_min_Some in Ha as [_ Hmin].
      specialize (Hmin k (proj2 (elem_of_keys _ _) Hk)).
      destruct (Z.geb_spec price a); [done|lia].
  - split.
    + intros [Ht H]%andb_prop.
      destruct (py_max (keys (bids s))) as [b|] eqn:Hb; [|discriminate].
      apply py_max_Some in Hb as [Hin _]. exists b. split.
      * by apply elem_of_keys.
      * destruct (Z.leb_spec price b); [lia|discriminate].
    + intros (k & Hk & Hle).
      assert (bids s <> ∅) as Hne.
      { intros E. rewrite E in Hk. destruct Hk as [? Hk].
        by rewrite lookup_empty in Hk. }
      rewrite (proj2 (truthy_true _) Hne). simpl.
      destruct (py_max_keys _ Hne) as [b Hb]. rewrite Hb.
      apply py_max_Some in Hb as [_ Hmax].
      specialize (Hmax k (proj2 (elem_of_keys _ _) Hk)).
      destruct (Z.leb_spec price b); [done|lia].
Qed.

(** ** Orders turned away *)

(** X8. [add_order] returns no trade and leaves the book exactly as it was
    when the identifier is already registered, when an ImmediateOrCancel
    order cannot match, and when an AllOrNone order fails the feasibility
    test. *)
Theorem add_order_turns_away (fuel : nat) (o : Order.t) (s : Orderbook) :
  lock s = false ->
  is_Some (orders s !! Order.order_id o) \/
  (Order.order_type o = FILL_AND_KILL /\
   _can_match (Order.side o) (Order.price o) s = false) \/
  (Order.order_type o = FILL_OR_KILL /\
   _can_fully_fill (Order.side o) (Order.price o) (Order.initial_quantity o) s = false) ->
  add_order fuel o s = Ok [] s.
Proof.
  intros Hl H. unfold add_order, with_lock. rewrite Hl.
  unfold bind at 1, get at 1. change (orders (set_lock true s)) with (orders s).
  destruct (orders s !! Order.order_id o) eqn:Ho.
  { simpl. by rewrite release_acquire. }
  destruct H as [[? H]|[[Hty H]|[Hty H]]]; [discriminate| |].
  - unfold bind. rewrite convert_market_other by (rewrite Hty; discriminate).
    rewrite Hty. simpl.
    replace (_can_match (Order.side o) (Order.price o) (set_lock true s))
      with (_can_match (Order.side o) (Order.price o) s)
      by (by destruct (Order.side o)).
    rewrite H. simpl. by rewrite release_acquire.
  - unfold bind. rewrite convert_market_other by (rewrite Hty; discriminate).
    rewrite Hty. simpl.
    replace (_can_fully_fill (Order.side o) (Order.price o)
               (Order.initial_quantity o) (set_lock true s))
      with (_can_fully_fill (Order.side o) (Order.price o)
               (Order.initial_quantity o) s)
      by (by destruct (Order.side o)).
    rewrite H. simpl. by rewrite release_acquire.
Qed.

Lemma add_order_turns_away_witness :
  lock Scenario5.book2 = false /\
  (is_Some (orders Scenario5.book2 !! 9) \/
   (FILL_OR_KILL = FILL_AND_KILL /\ _can_match BUY 101 Scenario5.book2 = false) \/
   (FILL_OR_KILL = FILL_OR_KILL /\
    _can_fully_fill BUY 101 11 Scenario5.book2 = false)) /\
  add_order 4 (Order.new FILL_OR_KILL 9 BUY 101 11) Scenario5.book2 =
    Ok [] Scenario5.book2.
Proof.
  assert (is_Some (orders Scenario5.book2 !! 9) \/
   (FILL_OR_KILL = FILL_AND_KILL /\ _can_match BUY 101 Scenario5.book2 = false) \/
   (FILL_OR_KILL = FILL_OR_KILL /\
    _can_fully_fill BUY 101 11 Scenario5.book2 = false)) as H.
  { right. right. split; [reflexivity|by vm_compute]. }
  split; [reflexivity|]. split; [exact H|].
  exact (add_order_turns_away 4 (Order.new FILL_OR_KILL 9 BUY 101 11)
           Scenario5.book2 eq_refl H).
Defined.

(** ** Cancelling what is not there *)

(** X9. On every book the program can be in, [cancel_order] returns; for an
    identifier that is not registered it changes nothing, and cancelling the
    same identifier a second time changes nothing more. *)
Theorem cancel_order_again (s : Orderbook) (id : Z) :
  reachable s ->
  exists s',
    cancel_order id s = Ok tt s' /\
    orders s' !! id = None /\
    (orders s !! id = None -> s' = s) /\
    cancel_order id s' = Ok tt s'.
Proof.
  intros [Hok Hl]%reachable_book_ok.
  destruct (orders s !! id) as [o|] eqn:Ho.
  - destruct (ok_registered _ Hok _ _ Ho) as (q & Hq & Hin).
    destruct (list_remove_elem _ _ Hin) as [rest Hr].
    exists (remove_resident id o rest s).
    assert (orders (remove_resident id o rest s) !! id = None) as Hgone
      by (rewrite remove_resident_orders; apply lookup_delete_eq).
    split; [by apply (cancel_order_Ok _ _ _ q)|]. split; [done|].
    split; [discriminate|].
    apply cancel_order_absent; [|done]. by rewrite remove_resident_lock.
  - exists s. split; [by apply cancel_order_absent|]. split; [done|].
    split; [done|]. by apply cancel_order_absent.
Qed.

Lemma cancel_order_again_witness :
  reachable Scenario5.book2 /\
  exists s',
    cancel_order 1 Scenario5.book2 = Ok tt s' /\
    orders s' !! 1 = None /\
    (orders Scenario5.book2 !! 1 = None -> s' = Scenario5.book2) /\
    cancel_order 1 s' = Ok tt s'.
Proof.
  split; [exact scenario5_reachable|].
  exact (cancel_order_again Scenario5.book2 1 scenario5_reachable).
Defined.

(** ** The feasibility test *)

Lemma total_Permutation {A} (f : A -> Z) l l' :
  l ≡ₚ l' -> total f l = total f l'.
Proof.
  induction 1; simpl; lia.
Qed.

Lemma total_nonneg {A} (f : A -> Z) l :
  (forall x, x ∈ l -> 0 <= f x) -> 0 <= total f l.
Proof.
  induction l as [|x l IH]; simpl; intros H; [lia|].
  assert (0 <= f x) by (apply H; left).
  assert (0 <= total f l) by (apply IH; intros y Hy; apply H; by right).
  unfold total in *. lia.
Qed.

Lemma py_sorted_Permutation l r : py_sorted l r ≡ₚ l.
Proof.
  unfold py_sorted. destruct r.
  - rewrite reverse_Permutation. apply merge_sort_Permutation.
  - apply merge_sort_Permutation.
Qed.

Lemma fill_walk_iff d sd price l :
  (forall k, k ∈ l -> 0 <= quantity (level d k)) ->
  forall qty, 0 < qty ->
    fill_walk d sd price qty l = true <->
    qty <= total (fun k => quantity (level d k))
             (filter (fun k => within_limit sd price k = true) l).
Proof.
  induction l as [|k l IH]; intros Hpos qty Hqty.
  - simpl. split; [discriminate|]. unfold total. simpl. lia.
  - assert (forall k', k' ∈ l -> 0 <= quantity (level d k')) as Hpos'
      by (intros k' Hk'; apply Hpos; by right).
    assert (0 <= quantity (level d k)) as Hk by (apply Hpos; left).
    rewrite filter_cons.
    destruct (decide (within_limit sd price k = true)) as [Hw|Hw];
      unfold within_limit in Hw.
    + apply negb_true_iff in Hw. simpl. rewrite Hw.
      assert (0 <= total (fun k => quantity (level d k))
                (filter (fun k => within_limit sd price k = true) l)) as Hrest.
      { apply total_nonneg. intros x Hx. apply Hpos'.
        by apply list_elem_of_filter in Hx as [_ ?]. }
      destruct (Z.leb_spec qty (quantity (level d k))).
      * split; [|done]. intros _. unfold total in *. lia.
      * rewrite IH by (done || lia). unfold total. simpl. lia.
    + apply not_true_is_false, negb_false_iff in Hw. simpl. rewrite Hw.
      by apply IH.
Qed.

(** X7. When no ledger entry has a negative quantity and the quantity asked
    for is positive, [_can_fully_fill] holds exactly when [_can_match] does
    and the quantity is at most the sum of the ledger quantities at all the
    prices within the limit.  The ledger is the one of both sides: orders
    resting on the order's own side at such prices are counted too. *)
Theorem can_fully_fill_iff_ledger_depth (sd : Side) (price qty : Z)
    (s : Orderbook) :
  (forall k d, data s !! k = Some d -> 0 <= quantity d) ->
  0 < qty ->
  _can_fully_fill sd price qty s = true <->
  _can_match sd price s = true /\ qty <= ledger_depth sd price s.
Proof.
  intros Hpos Hqty. unfold _can_fully_fill, ledger_depth.
  destruct (_can_match sd price s); simpl; [|split; [discriminate|by intros [? _]]].
  rewrite fill_walk_iff; [|intros k _|done].
  - rewrite (total_Permutation _ _ _
       (filter_Permutation _ _ _ (py_sorted_Permutation _ _))).
    split; [done|by intros [_ ?]].
  - unfold level. destruct (data s !! k) eqn:E; simpl; [by eapply Hpos|lia].
Qed.

Lemma can_fully_fill_iff_ledger_depth_witness :
  (forall k d, data PartialAllOrNone.book2 !! k = Some d -> 0 <= quantity d) /\
  0 < 10 /\
  (_can_fully_fill BUY 100 10 PartialAllOrNone.book2 = true <->
   _can_match BUY 100 PartialAllOrNone.book2 = true /\
   10 <= ledger_depth BUY 100 PartialAllOrNone.book2).
Proof.
  assert (forall k d, data PartialAllOrNone.book2 !! k = Some d -> 0 <= quantity d)
    as H.
  { intros k d; simpl. intros E.
    apply lookup_insert_Some in E as [[_ <-]|[_ E]]; [simpl; lia|].
    apply lookup_singleton_Some in E as [_ <-]. simpl. lia. }
  split; [exact H|]. split; [lia|].
  exact (can_fully_fill_iff_ledger_depth BUY 100 10 PartialAllOrNone.book2
           H ltac:(lia)).
Defined.

(** ** The pruning pass *)

Lemma cancel_order_reachable s id :
  reachable s ->
  exists s', cancel_order id s = Ok tt s' /\ reachable s' /\
             orders s' = delete id (orders s).
Proof.
  intros Hr. pose proof (reachable_book_ok _ Hr) as [Hok Hl].
  assert (forall s', cancel_order id s = Ok tt s' -> reachable s') as Hstep.
  { intros s' E. apply (reach_call s (Cancel id) 0 [] s' Hr).
    simpl. unfold bind. by rewrite E. }
  destruct (orders s !! id) as [o|] eqn:Ho.
  - destruct (ok_registered _ Hok _ _ Ho) as (q & Hq & Hin).
    destruct (list_remove_elem _ _ Hin) as [rest Hrm].
    pose proof (cancel_order_Ok _ _ _ _ _ Hl Ho Hq Hrm) as E.
    exists (remove_resident id o rest s). split; [done|]. split; [by apply Hstep|].
    apply remove_resident_orders.
  - pose proof (cancel_order_absent _ _ Hl Ho) as E.
    exists s. split; [done|]. split; [done|]. by rewrite delete_id.
Qed.

Lemma cancel_each_reachable ids :
  forall s, reachable s ->
  exists s', cancel_each ids s = Ok tt s' /\ reachable s' /\
    forall k, orders s' !! k = if decide (k ∈ ids) then None else orders s !! k.
Proof.
  induction ids as [|id ids IH]; intros s Hr.
  - exists s. split; [done|]. split; [done|]. intros k.
    destruct (decide (k ∈ [])) as [H|_]; [by apply elem_of_nil in H|done].
  - destruct (cancel_order_reachable s id Hr) as (s1 & E1 & Hr1 & Ho1).
    destruct (IH s1 Hr1) as (s2 & E2 & Hr2 & Ho2).
    exists s2. split; [simpl; unfold bind; by rewrite E1|]. split; [done|].
    intros k. rewrite Ho2, Ho1.
    destruct (decide (k ∈ ids)) as [Hin|Hin].
    + destruct (decide (k ∈ id :: ids)) as [_|Hn]; [done|].
      destruct Hn. by right.
    + destruct (decide (k = id)) as [->|Hne].
      * destruct (decide (id ∈ id :: ids)) as [_|Hn]; [|destruct Hn; left].
        apply lookup_delete_eq.
      * rewrite lookup_delete_ne by done.
        destruct (decide (k ∈ id :: ids)) as [Hin'|_]; [|done].
        apply elem_of_cons in Hin' as [?|?]; done.
Qed.

Lemma elem_of_good_for_day_ids s k :
  k ∈ good_for_day_ids s <->
  exists o, orders s !! k = Some o /\ Order.order_type o = GOOD_FOR_DAY.
Proof.
  unfold good_for_day_ids. rewrite list_elem_of_fmap. split.
  - intros ([k' o] & -> & H). apply elem_of_map_to_list in H.
    apply map_lookup_filter_Some in H as [H Hty]. eauto.
  - intros (o & Ho & Hty). exists (k, o). split; [done|].
    apply elem_of_map_to_list. by apply map_lookup_filter_Some.
Qed.

(** X10. One pass of the pruner on a book the program can be in, with no
    other call in between and whatever the order in which the identifiers
    come: the snapshot leaves the book as it is, every cancellation returns,
    and afterwards exactly the GoodForDay orders are gone from the registry,
    every other order being registered as before. *)
Theorem prune_pass_removes_good_for_day (s : Orderbook) (ids : list Z) :
  reachable s ->
  ids ≡ₚ good_for_day_ids s ->
  snapshot_good_for_day s = Ok (good_for_day_ids s) s /\
  exists s',
    cancel_each ids s = Ok tt s' /\
    reachable s' /\
    forall k,
      orders s' !! k =
        match orders s !! k with
        | Some o => if decide (Order.order_type o = GOOD_FOR_DAY) then None
                    else Some o
        | None => None
        end.
Proof.
  intros Hr Hperm. pose proof (reachable_book_ok _ Hr) as [_ Hl]. split.
  - unfold snapshot_good_for_day, with_lock. rewrite Hl. simpl.
    by rewrite release_acquire.
  - destruct (cancel_each_reachable ids s Hr) as (s' & E & Hr' & Ho).
    exists s'. split; [done|]. split; [done|]. intros k. rewrite Ho.
    destruct (decide (k ∈ ids)) as [Hin|Hin].
    + rewrite Hperm in Hin.
      apply elem_of_good_for_day_ids in Hin as (o & -> & Hty).
      by destruct (decide _).
    + destruct (orders s !! k) as [o|] eqn:E'; [|done].
      destruct (decide _) as [Hty|]; [|done].
      destruct Hin. rewrite Hperm. apply elem_of_good_for_day_ids. eauto.
Qed.

Lemma day_orders_reachable : reachable DayOrders.book2.
Proof.
  apply (reach_call DayOrders.book1 (Add DayOrders.buy2) 1 []).
  - apply (reach_call empty_book (Add DayOrders.sell1) 1 []); [constructor|].
    by vm_compute.
  - by vm_compute.
Qed.

Lemma prune_pass_removes_good_for_day_witness :
  reachable DayOrders.book2 /\
  [1] ≡ₚ good_for_day_ids DayOrders.book2 /\
  snapshot_good_for_day DayOrders.book2 =
    Ok (good_for_day_ids DayOrders.book2) DayOrders.book2 /\
  exists s',
    cancel_each [1] DayOrders.book2 = Ok tt s' /\
    reachable s' /\
    forall k,
      orders s' !! k =
        match orders DayOrders.book2 !! k with
        | Some o => if decide (Order.order_type o = GOOD_FOR_DAY) then None
                    else Some o
        | None => None
        end.
Proof.
  assert ([1] ≡ₚ good_for_day_ids DayOrders.book2) as H by (by vm_compute).
  split; [exact day_orders_reachable|]. split; [exact H|].
  exact (prune_pass_removes_good_for_day DayOrders.book2 [1] day_orders_reachable H).
Defined.

(** ** No exception on a reachable book *)

Lemma bind_step {A B} (c : M A) (k : A -> M B) s a s1 :
  c s = Ok a s1 -> bind c k s = k a s1.
Proof. unfold bind. by intros ->. Qed.

Lemma deref_Ok r s o : orders s !! r = Some o -> deref r s = Ok o s.
Proof. intros H. unfold deref, bind, get. by rewrite H. Qed.

Lemma cancel_order_no_raise id s e :
  book_ok s -> cancel_order id s <> Raise e.
Proof.
  intros Hok. destruct (lock s) eqn:Hl.
  - by rewrite cancel_order_held.
  - destruct (orders s !! id) as [o|] eqn:Ho.
    + destruct (ok_registered _ Hok _ _ Ho) as (q & Hq & Hin).
      destruct (list_remove_elem _ _ Hin) as [rest Hrm].
      by rewrite (cancel_order_Ok _ _ _ _ _ Hl Ho Hq Hrm).
    + by rewrite cancel_order_absent.
Qed.

Lemma when_cancel_no_raise b id s e :
  book_ok s -> when b (cancel_order id) s <> Raise e.
Proof. destruct b; simpl; [apply cancel_order_no_raise|done]. Qed.

(** What popping the head [r] and deleting its registry entry gives. *)
Lemma pop_del_Ok sd p r l s :
  orders_dict sd s !! p = Some (r :: l) ->
  is_Some (orders s !! r) ->
  (pop_head sd p ;;; del_order r) s =
    Ok tt (set_orders (delete r (orders s))
             (set_orders_dict sd (<[p := l]> (orders_dict sd s)) s)).
Proof.
  intros Hq [o Ho]. unfold pop_head, del_order, bind, get, update. simpl.
  rewrite Hq. simpl. rewrite orders_set_orders_dict, Ho. simpl.
  by rewrite orders_set_orders_dict.
Qed.

Lemma when_pop_del sd p r l s b :
  orders_dict sd s !! p = Some (r :: l) ->
  is_Some (orders s !! r) ->
  exists s',
    when b (pop_head sd p ;;; del_order r) s = Ok tt s' /\
    (forall sd' p', is_Some (orders_dict sd' s !! p') ->
                    is_Some (orders_dict sd' s' !! p')) /\
    orders_dict (opposite sd) s' = orders_dict (opposite sd) s /\
    (forall r', r' <> r -> orders s' !! r' = orders s !! r').
Proof.
  intros Hq Ho. destruct b; simpl.
  - eexists. split; [by apply pop_del_Ok|]. split; [|split].
    + intros sd' p' H. rewrite orders_dict_set_orders.
      destruct (decide (sd = sd')) as [<-|Hsd].
      * rewrite orders_dict_set_same. destruct (decide (p = p')) as [<-|Hp].
        -- rewrite lookup_insert_eq. eauto.
        -- by rewrite lookup_insert_ne.
      * by rewrite orders_dict_set_other.
    + by destruct sd.
    + intros r' Hne. simpl. by rewrite lookup_delete_ne.
  - exists s. split; [done|]. split; [done|]. split; done.
Qed.

Lemma match_step_no_raise bb ba rb lb ra la trades s e :
  book_ok s ->
  bids s !! bb = Some (rb :: lb) ->
  asks s !! ba = Some (ra :: la) ->
  match_step bb ba rb ra trades s <> Raise e.
Proof.
  intros Hok Hqb Hqa H.
  destruct (ok_queued _ Hok BUY bb _ rb Hqb (list_elem_of_here _ _))
    as (bid0 & Hb0 & Sb & _).
  destruct (ok_queued _ Hok SELL ba _ ra Hqa (list_elem_of_here _ _))
    as (ask0 & Ha0 & Sa & _).
  assert (rb <> ra) as Hne by (intros <-; congruence).
  unfold match_step in H.
  rewrite (bind_step _ _ _ _ _ (deref_Ok _ _ _ Hb0)) in H.
  rewrite (bind_step _ _ _ _ _ (deref_Ok _ _ _ Ha0)) in H.
  set (q := Z.min _ _) in H.
  destruct (fill_at_within rb q bid0 s Hb0 ltac:(lia)) as (bid & Fb & E1).
  rewrite (bind_step _ _ _ _ _ E1) in H.
  pose proof (book_ok_fill _ _ _ _ Hok Hb0 (fill_same_identity _ _ _ Fb)) as Hok1.
  set (s1 := set_orders (<[rb:=bid]> (orders s)) s) in *.
  assert (orders s1 !! ra = Some ask0) as Ha1
    by (simpl; by rewrite lookup_insert_ne).
  destruct (fill_at_within ra q ask0 s1 Ha1 ltac:(lia)) as (ask & Fa & E2).
  rewrite (bind_step _ _ _ _ _ E2) in H.
  pose proof (book_ok_fill _ _ _ _ Hok1 Ha1 (fill_same_identity _ _ _ Fa)) as Hok2.
  set (s2 := set_orders (<[ra:=ask]> (orders s1)) s1) in *.
  assert (orders s2 !! rb = Some bid) as Hb2
    by (simpl; rewrite lookup_insert_ne by done; apply lookup_insert_eq).
  assert (orders s2 !! ra = Some ask) as Ha2 by (simpl; apply lookup_insert_eq).
  rewrite (bind_step _ _ _ _ _ (deref_Ok _ _ _ Hb2)) in H.
  rewrite (bind_step _ _ _ _ _ (deref_Ok _ _ _ Ha2)) in H.
  pose proof (ok_key _ Hok2 _ _ Hb2) as Kb.
  pose proof (ok_key _ Hok2 _ _ Ha2) as Ka.
  unfold bind at 1, update at 1 in H. unfold bind at 1, update at 1 in H.
  match type of H with _ ?x = _ => set (s4 := x) in * end.
  assert (book_ok s4) as Hok4 by (by do 2 apply book_ok_update_level).
  assert (bids s4 !! bb = Some (rb :: lb)) as Hqb4 by exact Hqb.
  assert (asks s4 !! ba = Some (ra :: la)) as Hqa4 by exact Hqa.
  assert (orders s4 !! rb = Some bid) as Hb4 by exact Hb2.
  assert (orders s4 !! ra = Some ask) as Ha4 by exact Ha2.
  clearbody s4. clear Hok Hok1 Hok2 Hqb Hqa Hb0 Ha0 Ha1 Hb2 Ha2 E1 E2.
  clear s1 s2. rewrite Kb, Ka in H.
  destruct (_ || _).
  - apply bind_raise_inv in H as [H|([] & s5 & H5 & H)].
    { by eapply when_cancel_no_raise. }
    apply when_cancel_book_ok in H5; [|done].
    apply bind_raise_inv in H as [H|([] & s6 & H6 & H)]; [|discriminate].
    exact (when_cancel_no_raise _ _ _ _ H5 H).
  - destruct (when_pop_del BUY bb rb lb s4 (Order.is_filled bid) Hqb4
                ltac:(eauto)) as (s5 & E5 & Hk5 & Ho5 & Hr5).
    rewrite (bind_step _ _ _ _ _ E5) in H.
    assert (asks s5 !! ba = Some (ra :: la)) as Hqa5
      by (simpl in Ho5; by rewrite Ho5).
    assert (is_Some (orders s5 !! ra)) as Ha5
      by (rewrite Hr5 by done; eauto).
    destruct (when_pop_del SELL ba ra la s5 (Order.is_filled ask) Hqa5 Ha5)
      as (s6 & E6 & Hk6 & _ & _).
    rewrite (bind_step _ _ _ _ _ E6) in H.
    unfold bind at 1, get at 1 in H.
    destruct (Hk6 BUY bb (Hk5 BUY bb ltac:(simpl; eauto))) as [qb Hqb6].
    destruct (Hk6 SELL ba ltac:(simpl; eauto)) as [qa Hqa6].
    simpl in Hqb6, Hqa6. rewrite Hqb6 in H. simpl in H.
    destruct qb; [discriminate|].
    unfold bind at 1 in H. rewrite Hqa6 in H. simpl in H.
    destruct qa; discriminate.
Qed.

Lemma match_step_next bb ba rb ra trades s trades' s' :
  match_step bb ba rb ra trades s = Ok (Next, trades') s' ->
  is_Some (bids s' !! bb) /\ is_Some (asks s' !! ba).
Proof.
  intros H. unfold match_step in H.
  apply bind_inv in H as (bid0 & s0 & _ & H).
  apply bind_inv in H as (ask0 & s1 & _ & H).
  apply bind_inv in H as ([] & s2 & _ & H).
  apply bind_inv in H as ([] & s3 & _ & H).
  apply bind_inv in H as (bid & s4 & _ & H).
  apply bind_inv in H as (ask & s5 & _ & H).
  apply bind_inv in H as ([] & s6 & _ & H).
  apply bind_inv in H as ([] & s7 & _ & H).
  destruct (_ || _).
  - apply bind_inv in H as ([] & s8 & _ & H).
    apply bind_inv in H as ([] & s9 & _ & H).
    apply ret_inv in H as [H _]. discriminate H.
  - apply bind_inv in H as ([] & s8 & _ & H).
    apply bind_inv in H as ([] & s9 & _ & H).
    apply bind_inv in H as (sa & sb & [-> ->]%get_inv & H).
    apply bind_inv in H as (qb & sc & [Hqb ->]%from_option_inv & H).
    destruct qb.
    + apply bind_inv in H as ([] & sd & _ & H).
      apply ret_inv in H as [H _]. discriminate H.
    + apply bind_inv in H as (qa & sd & [Hqa ->]%from_option_inv & H).
      destruct qa.
      * apply bind_inv in H as ([] & se & _ & H).
        apply ret_inv in H as [H _]. discriminate H.
      * apply ret_inv in H as [_ ->]. eauto.
Qed.

Lemma match_loop_no_raise fuel :
  forall pos trades s e,
    book_ok s ->
    match pos with
    | AtOuter => True
    | AtInner bb ba => is_Some (bids s !! bb) /\ is_Some (asks s !! ba)
    end ->
    match_loop fuel pos trades s <> Raise e.
Proof.
  induction fuel as [|fuel IH]; intros pos trades s e Hok Hpos H; [discriminate|].
  simpl in H. destruct pos as [|bb ba].
  - unfold bind at 1, get at 1 in H.
    destruct (truthy (bids s) && truthy (asks s)) eqn:Ht; [|discriminate].
    apply andb_prop in Ht as [Htb Hta].
    destruct (py_max_keys _ (proj1 (truthy_true _) Htb)) as [bb Hb].
    destruct (py_min_keys _ (proj1 (truthy_true _) Hta)) as [ba Ha].
    rewrite Hb, Ha in H. simpl in H. unfold bind, ret in H.
    destruct (bb <? ba); [discriminate|].
    apply (IH _ _ _ _ Hok) in H; [done|]. split.
    + apply elem_of_keys. by apply py_max_Some in Hb as [? _].
    + apply elem_of_keys. by apply py_min_Some in Ha as [? _].
  - destruct Hpos as [[qb Hqb] [qa Hqa]].
    unfold bind at 1, get at 1 in H. rewrite Hqb in H. simpl in H.
    unfold bind at 1, ret at 1 in H.
    destruct qb as [|rb lb]; [by apply (IH _ _ _ _ Hok) in H|].
    unfold bind at 1 in H. rewrite Hqa in H. simpl in H.
    destruct qa as [|ra la]; [by apply (IH _ _ _ _ Hok) in H|].
    apply bind_raise_inv in H as [H|([ex trades1] & s2 & Hstep & H)].
    { by eapply match_step_no_raise. }
    pose proof (match_step_book_ok _ _ _ _ _ _ _ _ _ _ Hok Hqb Hqa Hstep) as Hok2.
    destruct ex; [discriminate| |].
    + by apply (IH _ _ _ _ Hok2) in H.
    + apply match_step_next in Hstep. by apply (IH _ _ _ _ Hok2) in H.
Qed.

Lemma convert_market_no_raise o s e : convert_market o s <> Raise e.
Proof.
  unfold convert_market, bind, get.
  destruct (bool_decide (Order.order_type o = MARKET)) eqn:Hty; [|done].
  apply bool_decide_eq_true in Hty.
  assert (forall w, lift (Order.to_good_till_cancel o w) s =
            Ok (as_good_till_cancel o w) s) as Hgtc.
  { intros w. unfold Order.to_good_till_cancel. by destruct (decide _). }
  destruct (_ && truthy (asks s)) eqn:E1.
  - apply andb_prop in E1 as [_ Ht].
    destruct (py_max_keys _ (proj1 (truthy_true _) Ht)) as [w Hw].
    rewrite Hw. simpl. by rewrite Hgtc.
  - destruct (_ && truthy (bids s)) eqn:E2; [|done].
    apply andb_prop in E2 as [_ Ht].
    destruct (py_min_keys _ (proj1 (truthy_true _) Ht)) as [w Hw].
    rewrite Hw. simpl. by rewrite Hgtc.
Qed.

Lemma add_order_no_raise fuel o s e :
  book_ok s -> add_order fuel o s <> Raise e.
Proof.
  intros Hok H. apply with_lock_raise_inv in H.
  unfold bind at 1, get at 1 in H.
  change (orders (set_lock true s)) with (orders s) in H.
  destruct (orders s !! Order.order_id o) eqn:Hnew; [discriminate|].
  apply bind_raise_inv in H as [H|(c & s1 & Hc & H)].
  { by eapply convert_market_no_raise. }
  apply convert_market_inv in Hc as [-> Hid].
  destruct c as [o'|]; [|discriminate].
  destruct (_ && negb (_can_match _ _ _)); [discriminate|].
  destruct (_ && negb (_can_fully_fill _ _ _ _)); [discriminate|].
  unfold bind at 1, update at 1 in H. revert H.
  apply match_loop_no_raise; [|done].
  apply book_ok_insert_order; [by apply book_ok_set_lock|].
  simpl. by rewrite (Hid o' eq_refl).
Qed.

(** X11. On every book the program can be in, no call of the interface
    raises an exception: no KeyError from the price maps or the registry, no
    ValueError from [list.remove], [max], [min], [Order.fill] or
    [Order.to_good_till_cancel].  A call returns, or blocks on the lock, or
    loops. *)
Theorem exec_never_raises (s : Orderbook) (fuel : nat) (c : call) (e : exn) :
  reachable s -> exec fuel c s <> Raise e.
Proof.
  intros [Hok Hl]%reachable_book_ok. destruct c as [o|oid|m]; simpl.
  - by apply add_order_no_raise.
  - intros H. apply bind_raise_inv in H as [H|(a & s1 & _ & H)]; [|discriminate].
    by eapply cancel_order_no_raise.
  - destruct (orders s !! OrderModify.order_id m) eqn:E.
    + by erewrite modify_order_registered.
    + by rewrite modify_order_absent.
Qed.

Lemma exec_never_raises_witness :
  reachable PartialAllOrNone.book2 /\
  exec 3 (Add PartialAllOrNone.buy3) PartialAllOrNone.book2 <> Raise KeyError.
Proof.
  split; [exact partial_reachable|].
  exact (exec_never_raises PartialAllOrNone.book2 3 (Add PartialAllOrNone.buy3)
           KeyError partial_reachable).
Defined.

(** ** The ledger against the registry *)

Lemma tally_insert_new f (m : gmap Z Order.t) k o :
  m !! k = None -> tally f (<[k := o]> m) = f o + tally f m.
Proof.
  intros H. unfold tally.
  by rewrite (total_Permutation _ _ _ (map_to_list_insert m k o H)).
Qed.

Lemma tally_delete f (m : gmap Z Order.t) k o :
  m !! k = Some o -> tally f m = f o + tally f (delete k m).
Proof.
  intros H. unfold tally.
  by rewrite <- (total_Permutation _ _ _ (map_to_list_delete m k o H)).
Qed.

Lemma tally_insert_existing f (m : gmap Z Order.t) k o o' :
  m !! k = Some o -> tally f (<[k := o']> m) = tally f m - f o + f o'.
Proof.
  intros H. rewrite <- insert_delete_eq.
  rewrite tally_insert_new by apply lookup_delete_eq.
  rewrite (tally_delete f m k o H). lia.
Qed.

Lemma tally_nonneg f (m : gmap Z Order.t) :
  (forall o, 0 <= f o) -> 0 <= tally f m.
Proof. intros H. apply total_nonneg. intros x _. apply H. Qed.

Lemma tally_member_le f (m : gmap Z Order.t) k o :
  (forall o, 0 <= f o) -> m !! k = Some o -> f o <= tally f m.
Proof.
  intros Hf H. rewrite (tally_delete f m k o H).
  pose proof (tally_nonneg f (delete k m) Hf). lia.
Qed.

Lemma tally_all_zero f (m : gmap Z Order.t) :
  (forall k o, m !! k = Some o -> f o = 0) -> tally f m = 0.
Proof.
  intros H. unfold tally.
  assert (forall l : list (Z * Order.t),
            (forall kv, kv ∈ l -> f kv.2 = 0) ->
            total (fun kv => f kv.2) l = 0) as Hl.
  { induction l as [|x l IH]; intros Hx; [done|].
    unfold total in *. simpl. rewrite (Hx x) by left. rewrite IH; [done|].
    intros kv Hkv. apply Hx. by right. }
  apply Hl. intros [k o] Hin. apply elem_of_map_to_list in Hin. simpl. eauto.
Qed.

Lemma one_at_nonneg p o : 0 <= one_at p o.
Proof. unfold one_at. destruct (decide _); lia. Qed.

Lemma one_at_own o : one_at (Order.price o) o = 1.
Proof. unfold one_at. by destruct (decide _). Qed.

Lemma remaining_at_own o :
  remaining_at (Order.price o) o = Order.remaining_quantity o.
Proof. unfold remaining_at. by destruct (decide _). Qed.

Lemma remaining_at_other p o : Order.price o <> p -> remaining_at p o = 0.
Proof. unfold remaining_at. by destruct (decide _). Qed.

Lemma one_at_other p o : Order.price o <> p -> one_at p o = 0.
Proof. unfold one_at. by destruct (decide _). Qed.

(** No order registered at [p] when the head count there is zero. *)
Lemma tally_one_at_zero p (m : gmap Z Order.t) :
  tally (one_at p) m <= 0 -> tally (remaining_at p) m = 0.
Proof.
  intros H. apply tally_all_zero. intros k o Ho.
  apply remaining_at_other. intros Hp.
  pose proof (tally_member_le (one_at p) m k o (one_at_nonneg p) Ho) as Hle.
  rewrite <- Hp, one_at_own in Hle. rewrite <- Hp in H. lia.
Qed.

(** The ledger entry at [p'] after one call of [_update_level_data]. *)
Lemma level_update_level p qty a m s p' :
  level (data (_update_level_data p qty a m s)) p' =
    if decide (p' = p) then
      let d := level (data s) p in
      let d' := if a then mkLevel (quantity d + qty) (count d + 1)
                else if m then mkLevel (quantity d - qty) (count d)
                else mkLevel (quantity d - qty) (count d - 1) in
      if count d' =? 0 then mkLevel 0 0 else d'
    else level (data s) p'.
Proof.
  unfold _update_level_data, level. cbn [data set_data].
  destruct (decide (p' = p)) as [->|Hne].
  - destruct (count _ =? 0).
    + by rewrite lookup_delete_eq.
    + by rewrite lookup_insert_eq.
  - destruct (count _ =? 0).
    + by rewrite lookup_delete_ne.
    + by rewrite lookup_insert_ne.
Qed.

Lemma ledger_tracks_same s s' :
  data s' = data s -> orders s' = orders s ->
  ledger_tracks s -> ledger_tracks s'.
Proof. intros Hd Ho H p. rewrite Hd, Ho. apply H. Qed.

Lemma remaining_in_range_same s s' :
  orders s' = orders s -> remaining_in_range s -> remaining_in_range s'.
Proof. intros Ho H r o. rewrite Ho. apply H. Qed.

(** Inserting a well-made order under a new identifier. *)
Lemma ledger_tracks_insert o s :
  ledger_tracks s -> orders s !! Order.order_id o = None ->
  Order.remaining_quantity o = Order.initial_quantity o ->
  ledger_tracks (insert_order o s).
Proof.
  intros H Hnew Hrem p. unfold insert_order.
  rewrite level_update_level.
  assert (forall sd m q a b s',
            orders (_update_level_data (Order.price o) q a b
                      (set_orders m (set_orders_dict sd s' s))) = m) as Eo
    by (by intros []).
  rewrite Eo. rewrite orders_set_orders_dict.
  assert (forall sd (m : gmap Z Order.t) s',
            data (set_orders m (set_orders_dict sd s' s)) = data s) as Ed
    by (by intros []).
  rewrite Ed. rewrite !tally_insert_new by done.
  destruct (H p) as [Hq Hc]. destruct (H (Order.price o)) as [Hq' Hc'].
  pose proof (tally_nonneg (one_at (Order.price o)) (orders s)
                (one_at_nonneg _)).
  destruct (decide (p = Order.price o)) as [->|Hne]; simpl.
  - destruct (Z.eqb_spec (count (level (data s) (Order.price o)) + 1) 0); [lia|].
    simpl. rewrite remaining_at_own, one_at_own. lia.
  - rewrite remaining_at_other, one_at_other by done. lia.
Qed.

Lemma one_at_filled_to p o x : one_at p (filled_to o x) = one_at p o.
Proof. reflexivity. Qed.

Lemma remaining_at_filled_to o x :
  remaining_at (Order.price o) (filled_to o x) = x.
Proof. unfold remaining_at. simpl. by destruct (decide _). Qed.

Lemma remaining_at_filled_to_other p o x :
  Order.price o <> p -> remaining_at p (filled_to o x) = 0.
Proof. intros H. unfold remaining_at. simpl. by destruct (decide _). Qed.

(** Filling the object [r] by [q] and booking the match at its price. *)
Lemma ledger_tracks_fill r o q s s' :
  ledger_tracks s -> orders s !! r = Some o ->
  data s' = data (_update_level_data (Order.price o) q false true s) ->
  orders s' = <[r := filled_to o (Order.remaining_quantity o - q)]> (orders s) ->
  ledger_tracks s'.
Proof.
  intros H Ho Hd Hs p. unfold level at 1 2. rewrite Hd, Hs.
  fold (level (data (_update_level_data (Order.price o) q false true s)) p).
  rewrite level_update_level.
  rewrite !(tally_insert_existing _ _ _ _ _ Ho).
  destruct (H p) as [Hq Hc]. destruct (H (Order.price o)) as [Hq' Hc'].
  pose proof (tally_member_le (one_at (Order.price o)) _ _ _
                (one_at_nonneg _) Ho) as Hone.
  rewrite one_at_own in Hone. rewrite one_at_filled_to.
  destruct (decide (p = Order.price o)) as [->|Hne]; simpl.
  - destruct (Z.eqb_spec (count (level (data s) (Order.price o))) 0); [lia|].
    simpl. rewrite remaining_at_filled_to, remaining_at_own. lia.
  - rewrite remaining_at_filled_to_other, remaining_at_other by done. lia.
Qed.

(** Deleting a registered order that has nothing left. *)
Lemma ledger_tracks_delete_filled r o s s' :
  ledger_tracks s -> orders s !! r = Some o ->
  Order.remaining_quantity o = 0 ->
  data s' = data s -> orders s' = delete r (orders s) ->
  ledger_tracks s'.
Proof.
  intros H Ho Hrem Hd Hs p. rewrite Hd, Hs.
  destruct (H p) as [Hq Hc].
  rewrite (tally_delete (remaining_at p) _ _ _ Ho) in Hq.
  rewrite (tally_delete (one_at p) _ _ _ Ho) in Hc.
  pose proof (one_at_nonneg p o).
  assert (remaining_at p o = 0) as E
    by (unfold remaining_at; destruct (decide _); done).
  lia.
Qed.

(** Cancelling a registered order. *)
Lemma ledger_tracks_remove_resident id o rest s :
  ledger_tracks s -> orders s !! id = Some o ->
  ledger_tracks (remove_resident id o rest s).
Proof.
  intros H Ho p. unfold level at 1 2.
  rewrite remove_resident_orders.
  assert (data (remove_resident id o rest s) =
          data (_update_level_data (Order.price o)
                  (Order.remaining_quantity o) false false s)) as ->
    by (unfold remove_resident; by destruct (Order.side o)).
  fold (level (data (_update_level_data (Order.price o)
                  (Order.remaining_quantity o) false false s)) p).
  rewrite level_update_level.
  destruct (H p) as [Hq Hc]. destruct (H (Order.price o)) as [Hq' Hc'].
  rewrite (tally_delete (remaining_at p) _ _ _ Ho) in Hq.
  rewrite (tally_delete (one_at p) _ _ _ Ho) in Hc.
  rewrite (tally_delete (remaining_at (Order.price o)) _ _ _ Ho) in Hq'.
  rewrite (tally_delete (one_at (Order.price o)) _ _ _ Ho) in Hc'.
  rewrite remaining_at_own in Hq'. rewrite one_at_own in Hc'.
  pose proof (tally_nonneg (one_at (Order.price o)) (delete id (orders s))
                (one_at_nonneg _)) as Hnn.
  destruct (decide (p = Order.price o)) as [->|Hne]; simpl.
  - destruct (Z.eqb_spec (count (level (data s) (Order.price o)) - 1) 0) as [E|E];
      simpl.
    + rewrite tally_one_at_zero by lia. lia.
    + lia.
  - rewrite remaining_at_other in Hq by done.
    rewrite one_at_other in Hc by done. lia.
Qed.

Lemma when_cancel_tracked b id s u s' :
  remaining_in_range s -> ledger_tracks s ->
  when b (cancel_order id) s = Ok u s' ->
  remaining_in_range s' /\ ledger_tracks s'.
Proof.
  intros Hr Hl H. destruct b; simpl in H; [|by apply ret_inv in H as [_ ->]].
  apply cancel_order_inv in H as [_ [[_ ->]|(o & q & rest & Ho & _ & _ & ->)]];
    [done|]. split.
  - intros r o'. rewrite remove_resident_orders.
    intros [_ H]%lookup_delete_Some. by eapply Hr.
  - by apply ledger_tracks_remove_resident.
Qed.

Lemma when_pop_del_tracked b sd p r o s u s' :
  remaining_in_range s -> ledger_tracks s ->
  orders s !! r = Some o ->
  (b = true -> Order.remaining_quantity o = 0) ->
  when b (pop_head sd p ;;; del_order r) s = Ok u s' ->
  remaining_in_range s' /\ ledger_tracks s' /\
  (forall r', r' <> r -> orders s' !! r' = orders s !! r').
Proof.
  intros Hr Hl Ho Hb H. destruct b; simpl in H.
  - apply bind_inv in H as ([] & s1 & H1 & H2).
    apply pop_head_inv in H1 as (r' & l' & _ & ->).
    apply del_order_inv in H2 as [_ ->].
    rewrite orders_set_orders_dict. split; [|split].
    + intros r0 o0. simpl. intros [_ H]%lookup_delete_Some. by eapply Hr.
    + eapply (ledger_tracks_delete_filled r o s); [done|done|by apply Hb| |done].
      by destruct sd.
    + intros r0 Hne. simpl. by rewrite lookup_delete_ne.
  - apply ret_inv in H as [_ ->]. done.
Qed.

Lemma match_step_tracked bb ba rb lb ra la trades s r s' :
  book_ok s -> remaining_in_range s -> ledger_tracks s ->
  bids s !! bb = Some (rb :: lb) ->
  asks s !! ba = Some (ra :: la) ->
  match_step bb ba rb ra trades s = Ok r s' ->
  remaining_in_range s' /\ ledger_tracks s'.
Proof.
  intros Hok Hrng Hled Hqb Hqa H.
  destruct (ok_queued _ Hok BUY bb _ rb Hqb (list_elem_of_here _ _))
    as (b0 & Hb0 & Sb & _).
  destruct (ok_queued _ Hok SELL ba _ ra Hqa (list_elem_of_here _ _))
    as (a0 & Ha0 & Sa & _).
  assert (rb <> ra) as Hne by (intros <-; congruence).
  pose proof (ok_key _ Hok _ _ Hb0) as Kb.
  pose proof (ok_key _ Hok _ _ Ha0) as Ka.
  pose proof (Hrng _ _ Hb0) as Rb. pose proof (Hrng _ _ Ha0) as Ra.
  unfold match_step in H.
  rewrite (bind_step _ _ _ _ _ (deref_Ok _ _ _ Hb0)) in H.
  rewrite (bind_step _ _ _ _ _ (deref_Ok _ _ _ Ha0)) in H.
  set (q := Z.min _ _) in H.
  assert (0 <= q <= Order.remaining_quantity b0 /\
          q <= Order.remaining_quantity a0) as Hq by (unfold q; lia).
  destruct (fill_at_within rb q b0 s Hb0 ltac:(lia)) as (bid & Fb & E1).
  apply fill_inv in Fb as [_ ->].
  rewrite (bind_step _ _ _ _ _ E1) in H. clear E1.
  fold (filled_to b0 (Order.remaining_quantity b0 - q)) in *.
  set (bid := filled_to b0 (Order.remaining_quantity b0 - q)) in *.
  set (s1 := set_orders (<[rb:=bid]> (orders s)) s) in *.
  assert (orders s1 !! ra = Some a0) as Ha1
    by (simpl; by rewrite lookup_insert_ne).
  destruct (fill_at_within ra q a0 s1 Ha1 ltac:(lia)) as (ask & Fa & E2).
  apply fill_inv in Fa as [_ ->].
  rewrite (bind_step _ _ _ _ _ E2) in H. clear E2.
  fold (filled_to a0 (Order.remaining_quantity a0 - q)) in *.
  set (ask := filled_to a0 (Order.remaining_quantity a0 - q)) in *.
  set (s2 := set_orders (<[ra:=ask]> (orders s1)) s1) in *.
  assert (orders s2 !! rb = Some bid) as Hb2
    by (simpl; rewrite lookup_insert_ne by done; apply lookup_insert_eq).
  assert (orders s2 !! ra = Some ask) as Ha2 by (simpl; apply lookup_insert_eq).
  rewrite (bind_step _ _ _ _ _ (deref_Ok _ _ _ Hb2)) in H.
  rewrite (bind_step _ _ _ _ _ (deref_Ok _ _ _ Ha2)) in H.
  unfold bind at 1, update at 1 in H. unfold bind at 1, update at 1 in H.
  match type of H with _ ?x = _ => set (s4 := x) in * end.
  assert (ledger_tracks s4) as Hled4.
  { set (sA := _update_level_data (Order.price b0) q false true s1).
    assert (ledger_tracks sA) as HA.
    { by apply (ledger_tracks_fill rb b0 q s). }
    by apply (ledger_tracks_fill ra a0 q sA). }
  assert (remaining_in_range s4) as Hrng4.
  { intros r0 o0. unfold s4. simpl. intros E.
    apply lookup_insert_Some in E as [[_ <-]|[_ E]]; [simpl; lia|].
    apply lookup_insert_Some in E as [[_ <-]|[_ E]]; [simpl; lia|].
    by eapply Hrng. }
  assert (orders s4 !! rb = Some bid) as Hb4 by exact Hb2.
  assert (orders s4 !! ra = Some ask) as Ha4 by exact Ha2.
  assert (Order.order_id bid = rb) as Kb' by exact Kb.
  assert (Order.order_id ask = ra) as Ka' by exact Ka.
  assert (Order.is_filled bid = true -> Order.remaining_quantity bid = 0) as Zb
    by (unfold Order.is_filled; intros E; by apply Z.eqb_eq in E).
  assert (Order.is_filled ask = true -> Order.remaining_quantity ask = 0) as Za
    by (unfold Order.is_filled; intros E; by apply Z.eqb_eq in E).
  clearbody s4. clear s1 s2 Ha1 Hb2 Ha2 Hled Hrng. clearbody bid ask.
  rewrite Kb', Ka' in H.
  destruct (_ || _).
  - apply bind_inv in H as ([] & s5 & H5 & H).
    apply when_cancel_tracked in H5 as [Hrng5 Hled5]; [|done..].
    apply bind_inv in H as ([] & s6 & H6 & H).
    apply when_cancel_tracked in H6 as [Hrng6 Hled6]; [|done..].
    by apply ret_inv in H as [_ ->].
  - apply bind_inv in H as ([] & s5 & H5 & H).
    apply (when_pop_del_tracked _ _ _ _ bid) in H5 as (Hrng5 & Hled5 & Ho5);
      [|done..].
    apply bind_inv in H as ([] & s6 & H6 & H).
    apply (when_pop_del_tracked _ _ _ _ ask) in H6 as (Hrng6 & Hled6 & _);
      [|done|done|by rewrite Ho5|done].
    apply bind_inv in H as (sa & sb & [-> ->]%get_inv & H).
    apply bind_inv in H as (qb & sc & [_ ->]%from_option_inv & H).
    destruct qb.
    + apply bind_inv in H as ([] & sd & ->%update_inv & H).
      by apply ret_inv in H as [_ ->].
    + apply bind_inv in H as (qa & sd & [_ ->]%from_option_inv & H).
      destruct qa.
      * apply bind_inv in H as ([] & se & ->%update_inv & H).
        by apply ret_inv in H as [_ ->].
      * by apply ret_inv in H as [_ ->].
Qed.

Lemma match_loop_tracked fuel :
  forall pos trades s r s',
    book_ok s -> remaining_in_range s -> ledger_tracks s ->
    match_loop fuel pos trades s = Ok r s' ->
    remaining_in_range s' /\ ledger_tracks s'.
Proof.
  induction fuel as [|fuel IH]; intros pos trades s r s' Hok Hrng Hled H;
    [discriminate|].
  simpl in H. destruct pos as [|bb ba].
  - apply bind_inv in H as (s1 & s2 & [-> ->]%get_inv & H).
    destruct (truthy (bids s) && truthy (asks s)).
    + apply bind_inv in H as (bb & s2 & [_ ->]%from_option_inv & H).
      apply bind_inv in H as (ba & s2 & [_ ->]%from_option_inv & H).
      destruct (bb <? ba).
      * by apply ret_inv in H as [_ ->].
      * by eapply IH.
    + by apply ret_inv in H as [_ ->].
  - apply bind_inv in H as (s1 & s2 & [-> ->]%get_inv & H).
    apply bind_inv in H as (qb & s2 & [Hqb ->]%from_option_inv & H).
    destruct qb as [|rb lb]; [by eapply IH|].
    apply bind_inv in H as (qa & s2 & [Hqa ->]%from_option_inv & H).
    destruct qa as [|ra la]; [by eapply IH|].
    apply bind_inv in H as ([ex trades1] & s2 & Hstep & H).
    pose proof (match_step_book_ok _ _ _ _ _ _ _ _ _ _ Hok Hqb Hqa Hstep) as Hok2.
    apply (match_step_tracked _ _ _ _ _ _ _ _ _ _ Hok Hrng Hled Hqb Hqa) in Hstep
      as [Hrng2 Hled2].
    destruct ex.
    + by apply ret_inv in H as [_ ->].
    + by eapply IH.
    + by eapply IH.
Qed.

Lemma convert_market_quantities o s c s' :
  convert_market o s = Ok c s' ->
  forall o', c = Some o' ->
    Order.initial_quantity o' = Order.initial_quantity o /\
    Order.remaining_quantity o' = Order.remaining_quantity o.
Proof.
  unfold convert_market. intros H.
  apply bind_inv in H as (s1 & s2 & [-> ->]%get_inv & H).
  assert (forall w c s',
            (o0 <- lift (Order.to_good_till_cancel o w) ;; ret (Some o0)) s = Ok c s' ->
            forall o', c = Some o' ->
              Order.initial_quantity o' = Order.initial_quantity o /\
              Order.remaining_quantity o' = Order.remaining_quantity o) as Hconv.
  { intros w c0 s0 H0. apply bind_inv in H0 as (o1 & s1 & [H1 ->]%lift_inv & H0).
    apply ret_inv in H0 as [-> ->]. intros o' [= <-].
    unfold Order.to_good_till_cancel in H1. destruct (decide _); [|discriminate].
    by injection H1 as <-. }
  destruct (bool_decide (Order.order_type o = MARKET)).
  - destruct (_ && truthy (asks s)).
    + apply bind_inv in H as (w & s2 & [_ ->]%from_option_inv & H). by eapply Hconv.
    + destruct (_ && truthy (bids s)).
      * apply bind_inv in H as (w & s2 & [_ ->]%from_option_inv & H). by eapply Hconv.
      * apply ret_inv in H as [-> ->]. discriminate.
  - apply ret_inv in H as [-> ->]. by intros o' [= <-].
Qed.

Lemma remaining_in_range_insert o s :
  remaining_in_range s -> well_made o -> remaining_in_range (insert_order o s).
Proof.
  intros H [Hrem Hpos] r o'. unfold insert_order.
  assert (forall sd m q a b s',
            orders (_update_level_data (Order.price o) q a b
                      (set_orders m (set_orders_dict sd s' s))) = m) as Eo
    by (by intros []).
  rewrite Eo, orders_set_orders_dict.
  intros [[_ <-]|[_ E]]%lookup_insert_Some; [lia|by eapply H].
Qed.

Lemma add_order_tracked fuel o s r s' :
  book_ok s -> remaining_in_range s -> ledger_tracks s -> well_made o ->
  add_order fuel o s = Ok r s' ->
  remaining_in_range s' /\ ledger_tracks s'.
Proof.
  intros Hok Hrng Hled Hwm H. apply with_lock_inv in H as (Hl & s1 & H & ->).
  assert (remaining_in_range s1 /\ ledger_tracks s1) as [? ?]; [|done].
  apply (book_ok_set_lock true) in Hok.
  assert (remaining_in_range (set_lock true s)) as Hrng' by done.
  assert (ledger_tracks (set_lock true s)) as Hled' by done.
  apply bind_inv in H as (s2 & s3 & [-> ->]%get_inv & H).
  change (orders (set_lock true s)) with (orders s) in H.
  destruct (orders s !! Order.order_id o) eqn:Hnew.
  { by apply ret_inv in H as [_ ->]. }
  apply bind_inv in H as (c & s3 & Hc & H).
  pose proof (convert_market_quantities _ _ _ _ Hc) as Hqty.
  apply convert_market_inv in Hc as [-> Hid].
  destruct c as [o'|]; [|by apply ret_inv in H as [_ ->]].
  destruct (Hqty o' eq_refl) as [Hi Hr].
  assert (well_made o') as Hwm'
    by (destruct Hwm; split; [by rewrite Hr, Hi|by rewrite Hi]).
  destruct (_ && negb (_can_match _ _ _)); [by apply ret_inv in H as [_ ->]|].
  destruct (_ && negb (_can_fully_fill _ _ _ _)); [by apply ret_inv in H as [_ ->]|].
  apply bind_inv in H as ([] & s3 & ->%update_inv & H).
  assert (orders (set_lock true s) !! Order.order_id o' = None) as Hnew'
    by (simpl; by rewrite (Hid o' eq_refl)).
  eapply match_loop_tracked; [| | |exact H].
  - by apply book_ok_insert_order.
  - by apply remaining_in_range_insert.
  - apply ledger_tracks_insert; [done|done|by destruct Hwm'].
Qed.

Lemma reachable_well_made_reachable s : reachable_well_made s -> reachable s.
Proof.
  induction 1 as [|s fuel o trades s' _ IH _ H|s id s' _ IH H
                  |s fuel m trades s' _ IH H].
  - constructor.
  - by apply (reach_call s (Add o) fuel trades).
  - apply (reach_call s (Cancel id) 0 []); [done|]. simpl.
    unfold bind. by rewrite H.
  - by apply (reach_call s (Modify m) fuel trades).
Qed.

Lemma reachable_well_made_tracked s :
  reachable_well_made s -> remaining_in_range s /\ ledger_tracks s.
Proof.
  intros H. induction H as [|s fuel o trades s' Hs [IHr IHl] Hwm H
                            |s id s' Hs [IHr IHl] H
                            |s fuel m trades s' Hs [IHr IHl] H].
  - split.
    + intros r o. simpl. by rewrite lookup_empty.
    + intros p. unfold tally. simpl. rewrite map_to_list_empty. simpl.
      unfold level. rewrite lookup_empty. simpl. lia.
  - apply reachable_well_made_reachable, reachable_book_ok in Hs as [Hok _].
    by eapply add_order_tracked.
  - by apply (when_cancel_tracked true id s tt s').
  - by apply modify_order_inv in H as (_ & _ & ->).
Qed.

(** ** The ledger against the registry *)

(** X12. When every order handed to [add_order] is as [Order.__init__] makes
    it, with a quantity that is not negative, then in every book reached
    through [add_order], [cancel_order] and [modify_order]: each registered
    order has between nothing and its initial quantity left; at every price
    the ledger quantity is the sum of what the registered orders at that
    price have left, both sides together; and the ledger count at a price is
    at least the number of orders registered there (a full fill takes the
    order out of the registry and leaves the count as it is). *)
Theorem reachable_ledger_tracks_registry (s : Orderbook) :
  reachable_well_made s -> remaining_in_range s /\ ledger_tracks s.
Proof. apply reachable_well_made_tracked. Qed.

Lemma partial_reachable_well_made : reachable_well_made PartialAllOrNone.book3.
Proof.
  eapply rw_add; [| |apply (partial_step3 0)]; [|split; [reflexivity|by vm_compute]].
  eapply rw_add; [| |apply (partial_step2 0)]; [|split; [reflexivity|by vm_compute]].
  eapply rw_add; [| |apply (partial_step1 0)]; [|split; [reflexivity|by vm_compute]].
  constructor.
Qed.

Lemma reachable_ledger_tracks_registry_witness :
  reachable_well_made PartialAllOrNone.book3 /\
  remaining_in_range PartialAllOrNone.book3 /\
  ledger_tracks PartialAllOrNone.book3.
Proof.
  split; [exact partial_reachable_well_made|].
  exact (reachable_ledger_tracks_registry _ partial_reachable_well_made).
Defined.

(** ** Queues against the registry *)

Lemma total_ext_in {A} (f g : A -> Z) l :
  (forall x, x ∈ l -> f x = g x) -> total f l = total g l.
Proof.
  unfold total. induction l as [|x l IH]; intros H; [done|]. simpl.
  rewrite (H x) by left. rewrite IH; [done|]. intros y Hy. apply H. by right.
Qed.

Lemma total_fmap {A B} (g : A -> B) (f : B -> Z) l :
  total f (g <$> l) = total (fun x => f (g x)) l.
Proof.
  unfold total. induction l as [|x l IH]; [done|]. csimpl. by rewrite IH.
Qed.

Lemma total_app {A} (f : A -> Z) l k :
  total f (l ++ k) = total f l + total f k.
Proof.
  unfold total. induction l as [|x l IH]; simpl; [done|]. rewrite IH. lia.
Qed.

Lemma tally_plus f g (m : gmap Z Order.t) :
  tally (fun o => f o + g o) m = tally f m + tally g m.
Proof.
  unfold tally, total. induction (map_to_list m) as [|x l IH]; simpl; [done|].
  rewrite IH. lia.
Qed.

Lemma tally_ext f g (m : gmap Z Order.t) :
  (forall o, f o = g o) -> tally f m = tally g m.
Proof. intros H. apply total_ext_in. intros x _. apply H. Qed.

Lemma tally_filter (P : Order.t -> Prop) `{!forall o, Decision (P o)} f
    (m : gmap Z Order.t) :
  tally f (filter (fun kv => P kv.2) m) =
  tally (fun o => if decide (P o) then f o else 0) m.
Proof.
  induction m as [|k o m Hk _ IH] using map_first_key_ind.
  - by rewrite map_filter_empty.
  - rewrite (tally_insert_new _ m k o Hk). destruct (decide (P o)) as [Hp|Hp].
    + rewrite map_filter_insert_True by done.
      rewrite tally_insert_new by (by rewrite map_lookup_filter_None; left).
      by rewrite IH.
    + rewrite map_filter_insert_False by done.
      rewrite delete_id by done. by rewrite IH.
Qed.

(** The queue of a side and price holds the registered orders of that side
    and price, each once. *)
Lemma queue_registered sd p s :
  book_ok s ->
  default [] (orders_dict sd s !! p) ≡ₚ
  (map_to_list (filter (fun kv => Order.side kv.2 = sd /\ Order.price kv.2 = p)
                       (orders s))).*1.
Proof.
  intros [K R Q N]. apply NoDup_Permutation.
  - destruct (orders_dict sd s !! p) eqn:E; simpl; [by eapply N|constructor].
  - apply NoDup_fst_map_to_list.
  - intros r. rewrite list_elem_of_fmap. split.
    + intros Hr. destruct (orders_dict sd s !! p) as [q|] eqn:E; simpl in Hr;
        [|by apply elem_of_nil in Hr].
      destruct (Q _ _ _ _ E Hr) as (o & Ho & Hs & Hp).
      exists (r, o). split; [done|].
      apply elem_of_map_to_list, map_lookup_filter_Some. done.
    + intros ([r' o] & -> & H). simpl.
      apply elem_of_map_to_list, map_lookup_filter_Some in H as [Ho [Hs Hp]].
      simpl in *. destruct (R _ _ Ho) as (q & Hq & Hr).
      rewrite Hs, Hp in Hq. by rewrite Hq.
Qed.

Lemma queue_total sd p s :
  book_ok s ->
  total (remaining_of s) (default [] (orders_dict sd s !! p)) =
  tally (remaining_on sd p) (orders s).
Proof.
  intros Hok. rewrite (total_Permutation _ _ _ (queue_registered sd p s Hok)).
  rewrite total_fmap.
  rewrite (total_ext_in _ (fun kv => Order.remaining_quantity kv.2)).
  2:{ intros [r o] H. apply elem_of_map_to_list, map_lookup_filter_Some in H as [Ho _].
      unfold remaining_of. simpl. by rewrite Ho. }
  change (tally Order.remaining_quantity
            (filter (fun kv => Order.side kv.2 = sd /\ Order.price kv.2 = p) (orders s)) =
          tally (remaining_on sd p) (orders s)).
  etrans;
    [exact (tally_filter (fun o => Order.side o = sd /\ Order.price o = p)
              Order.remaining_quantity (orders s))|].
  apply tally_ext. intros o. unfold remaining_on, remaining_at.
  destruct (decide (Order.side o = sd)), (decide (Order.price o = p));
    destruct (decide _) as [[? ?]|Hn]; try done. exfalso. by apply Hn.
Qed.

Lemma remaining_at_sides p o :
  remaining_at p o = remaining_on BUY p o + remaining_on SELL p o.
Proof.
  unfold remaining_on. destruct (Order.side o); simpl;
    repeat destruct (decide _); try done; lia.
Qed.

(** ** The depth report *)

Lemma sum_remaining_Ok refs s :
  (forall r, r ∈ refs -> is_Some (orders s !! r)) ->
  sum_remaining refs s = Ok (total (remaining_of s) refs) s.
Proof.
  induction refs as [|r refs IH]; intros H; [done|]. simpl.
  destruct (H r) as [o Ho]; [left|].
  rewrite (bind_step _ _ _ _ _ (deref_Ok _ _ _ Ho)).
  rewrite (bind_step _ _ _ _ _ (IH (fun r' Hr' => H r' (list_elem_of_further _ _ _ Hr')))).
  unfold ret, remaining_of at 2. by rewrite Ho.
Qed.

Lemma level_infos_Ok items s :
  (forall p q r, (p, q) ∈ items -> r ∈ q -> is_Some (orders s !! r)) ->
  level_infos items s = Ok (info_of s <$> items) s.
Proof.
  induction items as [|[p q] items IH]; intros H; [done|]. simpl.
  rewrite (bind_step _ _ _ _ _ (sum_remaining_Ok q s (fun r => H p q r (list_elem_of_here _ _)))).
  rewrite (bind_step _ _ _ _ _
             (IH (fun p' q' r' Hi => H p' q' r' (list_elem_of_further _ _ _ Hi)))).
  done.
Qed.

Lemma reported_cons i infos p :
  reported (i :: infos) p =
  (if decide (LevelInfo.price i = p) then LevelInfo.quantity i else 0) +
  reported infos p.
Proof.
  unfold reported. destruct (decide _).
  - by rewrite filter_cons_True.
  - by rewrite filter_cons_False.
Qed.

Lemma reported_absent s items p :
  p ∉ items.*1 -> reported (info_of s <$> items) p = 0.
Proof.
  induction items as [|[p' q] items IH]; intros H; [done|].
  rewrite fmap_cons in H. apply not_elem_of_cons in H as [Hne Hni].
  rewrite fmap_cons, reported_cons, (IH Hni). simpl in *.
  destruct (decide _); [congruence|done].
Qed.

Lemma reported_present s items p q :
  NoDup items.*1 -> (p, q) ∈ items ->
  reported (info_of s <$> items) p = total (remaining_of s) q.
Proof.
  induction items as [|[p' q'] items IH]; intros Hnd H.
  - by apply elem_of_nil in H.
  - rewrite fmap_cons in Hnd. apply NoDup_cons in Hnd as [Hni Hnd].
    rewrite fmap_cons, reported_cons. simpl in *.
    apply elem_of_cons in H as [[= <- <-]|H].
    + rewrite (reported_absent s items p Hni).
      destruct (decide _); [lia|done].
    + rewrite (IH Hnd H). destruct (decide _) as [->|]; [|done].
      exfalso. apply Hni. apply list_elem_of_fmap. by exists (p, q).
Qed.

Lemma reported_items s (d : gmap Z (list Z)) p :
  reported (info_of s <$> map_to_list d) p =
  total (remaining_of s) (default [] (d !! p)).
Proof.
  destruct (d !! p) as [q|] eqn:E; simpl.
  - apply reported_present; [apply NoDup_fst_map_to_list|].
    by apply elem_of_map_to_list.
  - apply reported_absent. rewrite list_elem_of_fmap. intros ([p' q] & -> & H).
    apply elem_of_map_to_list in H. simpl in E. congruence.
Qed.

Lemma get_order_infos_Ok s :
  book_ok s -> lock s = false ->
  get_order_infos s =
    Ok (info_of s <$> map_to_list (bids s), info_of s <$> map_to_list (asks s)) s.
Proof.
  intros Hok Hl. unfold get_order_infos, with_lock. rewrite Hl.
  unfold bind at 1, get at 1.
  assert (forall sd, level_infos (map_to_list (orders_dict sd s)) (set_lock true s) =
            Ok (info_of s <$> map_to_list (orders_dict sd s)) (set_lock true s)) as E.
  { intros sd. rewrite level_infos_Ok; [done|].
    intros p q r Hq%elem_of_map_to_list Hr.
    destruct (ok_queued _ Hok sd p q r Hq Hr) as (o & Ho & _). by exists o. }
  change (bids (set_lock true s)) with (orders_dict BUY s).
  change (asks (set_lock true s)) with (orders_dict SELL s).
  rewrite (bind_step _ _ _ _ _ (E BUY)), (bind_step _ _ _ _ _ (E SELL)).
  unfold ret. by rewrite release_acquire.
Qed.

(** X13. In every book reached with well-made orders, [get_order_infos]
    called with the lock free returns and leaves the book as it was; it
    reports one level per price key of each side map; and at every price the
    quantity reported for the bids plus the quantity reported for the asks is
    the ledger quantity of that price. *)
Theorem get_order_infos_agrees_with_ledger (s : Orderbook) :
  reachable_well_made s ->
  exists bid_infos ask_infos,
    get_order_infos s = Ok (bid_infos, ask_infos) s /\
    LevelInfo.price <$> bid_infos ≡ₚ keys (bids s) /\
    LevelInfo.price <$> ask_infos ≡ₚ keys (asks s) /\
    forall p, reported bid_infos p + reported ask_infos p =
              quantity (level (data s) p).
Proof.
  intros H.
  destruct (reachable_book_ok s (reachable_well_made_reachable s H)) as [Hok Hl].
  destruct (reachable_well_made_tracked s H) as [_ Hled].
  eexists _, _. split; [by apply get_order_infos_Ok|].
  split; [|split].
  - rewrite <- list_fmap_compose. done.
  - rewrite <- list_fmap_compose. done.
  - intros p. rewrite !reported_items.
    pose proof (queue_total BUY p s Hok) as Eb.
    pose proof (queue_total SELL p s Hok) as Ea.
    unfold orders_dict in Eb, Ea. rewrite Eb, Ea.
    rewrite <- tally_plus. destruct (Hled p) as [-> _].
    apply tally_ext. intros o. by rewrite remaining_at_sides.
Qed.

Lemma get_order_infos_agrees_with_ledger_witness :
  reachable_well_made PartialAllOrNone.book3 /\
  exists bid_infos ask_infos,
    get_order_infos PartialAllOrNone.book3 =
      Ok (bid_infos, ask_infos) PartialAllOrNone.book3 /\
    LevelInfo.price <$> bid_infos ≡ₚ keys (bids PartialAllOrNone.book3) /\
    LevelInfo.price <$> ask_infos ≡ₚ keys (asks PartialAllOrNone.book3) /\
    forall p, reported bid_infos p + reported ask_infos p =
              quantity (level (data PartialAllOrNone.book3) p).
Proof.
  split; [exact partial_reachable_well_made|].
  exact (get_order_infos_agrees_with_ledger _ partial_reachable_well_made).
Defined.

(** ** The size of the book *)

Lemma elem_of_concat_items (items : list (Z * list Z)) r :
  r ∈ concat items.*2 <-> exists p q, (p, q) ∈ items /\ r ∈ q.
Proof.
  induction items as [|[p q] items IH]; csimpl.
  - split; [by intros ?%elem_of_nil|by intros (? & ? & ?%elem_of_nil & _)].
  - rewrite elem_of_app, IH. split.
    + intros [H|(p' & q' & H & Hr)].
      * exists p, q. split; [left|done].
      * exists p', q'. split; [by right|done].
    + intros (p' & q' & [[= -> ->]|H]%elem_of_cons & Hr); [by left|].
      right. by exists p', q'.
Qed.

Lemma NoDup_concat_items (own : Z -> Z -> Prop) (items : list (Z * list Z)) :
  (forall r p p', own r p -> own r p' -> p = p') ->
  NoDup items.*1 ->
  (forall p q, (p, q) ∈ items -> NoDup q /\ forall r, r ∈ q -> own r p) ->
  NoDup (concat items.*2).
Proof.
  intros Hfun. induction items as [|[p q] items IH]; intros Hnd H; [constructor|].
  rewrite fmap_cons in Hnd. apply NoDup_cons in Hnd as [Hni Hnd]. csimpl.
  destruct (H p q (list_elem_of_here _ _)) as [Hq Hown].
  apply NoDup_app. split; [done|split].
  - intros r Hr (p' & q' & Hi & Hr')%elem_of_concat_items.
    destruct (H p' q' (list_elem_of_further _ _ _ Hi)) as [_ Hown'].
    assert (p = p') as <- by (eapply Hfun; eauto).
    apply Hni, list_elem_of_fmap. by exists (p, q').
  - apply IH; [done|]. intros p' q' Hi. apply H. by right.
Qed.

Lemma side_refs_NoDup sd s :
  book_ok s -> NoDup (concat (map_to_list (orders_dict sd s)).*2).
Proof.
  intros [K R Q N].
  apply (NoDup_concat_items
           (fun r p => exists o, orders s !! r = Some o /\ Order.price o = p)).
  - intros r p p' (o & Ho & <-) (o' & Ho' & <-). congruence.
  - apply NoDup_fst_map_to_list.
  - intros p q Hq%elem_of_map_to_list. split; [by eapply N|].
    intros r Hr. destruct (Q _ _ _ _ Hq Hr) as (o & Ho & _ & Hp). by exists o.
Qed.

Lemma elem_of_side_refs sd s r :
  r ∈ concat (map_to_list (orders_dict sd s)).*2 <-> queued sd s r.
Proof.
  rewrite elem_of_concat_items. unfold queued.
  split; intros (p & q & H & Hr); exists p, q; split; try done;
    by apply elem_of_map_to_list.
Qed.

Lemma resident_refs_registered s :
  book_ok s -> resident_refs s ≡ₚ keys (orders s).
Proof.
  intros Hok. apply NoDup_Permutation.
  - unfold resident_refs. apply NoDup_app. split; [|split].
    + apply (side_refs_NoDup BUY s Hok).
    + intros r Hb Ha. apply (elem_of_side_refs BUY) in Hb.
      apply (elem_of_side_refs SELL) in Ha.
      by apply (book_ok_sides_disjoint s Hok r).
    + apply (side_refs_NoDup SELL s Hok).
  - apply NoDup_fst_map_to_list.
  - intros r. unfold resident_refs, keys.
    rewrite elem_of_app, list_elem_of_fmap.
    rewrite (elem_of_side_refs BUY), (elem_of_side_refs SELL). split.
    + intros [(p & q & Hq & Hr)|(p & q & Hq & Hr)];
        destruct (ok_queued _ Hok _ _ _ _ Hq Hr) as (o & Ho & _);
        exists (r, o); (split; [done|by apply elem_of_map_to_list]).
    + intros ([r' o] & -> & Ho%elem_of_map_to_list). simpl.
      destruct (ok_registered _ Hok _ _ Ho) as (q & Hq & Hr).
      destruct (Order.side o); [left|right]; by exists (Order.price o), q.
Qed.

(** X14. In every book the program can be in between two calls, [size]
    returns, leaves the book as it was, and gives the number of entries in
    the queues of the two sides, those of filled orders left at a queue head
    included. *)
Theorem size_counts_queue_entries (s : Orderbook) :
  reachable s -> size s = Ok (Z.of_nat (length (resident_refs s))) s.
Proof.
  intros H. apply reachable_book_ok in H as [Hok Hl].
  unfold size, with_lock. rewrite Hl. unfold bind, get, ret. simpl.
  rewrite release_acquire by done.
  rewrite (Permutation_length (resident_refs_registered s Hok)).
  unfold keys. by rewrite length_fmap, length_map_to_list.
Qed.

Lemma size_counts_queue_entries_witness :
  reachable ExactFill.book2 /\
  size ExactFill.book2 = Ok (Z.of_nat (length (resident_refs ExactFill.book2))) ExactFill.book2.
Proof.
  split; [exact exact_fill_reachable|].
  exact (size_counts_queue_entries _ exact_fill_reachable).
Defined.

(** ** Trades are made between crossing orders *)

Lemma match_step_trade_quantity bb ba rb ra trades s ex trades' s' :
  match_step bb ba rb ra trades s = Ok (ex, trades') s' ->
  exists bid0 ask0,
    orders s !! rb = Some bid0 /\ orders s !! ra = Some ask0 /\
    trades' = trades ++
      [trade (Order.order_id bid0) (Order.price bid0)
             (Order.order_id ask0) (Order.price ask0)
             (Z.min (Order.remaining_quantity bid0)
                    (Order.remaining_quantity ask0))].
Proof.
  unfold match_step. intros H.
  apply bind_inv in H as (bid0 & s1 & H1 & H).
  apply deref_inv in H1 as [-> Hb0].
  apply bind_inv in H as (ask0 & s1 & H1 & H).
  apply deref_inv in H1 as [-> Ha0].
  apply bind_inv in H as ([] & s1 & H1 & H).
  apply steps_down_fill_at in H1 as D1.
  apply bind_inv in H as ([] & s2 & H2 & H).
  apply steps_down_fill_at in H2 as D2.
  pose proof (descends_trans _ _ _ D1 D2) as [D _].
  apply bind_inv in H as (bid & s3 & H3 & H).
  apply deref_inv in H3 as [-> Hb].
  apply bind_inv in H as (ask & s3 & H3 & H).
  apply deref_inv in H3 as [-> Ha].
  destruct (D _ _ Hb) as (bid0' & Hb0' & _ & Ib & _ & Pb & _).
  destruct (D _ _ Ha) as (ask0' & Ha0' & _ & Ia & _ & Pa & _).
  assert (bid0' = bid0) as -> by congruence.
  assert (ask0' = ask0) as -> by congruence.
  exists bid0, ask0. split; [done|]. split; [done|].
  revert H. match goal with |- ?c s2 = _ -> _ => assert (Y : yields
    (trades ++
      [Trade.mk
         (TradeInfo.mk (Order.order_id bid) (Order.price bid)
            (Z.min (Order.remaining_quantity bid0) (Order.remaining_quantity ask0)))
         (TradeInfo.mk (Order.order_id ask) (Order.price ask)
            (Z.min (Order.remaining_quantity bid0) (Order.remaining_quantity ask0)))]) c)
    by yields_tac end.
  intros H. apply Y in H. simpl in H. rewrite H. unfold trade.
  by rewrite Ib, Pb, Ia, Pa.
Qed.

Lemma match_loop_covers fuel :
  forall pos trades0 s trades s',
    book_ok s -> remaining_in_range s -> ledger_tracks s ->
    pos_crossed pos -> Forall bid_covers_ask trades0 ->
    match_loop fuel pos trades0 s = Ok trades s' ->
    Forall bid_covers_ask trades.
Proof.
  induction fuel as [|fuel IH];
    intros pos trades0 s trades s' Hok Hrng Hled Hpos Hall H; [discriminate|].
  simpl in H. destruct pos as [|bb ba].
  - apply bind_inv in H as (s1 & s2 & [-> ->]%get_inv & H).
    destruct (truthy (bids s) && truthy (asks s)).
    + apply bind_inv in H as (bb & s2 & [_ ->]%from_option_inv & H).
      apply bind_inv in H as (ba & s2 & [_ ->]%from_option_inv & H).
      destruct (Z.ltb_spec bb ba).
      * by apply ret_inv in H as [-> _].
      * by apply (IH (AtInner bb ba) trades0 s trades s').
    + by apply ret_inv in H as [-> _].
  - apply bind_inv in H as (s1 & s2 & [-> ->]%get_inv & H).
    apply bind_inv in H as (qb & s2 & [Hqb ->]%from_option_inv & H).
    destruct qb as [|rb lb]; [by apply (IH AtOuter trades0 s trades s')|].
    apply bind_inv in H as (qa & s2 & [Hqa ->]%from_option_inv & H).
    destruct qa as [|ra la]; [by apply (IH AtOuter trades0 s trades s')|].
    apply bind_inv in H as ([ex trades1] & s2 & Hstep & H).
    pose proof (match_step_book_ok _ _ _ _ _ _ _ _ _ _ Hok Hqb Hqa Hstep) as Hok2.
    pose proof (match_step_tracked _ _ _ _ _ _ _ _ _ _ Hok Hrng Hled Hqb Hqa Hstep)
      as [Hrng2 Hled2].
    apply match_step_trade_quantity in Hstep as (b0 & a0 & Hb0 & Ha0 & ->).
    destruct (ok_queued _ Hok BUY bb _ rb Hqb (list_elem_of_here _ _))
      as (b0' & Hb0' & _ & Pb).
    destruct (ok_queued _ Hok SELL ba _ ra Hqa (list_elem_of_here _ _))
      as (a0' & Ha0' & _ & Pa).
    assert (b0' = b0) as -> by congruence.
    assert (a0' = a0) as -> by congruence.
    pose proof (Hrng _ _ Hb0). pose proof (Hrng _ _ Ha0).
    assert (Forall bid_covers_ask
              (trades0 ++
               [trade (Order.order_id b0) (Order.price b0) (Order.order_id a0)
                  (Order.price a0)
                  (Z.min (Order.remaining_quantity b0) (Order.remaining_quantity a0))]))
      as Hall2.
    { apply Forall_app. split; [done|]. apply Forall_singleton.
      split; simpl in *; lia. }
    destruct ex.
    + by apply ret_inv in H as [-> _].
    + by eapply (IH AtOuter); [| | | | |exact H].
    + by eapply (IH (AtInner bb ba)); [| | | | |exact H].
Qed.

Lemma add_order_covers fuel o s trades s' :
  book_ok s -> remaining_in_range s -> ledger_tracks s -> well_made o ->
  add_order fuel o s = Ok trades s' ->
  Forall bid_covers_ask trades.
Proof.
  intros Hok Hrng Hled Hwm H. apply with_lock_inv in H as (Hl & s1 & H & ->).
  apply (book_ok_set_lock true) in Hok.
  assert (remaining_in_range (set_lock true s)) as Hrng' by done.
  assert (ledger_tracks (set_lock true s)) as Hled' by done.
  apply bind_inv in H as (s2 & s3 & [-> ->]%get_inv & H).
  change (orders (set_lock true s)) with (orders s) in H.
  destruct (orders s !! Order.order_id o) eqn:Hnew.
  { by apply ret_inv in H as [-> _]. }
  apply bind_inv in H as (c & s3 & Hc & H).
  pose proof (convert_market_quantities _ _ _ _ Hc) as Hqty.
  apply convert_market_inv in Hc as [-> Hid].
  destruct c as [o'|]; [|by apply ret_inv in H as [-> _]].
  destruct (Hqty o' eq_refl) as [Hi Hr].
  assert (well_made o') as Hwm'
    by (destruct Hwm; split; [by rewrite Hr, Hi|by rewrite Hi]).
  destruct (_ && negb (_can_match _ _ _)); [by apply ret_inv in H as [-> _]|].
  destruct (_ && negb (_can_fully_fill _ _ _ _)); [by apply ret_inv in H as [-> _]|].
  apply bind_inv in H as ([] & s3 & ->%update_inv & H).
  assert (orders (set_lock true s) !! Order.order_id o' = None) as Hnew'
    by (simpl; by rewrite (Hid o' eq_refl)).
  eapply (match_loop_covers fuel AtOuter []); [| | | | |exact H]; try done.
  - by apply book_ok_insert_order.
  - by apply remaining_in_range_insert.
  - apply ledger_tracks_insert; [done|done|by destruct Hwm'].
Qed.

(** X15. On a book reached with well-made orders, every trade [add_order]
    returns for a well-made order is made between a bid and an ask whose
    prices cross or meet: the price reported for the ask is at most the price
    reported for the bid, and the quantity is not negative. *)
Theorem add_order_trades_cross (s : Orderbook) (fuel : nat) (o : Order.t)
    (trades : list Trade.t) (s' : Orderbook) (t : Trade.t) :
  reachable_well_made s -> well_made o ->
  add_order fuel o s = Ok trades s' ->
  t ∈ trades ->
  TradeInfo.price (Trade.ask_trade t) <= TradeInfo.price (Trade.bid_trade t) /\
  0 <= TradeInfo.quantity (Trade.bid_trade t).
Proof.
  intros Hs Hwm H Ht.
  destruct (reachable_book_ok s (reachable_well_made_reachable s Hs)) as [Hok _].
  destruct (reachable_well_made_tracked s Hs) as [Hrng Hled].
  pose proof (add_order_covers _ _ _ _ _ Hok Hrng Hled Hwm H) as Hall.
  rewrite Forall_forall in Hall. exact (Hall t Ht).
Qed.

Lemma partial_book2_well_made : reachable_well_made PartialAllOrNone.book2.
Proof.
  eapply rw_add; [| |apply (partial_step2 0)]; [|split; [reflexivity|by vm_compute]].
  eapply rw_add; [| |apply (partial_step1 0)]; [|split; [reflexivity|by vm_compute]].
  constructor.
Qed.

Lemma add_order_trades_cross_witness :
  reachable_well_made PartialAllOrNone.book2 /\
  well_made PartialAllOrNone.buy3 /\
  add_order 3 PartialAllOrNone.buy3 PartialAllOrNone.book2 =
    Ok [trade 3 100 2 100 5] PartialAllOrNone.book3 /\
  trade 3 100 2 100 5 ∈ [trade 3 100 2 100 5] /\
  TradeInfo.price (Trade.ask_trade (trade 3 100 2 100 5)) <=
    TradeInfo.price (Trade.bid_trade (trade 3 100 2 100 5)) /\
  0 <= TradeInfo.quantity (Trade.bid_trade (trade 3 100 2 100 5)).
Proof.
  assert (well_made PartialAllOrNone.buy3) as Hwm
    by (split; [reflexivity|by vm_compute]).
  assert (trade 3 100 2 100 5 ∈ [trade 3 100 2 100 5]) as Hin by left.
  split; [exact partial_book2_well_made|]. split; [exact Hwm|].
  split; [exact (partial_step3 0)|]. split; [exact Hin|].
  exact (add_order_trades_cross _ _ _ _ _ _ partial_book2_well_made Hwm
           (partial_step3 0) Hin).
Defined.

(** ** Market orders *)

Lemma worst_key_unique sd s w w' :
  worst_key sd s w -> worst_key sd s w' -> w = w'.
Proof.
  intros [H1 H2] [H1' H2']. specialize (H2 _ H1'). specialize (H2' _ H1).
  destruct sd; lia.
Qed.

Lemma market_order_at_worst_key fuel o s w :
  lock s = false -> Order.order_type o = MARKET ->
  orders s !! Order.order_id o = None ->
  worst_key (opposite (Order.side o)) s w ->
  add_order fuel o s =
    with_lock (update (insert_order (as_good_till_cancel o w)) ;;;
               _match_orders fuel) s.
Proof.
  intros Hl Hty Hnew Hw.
  destruct (market_order_conversion_by_keys fuel s o Hl Hty) as [_ H].
  destruct H as (w' & Hw' & ->); [|done|].
  - destruct Hw as [[q Hq] _]. intros E. rewrite E in Hq.
    by rewrite lookup_empty in Hq.
  - by rewrite (worst_key_unique _ _ _ _ Hw Hw').
Qed.




Lemma market_on_stale_step3 k :
  add_order (1 + k) MarketOnStale.sell3 StaleLevel.book2 = Ok [] MarketOnStale.book3.
Proof. run_add. Qed.

Lemma market_on_stale_reachable : reachable MarketOnStale.book3.
Proof.
  eapply (reach_call _ (Add _)); [|apply (market_on_stale_step3 0)].
  exact stale_reachable.
Qed.

Lemma market_on_stale_step4 k :
  add_order (3 + k) MarketOnStale.market4 MarketOnStale.book3 =
    Ok [trade 4 100 3 99 5] MarketOnStale.book4.
Proof. run_add. Qed.

Lemma market_on_stale_spins fuel :
  add_order fuel MarketOnStale.market4 StaleLevel.book2 = OutOfFuel.
Proof.
  rewrite (market_order_at_worst_key fuel MarketOnStale.market4 StaleLevel.book2 100);
    [|reflexivity|reflexivity|reflexivity|].
  - unfold with_lock. simpl lock. cbv iota.
    unfold bind, update, _match_orders.
    set (s := insert_order _ _).
    destruct (match_loop_spins_on s 100 100) with (fuel := fuel) (trades := @nil Trade.t)
      as [-> _]; [by vm_compute|by vm_compute|lia| |done].
    right. split; [by exists [4]|reflexivity].
  - split; [by exists []|]. intros p [q Hq]. simpl in Hq.
    apply lookup_singleton_Some in Hq as [<- _]. simpl. lia.
Qed.

(** C5. A market order is priced from the keys of the opposite side map, and
    a key outlives its orders when bid and ask are exhausted in the same
    step.  After a bid and an ask of the same size have matched at 100, no
    ask is resident, yet a market bid is not turned away: it is priced at the
    emptied level and [add_order] never returns.  With an ask then resting
    at 99, the worst resident ask price is 99, yet the market bid is priced
    at 100, as its half of the trade reports. *)
Theorem C5_market_order_meets_stale_level :
  Order.order_type MarketOnStale.market4 = MARKET /\
  reachable StaleLevel.book2 /\
  side_empty SELL StaleLevel.book2 /\
  (forall fuel,
     add_order fuel MarketOnStale.market4 StaleLevel.book2 = OutOfFuel) /\
  reachable MarketOnStale.book3 /\
  worst_resident_price SELL MarketOnStale.book3 99 /\
  (forall k,
     add_order (3 + k) MarketOnStale.market4 MarketOnStale.book3 =
       Ok [trade 4 100 3 99 5] MarketOnStale.book4).
Proof.
  split; [reflexivity|]. split; [exact stale_reachable|]. split.
  { intros p (q & r & Hq & Hr). simpl in Hq.
    apply lookup_singleton_Some in Hq as [_ <-]. by apply elem_of_nil in Hr. }
  split; [exact market_on_stale_spins|].
  split; [exact market_on_stale_reachable|]. split; [|exact market_on_stale_step4].
  split.
  - exists [3], 3. split; [reflexivity|left].
  - intros p (q & r & Hq & Hr). simpl in Hq.
    apply lookup_insert_Some in Hq as [[<- _]|[_ Hq]]; [lia|].
    apply lookup_singleton_Some in Hq as [_ <-]. by apply elem_of_nil in Hr.
Qed.




